(** * four-meme-bundler: fee recommendation, batch queue, batch executor,
      bundle orchestrator and MEV protection

    A shallow embedding of the TypeScript sources
    - [GasOptimizer] (gas-optimizer/GasOptimizer.ts),
    - [BatchProcessor] (batch-processor/BatchProcessor.ts),
    - [FourMemeBundler] (bundler/FourMemeBundler.ts),
    - [MEVProtection] (mev-protection/MEVProtection.ts),
    followed by the properties of the specification that concern them and
    by further properties of the same functions and of their neighbours.

    Conventions of the embedding:
    - a JavaScript [bigint] is a [Z];
    - a JavaScript [number] is an IEEE 754 binary64 value, represented by
      [spec_float] with the operations of [SpecFloat] at precision 53 and
      maximal exponent 1024 (round to nearest, ties to even);
    - a [try { ... } catch] block is an [option]-valued body ([None] when the
      body throws) followed by the handler;
    - the answers of the collaborators (RPC provider, wallets, MEV protection)
      are inputs of the functions;
    - objects that are mutated in place and shared through references
      (the transactions of a batch, the bundles) live in a store indexed by
      references. *)

From Stdlib Require Import ZArith Lia SpecFloat Ascii.
From stdpp Require Import base option list gmap strings pretty sorting.

Local Open Scope Z_scope.

(* ===================================================================== *)
(** * Part I: the embedding                                               *)
(* ===================================================================== *)

(** ** JavaScript numbers *)

Module JSNumber.

Definition prec : Z := 53.
Definition emax : Z := 1024.

Abbreviation number := spec_float.

Definition NaN : number := S754_nan.
Definition Infinity : number := S754_infinity false.

(** [Number(z)] for a bigint (and an integer literal): the nearest
    binary64 value, ties to even; [Infinity] from 2^1024 on. *)
Definition ofBigInt (z : Z) : number := binary_normalize prec emax z 0 false.

(** A decimal literal whose value is the fraction [n / d], both exactly
    representable: the literal denotes the binary64 value nearest to the
    fraction, which is what the IEEE division of the two computes. *)
Definition lit (n d : Z) : number := SFdiv prec emax (ofBigInt n) (ofBigInt d).

(** The binary64 value nearest to the fraction [n / d] of two arbitrary
    positive integers (a decimal string converted by [Number]). *)
Definition ofRatio (n d : Z) : number :=
  match n, d with
  | Zpos _, Zpos _ =>
      let '(q, e, l) := SFdiv_core_binary prec emax n 0 d 0 in
      binary_round_aux prec emax false q e l
  | Z0, Zpos _ => S754_zero false
  | _, _ => NaN
  end.

Definition add : number -> number -> number := SFadd prec emax.
Definition sub : number -> number -> number := SFsub prec emax.
Definition mul : number -> number -> number := SFmul prec emax.
Definition div : number -> number -> number := SFdiv prec emax.
Definition Math_sqrt : number -> number := SFsqrt prec emax.

(** [Math.pow(x, 2)], taken as the correctly rounded square. *)
Definition Math_pow2 (x : number) : number := mul x x.

(** [a < b] and [a > b]; both are false as soon as one side is [NaN]. *)
Definition lt (a b : number) : bool := SFltb a b.
Definition gt (a b : number) : bool := SFltb b a.
Definition le (a b : number) : bool := SFleb a b.

(** [Math.min(a, b)]: [NaN] when either argument is, and [-0] below [+0]. *)
Definition Math_min (a b : number) : number :=
  match SFcompare a b with
  | None => NaN
  | Some Lt => a
  | Some Gt => b
  | Some Eq =>
      match a, b with
      | _, S754_zero true => b
      | _, _ => a
      end
  end.

(** [BigInt(Math.floor(x))]: the floor of a finite number is an integer,
    [BigInt] throws a RangeError (here [None]) on [NaN] and the
    infinities. *)
Definition BigInt_floor (x : number) : option Z :=
  match x with
  | S754_zero _ => Some 0
  | S754_finite s m e => Some (Z.shiftl (cond_Zopp s (Zpos m)) e)
  | S754_infinity _ | S754_nan => None
  end.

(** [BigInt(x)]: throws a RangeError unless [x] is an integer. *)
Definition BigInt (x : number) : option Z :=
  match x with
  | S754_zero _ => Some 0
  | S754_finite s m e =>
      if (0 <=? e) || (Zpos m mod 2 ^ (- e) =? 0)
      then Some (Z.shiftl (cond_Zopp s (Zpos m)) e)
      else None
  | S754_infinity _ | S754_nan => None
  end.

(** Well-formed binary64 values (canonical mantissa and exponent). *)
Definition is_number (x : number) : bool := valid_binary prec emax x.

(** The unary minus. *)
Definition opp : number -> number := SFopp.

(** What [Array.prototype.sort] reads off the number [v] that its
    comparator returns: whether [v < 0], [v > 0] or neither ([NaN] counts
    as [+0]). *)
Definition sort_sign (v : number) : Z :=
  if lt v (S754_zero false) then -1
  else if gt v (S754_zero false) then 1
  else 0.

End JSNumber.

(** ** ethers: the formatting of amounts

    [ethers.formatUnits(value, unit)] and [ethers.formatEther(value)] write
    a bigint as a decimal fraction through a fixed-point number of 512 bits:
    the conversion refuses (it throws NUMERIC_FAULT) a value whose magnitude
    is 2^511 or more. *)

Module Ethers.
Import JSNumber.

Definition formatUnits_throws (value : Z) : bool := 2 ^ 511 <=? Z.abs value.

(** [Number(ethers.formatUnits(value, unit))], with [scale] the power of
    ten of the unit: [None] when [formatUnits] throws, and otherwise the
    number nearest to [value / scale], the string being the exact decimal
    fraction with its sign. *)
Definition Number_formatUnits (value scale : Z) : option number :=
  if formatUnits_throws value then None
  else Some (match value with
             | Zneg magnitude => opp (ofRatio (Zpos magnitude) scale)
             | _ => ofRatio value scale
             end).

End Ethers.

(** ** GasOptimizer *)

Module GasOptimizer.
Import JSNumber.

Record GasOptimizationConfig := {
  enabled : bool;
  dynamicPricing : bool;
  gasPriceBuffer : number;
  priorityFeeBuffer : number;
  maxGasPrice : number;
  minGasPrice : number;
  gasPriceHistorySize : nat;
  networkCongestionThreshold : number;
  validatorTipsEnabled : bool;
  validatorTipAmount : Z
}.

Inductive Recommendation := LOW | MEDIUM | HIGH | CRITICAL.

Record GasPriceData := {
  gasPrice : Z;
  priorityFee : Z;
  maxFeePerGas : Z;
  confidence : number;
  networkCongestion : number;
  recommendation : Recommendation;
  timestamp : Z
}.

(** What [provider.getFeeData()] resolves to; each field may be [null]. *)
Record FeeData := {
  fee_gasPrice : option Z;
  fee_maxPriorityFeePerGas : option Z;
  fee_maxFeePerGas : option Z
}.

Inductive UrgencyType := LAUNCH | BUY.

(** [x || BigInt(0)] *)
Definition orZero (x : option Z) : Z :=
  match x with Some v => v | None => 0 end.

(** The defaults of [loadGasConfig]. *)
Definition defaultGasConfig : GasOptimizationConfig := {|
  enabled := true;
  dynamicPricing := true;
  gasPriceBuffer := lit 11 10;
  priorityFeeBuffer := lit 12 10;
  maxGasPrice := ofBigInt 20;
  minGasPrice := ofBigInt 1;
  gasPriceHistorySize := 100;
  networkCongestionThreshold := lit 6 10;
  validatorTipsEnabled := true;
  validatorTipAmount := 1000000000000000
|}.

(** [history.slice(-n)]; [slice(-0)] is [slice(0)], the whole array. *)
Definition slice_last {A} (n : nat) (l : list A) : list A :=
  match n with
  | O => l
  | _ => drop (length l - n)%nat l
  end.

(** [getNetworkCongestion]: nothing in its body throws. *)
Definition getNetworkCongestion (gasPriceHistory : list GasPriceData) : number :=
  if (length gasPriceHistory <? 10)%nat then lit 5 10
  else
    let recentPrices := slice_last 10 gasPriceHistory in
    let len := ofBigInt (Z.of_nat (length recentPrices)) in
    let avgPrice :=
      div (fold_left (fun sum data => add sum (ofBigInt (gasPrice data)))
                     recentPrices (ofBigInt 0)) len in
    let variance :=
      div (fold_left (fun sum data =>
                        add sum (Math_pow2 (sub (ofBigInt (gasPrice data)) avgPrice)))
                     recentPrices (ofBigInt 0)) len in
    let volatility := div (Math_sqrt variance) avgPrice in
    Math_min (mul volatility (ofBigInt 2)) (ofBigInt 1).

(** The congestion band of [calculateOptimalGasPrice]. *)
Definition gasPriceMultiplier (congestionLevel : number) : number :=
  if gt congestionLevel (lit 8 10) then lit 15 10
  else if gt congestionLevel (lit 6 10) then lit 12 10
  else if lt congestionLevel (lit 3 10) then lit 9 10
  else ofBigInt 1.

(** The [try] block of [calculateOptimalGasPrice], after the congestion
    level has been read. *)
Definition calculateOptimalGasPrice_try (cfg : GasOptimizationConfig)
    (congestionLevel : number) (currentGasPrice : Z) : option Z :=
  let multiplier := gasPriceMultiplier congestionLevel in
  optimalGasPrice ← BigInt_floor (mul (ofBigInt currentGasPrice) multiplier);
  bufferedGasPrice ← BigInt_floor (mul (ofBigInt optimalGasPrice) (gasPriceBuffer cfg));
  minGasPrice ← BigInt (mul (minGasPrice cfg) (ofBigInt 1000000000));
  Some (if bufferedGasPrice >? minGasPrice then bufferedGasPrice else minGasPrice).

Definition calculateOptimalGasPrice (cfg : GasOptimizationConfig)
    (gasPriceHistory : list GasPriceData) (currentGasPrice : Z) : Z :=
  match calculateOptimalGasPrice_try cfg (getNetworkCongestion gasPriceHistory)
                                     currentGasPrice with
  | Some price => price
  | None => currentGasPrice
  end.

(** [getOptimalGasPrice]; [feeData = None] when [getFeeData] throws. The
    line that logs the price formats it with [formatUnits] inside the
    [try]: a price that cannot be formatted ends in the handler too. *)
Definition getOptimalGasPrice (cfg : GasOptimizationConfig)
    (gasPriceHistory : list GasPriceData) (feeData : option FeeData) : Z :=
  match feeData with
  | Some fd =>
      let currentGasPrice := orZero (fee_gasPrice fd) in
      if negb (enabled cfg) then currentGasPrice
      else
        let optimalGasPrice :=
          calculateOptimalGasPrice cfg gasPriceHistory currentGasPrice in
        if Ethers.formatUnits_throws optimalGasPrice then 5 * 1000000000
        else optimalGasPrice
  | None => 5 * 1000000000
  end.

Definition priorityFeeMultiplier (networkCongestion : number) : number :=
  if gt networkCongestion (lit 8 10) then ofBigInt 2
  else if gt networkCongestion (lit 6 10) then lit 15 10
  else if lt networkCongestion (lit 3 10) then lit 8 10
  else ofBigInt 1.

Definition calculateOptimalPriorityFee (cfg : GasOptimizationConfig)
    (gasPriceHistory : list GasPriceData) (currentPriorityFee : Z) : Z :=
  let multiplier := priorityFeeMultiplier (getNetworkCongestion gasPriceHistory) in
  match
    optimalPriorityFee ← BigInt_floor (mul (ofBigInt currentPriorityFee) multiplier);
    BigInt_floor (mul (ofBigInt optimalPriorityFee) (priorityFeeBuffer cfg))
  with
  | Some fee => fee
  | None => currentPriorityFee
  end.

Definition getOptimalPriorityFee (cfg : GasOptimizationConfig)
    (gasPriceHistory : list GasPriceData) (feeData : option FeeData) : Z :=
  match feeData with
  | Some fd =>
      let currentPriorityFee := orZero (fee_maxPriorityFeePerGas fd) in
      if negb (enabled cfg) then currentPriorityFee
      else calculateOptimalPriorityFee cfg gasPriceHistory currentPriorityFee
  | None => 1 * 1000000000
  end.

(** The urgency multiplier of [getUrgentGasPrice]. *)
Definition urgencyMultiplier (type : UrgencyType) (networkCongestion : number) : number :=
  let urgencyMultiplier :=
    match type with LAUNCH => lit 15 10 | BUY => lit 12 10 end in
  if gt networkCongestion (lit 8 10) then mul urgencyMultiplier (lit 13 10)
  else if gt networkCongestion (lit 6 10) then mul urgencyMultiplier (lit 11 10)
  else urgencyMultiplier.

(** The [try] block of [getUrgentGasPrice], after its two reads. *)
Definition getUrgentGasPrice_try (cfg : GasOptimizationConfig)
    (baseGasPrice : Z) (networkCongestion : number) (type : UrgencyType) : option Z :=
  urgentGasPrice ←
    BigInt_floor (mul (ofBigInt baseGasPrice) (urgencyMultiplier type networkCongestion));
  maxGasPrice ← BigInt (mul (maxGasPrice cfg) (ofBigInt 1000000000));
  minGasPrice ← BigInt (mul (minGasPrice cfg) (ofBigInt 1000000000));
  Some (if urgentGasPrice >? maxGasPrice then maxGasPrice
        else if urgentGasPrice <? minGasPrice then minGasPrice
        else urgentGasPrice).

Definition getUrgentGasPrice (cfg : GasOptimizationConfig)
    (gasPriceHistory : list GasPriceData) (feeData : option FeeData)
    (type : UrgencyType) : Z :=
  let baseGasPrice := getOptimalGasPrice cfg gasPriceHistory feeData in
  let networkCongestion := getNetworkCongestion gasPriceHistory in
  match getUrgentGasPrice_try cfg baseGasPrice networkCongestion type with
  | Some price => price
  | None => 10 * 1000000000
  end.

(** [getGasPriceRecommendation]: it throws ([None]) when [formatUnits]
    does. *)
Definition getGasPriceRecommendation (gasPrice : Z) (congestion : number)
  : option Recommendation :=
  gasPriceGwei ← Ethers.Number_formatUnits gasPrice 1000000000;
  Some (if gt congestion (lit 8 10) || gt gasPriceGwei (ofBigInt 20) then CRITICAL
        else if gt congestion (lit 6 10) || gt gasPriceGwei (ofBigInt 10) then HIGH
        else if gt congestion (lit 3 10) || gt gasPriceGwei (ofBigInt 5) then MEDIUM
        else LOW).

(** [updateGasPriceHistory]; when [getFeeData] or
    [getGasPriceRecommendation] throws, the handler leaves the history as
    it is. [now] is the reading of [Date.now()]. *)
Definition updateGasPriceHistory (cfg : GasOptimizationConfig)
    (gasPriceHistory : list GasPriceData) (feeData : option FeeData) (now : Z)
    : list GasPriceData :=
  match feeData with
  | None => gasPriceHistory
  | Some fd =>
      let gasPrice := orZero (fee_gasPrice fd) in
      let networkCongestion := getNetworkCongestion gasPriceHistory in
      match getGasPriceRecommendation gasPrice networkCongestion with
      | None => gasPriceHistory
      | Some level =>
          let gasPriceData := {|
            gasPrice := gasPrice;
            priorityFee := orZero (fee_maxPriorityFeePerGas fd);
            maxFeePerGas := orZero (fee_maxFeePerGas fd);
            confidence := lit 8 10;
            networkCongestion := networkCongestion;
            recommendation := level;
            timestamp := now |} in
          let pushed := gasPriceHistory ++ [gasPriceData] in
          if (gasPriceHistorySize cfg <? length pushed)%nat
          then slice_last (gasPriceHistorySize cfg) pushed
          else pushed
      end
  end.

(** *** The trend of the recent prices *)

Inductive Trend := INCREASING | DECREASING | STABLE.

(** [getGasPriceTrend]: nothing in its body throws; [take 3] is
    [slice(0, 3)] and [drop 2] is [slice(2)]. *)
Definition getGasPriceTrend (gasPriceHistory : list GasPriceData) : Trend :=
  if (length gasPriceHistory <? 5)%nat then STABLE
  else
    let recentPrices := slice_last 5 gasPriceHistory in
    let firstHalf := take 3 recentPrices in
    let secondHalf := drop 2 recentPrices in
    let firstAvg :=
      div (fold_left (fun sum data => add sum (ofBigInt (gasPrice data)))
                     firstHalf (ofBigInt 0))
          (ofBigInt (Z.of_nat (length firstHalf))) in
    let secondAvg :=
      div (fold_left (fun sum data => add sum (ofBigInt (gasPrice data)))
                     secondHalf (ofBigInt 0))
          (ofBigInt (Z.of_nat (length secondHalf))) in
    let change := div (sub secondAvg firstAvg) firstAvg in
    if gt change (lit 5 100) then INCREASING
    else if lt change (opp (lit 5 100)) then DECREASING
    else STABLE.

(** *** The gas budget of a bundle *)

Record BundleGasOptimization := {
  launchGasPrice : Z;
  buyGasPrice : Z;
  bundle_priorityFee : Z;
  totalGasEstimate : Z;
  totalGasCost : Z;
  optimizationStrategy : string;
  validatorTips : Z
}.

Definition determineOptimizationStrategy (congestion walletCount : number) : string :=
  if gt congestion (lit 8 10) then "HIGH_CONGESTION_BUNDLE"
  else if gt walletCount (ofBigInt 50) then "LARGE_BUNDLE_OPTIMIZATION"
  else if gt walletCount (ofBigInt 20) then "MEDIUM_BUNDLE_OPTIMIZATION"
  else "STANDARD_BUNDLE_OPTIMIZATION".

(** [optimizeBundleGas]; [walletCount] is a number, and [BigInt] throws on
    one that is not an integer, which the handler throws again ([None]); so
    does [formatEther] in the line that logs the total cost. The three fee
    readings are those of the two calls of [getUrgentGasPrice] and of
    [getOptimalPriorityFee], in this order. *)
Definition optimizeBundleGas (cfg : GasOptimizationConfig)
    (gasPriceHistory : list GasPriceData)
    (feeLaunch feeBuy feePriority : option FeeData)
    (launchGasLimit buyGasLimit : Z) (walletCount : number)
  : option BundleGasOptimization :=
  let networkCongestion := getNetworkCongestion gasPriceHistory in
  let launchGasPrice := getUrgentGasPrice cfg gasPriceHistory feeLaunch LAUNCH in
  let buyGasPrice := getUrgentGasPrice cfg gasPriceHistory feeBuy BUY in
  let priorityFee := getOptimalPriorityFee cfg gasPriceHistory feePriority in
  wallets ← BigInt walletCount;
  let totalGasEstimate := launchGasLimit + buyGasLimit * wallets in
  let totalGasCost :=
    launchGasPrice * launchGasLimit + buyGasPrice * buyGasLimit * wallets in
  validatorTips ←
    (if validatorTipsEnabled cfg
     then transactions ← BigInt (add walletCount (ofBigInt 1));
          Some (validatorTipAmount cfg * transactions)
     else Some 0);
  let optimization :=
    {| launchGasPrice := launchGasPrice;
       buyGasPrice := buyGasPrice;
       bundle_priorityFee := priorityFee;
       totalGasEstimate := totalGasEstimate;
       totalGasCost := totalGasCost;
       optimizationStrategy :=
         determineOptimizationStrategy networkCongestion walletCount;
       validatorTips := validatorTips |} in
  if Ethers.formatUnits_throws totalGasCost then None else Some optimization.

(** [estimateBundleGasCost]: 0 when [optimizeBundleGas] throws. *)
Definition estimateBundleGasCost (cfg : GasOptimizationConfig)
    (gasPriceHistory : list GasPriceData)
    (feeLaunch feeBuy feePriority : option FeeData)
    (launchGasLimit buyGasLimit : Z) (walletCount : number) : Z :=
  match optimizeBundleGas cfg gasPriceHistory feeLaunch feeBuy feePriority
                          launchGasLimit buyGasLimit walletCount with
  | Some optimization => totalGasCost optimization + validatorTips optimization
  | None => 0
  end.

End GasOptimizer.

(** ** BatchProcessor *)

Module BatchProcessor.
Import JSNumber.

Record BatchProcessorConfig := {
  enabled : bool;
  maxBatchSize : nat;
  batchTimeout : Z;
  parallelBatches : nat;
  retryAttempts : Z;
  retryDelay : Z;
  gasPriceIncrement : number;
  priorityFeeIncrement : number
}.

(** The defaults of [loadBatchConfig]. *)
Definition defaultBatchConfig : BatchProcessorConfig := {|
  enabled := true;
  maxBatchSize := 10;
  batchTimeout := 300000;
  parallelBatches := 3;
  retryAttempts := 3;
  retryDelay := 1000;
  gasPriceIncrement := lit 11 10;
  priorityFeeIncrement := lit 11 10
|}.

Inductive TxStatus := PENDING | SENT | CONFIRMED | FAILED | RETRY.

(** The fields of an [ethers.TransactionRequest] that the processor reads. *)
Record TransactionRequest := {
  to : option string;
  gasLimit : option Z;
  value : option Z;
  data : string
}.

Record Wallet := { address : string }.

Record BatchTransaction := {
  id : string;
  transaction : TransactionRequest;
  wallet : option Wallet;
  nonce : Z;
  gasPrice : Z;
  priorityFee : Z;
  maxFeePerGas : Z;
  status : TxStatus;
  retryCount : Z;
  timestamp : Z;
  txHash : option string;
  blockNumber : option Z;
  gasUsed : option Z
}.

(** A reference to a transaction object; the objects live in [heap]. The
    references that [processBatch] hands on have passed validation and are
    allocated; on a reference to nothing the operations change nothing. *)
Abbreviation ref := nat.

Record BatchResult := {
  batchId : string;
  transactions : list ref;
  successfulTxs : nat;
  failedTxs : nat;
  totalGasUsed : Z;
  totalGasPrice : Z;
  executionTime : Z;
  success : bool
}.

Inductive Priority := LOW | MEDIUM | HIGH | CRITICAL.

Inductive BatchStatus := QUEUED | PROCESSING | COMPLETED | BATCH_FAILED | TIMEOUT.

Record BatchQueue := {
  queue_id : string;
  queue_transactions : list ref;
  priority : Priority;
  createdAt : Z;
  timeout : Z;
  queue_status : BatchStatus
}.

(** One call of [wallet.sendTransaction], with the fee fields and the nonce
    of the request. *)
Record Submission := {
  sub_tx : ref;
  sub_nonce : Z;
  sub_gasPrice : Z;
  sub_priorityFee : Z;
  sub_maxFeePerGas : Z
}.

(** The instance fields of the processor, the transaction objects it was
    handed, and what it has done so far to the outside: the calls of
    [sendTransaction] (oldest first) and the number of clock readings. *)
Record State := {
  batchQueue : list BatchQueue;
  activeBatches : gmap string BatchResult;
  isProcessing : bool;
  batchCounter : Z;
  heap : gmap ref BatchTransaction;
  sent : list Submission;
  clock : nat
}.

Record Receipt := {
  receipt_status : Z;
  receipt_blockNumber : Z;
  receipt_gasUsed : Z;
  receipt_gasPrice : Z
}.

(** How one submission ends: [sendTransaction] rejects, or it resolves to a
    response with a hash and then [wait] rejects or resolves to a receipt. *)
Inductive SendOutcome :=
| SendRejects
| WaitRejects (hash : string)
| Mined (hash : string) (receipt : Receipt).

(** The collaborators: the [k]-th reading of [Date.now()], the provider's
    answers ([None] when the call rejects) and the outcome of the [k]-th call
    of [sendTransaction]. *)
Record Environment := {
  Date_now : nat -> Z;
  getBalance : string -> option Z;
  getTransactionCount : string -> option Z;
  sendTransaction : nat -> SendOutcome
}.

(** *** Field updates *)

Definition set_nonce (n : Z) (tx : BatchTransaction) : BatchTransaction :=
  {| id := id tx; transaction := transaction tx; wallet := wallet tx;
     nonce := n; gasPrice := gasPrice tx; priorityFee := priorityFee tx;
     maxFeePerGas := maxFeePerGas tx; status := status tx;
     retryCount := retryCount tx; timestamp := timestamp tx;
     txHash := txHash tx; blockNumber := blockNumber tx; gasUsed := gasUsed tx |}.

Definition set_gasPrice (g : Z) (tx : BatchTransaction) : BatchTransaction :=
  {| id := id tx; transaction := transaction tx; wallet := wallet tx;
     nonce := nonce tx; gasPrice := g; priorityFee := priorityFee tx;
     maxFeePerGas := maxFeePerGas tx; status := status tx;
     retryCount := retryCount tx; timestamp := timestamp tx;
     txHash := txHash tx; blockNumber := blockNumber tx; gasUsed := gasUsed tx |}.

Definition set_priorityFee (p : Z) (tx : BatchTransaction) : BatchTransaction :=
  {| id := id tx; transaction := transaction tx; wallet := wallet tx;
     nonce := nonce tx; gasPrice := gasPrice tx; priorityFee := p;
     maxFeePerGas := maxFeePerGas tx; status := status tx;
     retryCount := retryCount tx; timestamp := timestamp tx;
     txHash := txHash tx; blockNumber := blockNumber tx; gasUsed := gasUsed tx |}.

Definition set_status (s : TxStatus) (tx : BatchTransaction) : BatchTransaction :=
  {| id := id tx; transaction := transaction tx; wallet := wallet tx;
     nonce := nonce tx; gasPrice := gasPrice tx; priorityFee := priorityFee tx;
     maxFeePerGas := maxFeePerGas tx; status := s;
     retryCount := retryCount tx; timestamp := timestamp tx;
     txHash := txHash tx; blockNumber := blockNumber tx; gasUsed := gasUsed tx |}.

Definition set_retryCount (c : Z) (tx : BatchTransaction) : BatchTransaction :=
  {| id := id tx; transaction := transaction tx; wallet := wallet tx;
     nonce := nonce tx; gasPrice := gasPrice tx; priorityFee := priorityFee tx;
     maxFeePerGas := maxFeePerGas tx; status := status tx;
     retryCount := c; timestamp := timestamp tx;
     txHash := txHash tx; blockNumber := blockNumber tx; gasUsed := gasUsed tx |}.

Definition set_txHash (h : option string) (tx : BatchTransaction) : BatchTransaction :=
  {| id := id tx; transaction := transaction tx; wallet := wallet tx;
     nonce := nonce tx; gasPrice := gasPrice tx; priorityFee := priorityFee tx;
     maxFeePerGas := maxFeePerGas tx; status := status tx;
     retryCount := retryCount tx; timestamp := timestamp tx;
     txHash := h; blockNumber := blockNumber tx; gasUsed := gasUsed tx |}.

Definition set_blockNumber (b : option Z) (tx : BatchTransaction) : BatchTransaction :=
  {| id := id tx; transaction := transaction tx; wallet := wallet tx;
     nonce := nonce tx; gasPrice := gasPrice tx; priorityFee := priorityFee tx;
     maxFeePerGas := maxFeePerGas tx; status := status tx;
     retryCount := retryCount tx; timestamp := timestamp tx;
     txHash := txHash tx; blockNumber := b; gasUsed := gasUsed tx |}.

Definition set_gasUsed (g : option Z) (tx : BatchTransaction) : BatchTransaction :=
  {| id := id tx; transaction := transaction tx; wallet := wallet tx;
     nonce := nonce tx; gasPrice := gasPrice tx; priorityFee := priorityFee tx;
     maxFeePerGas := maxFeePerGas tx; status := status tx;
     retryCount := retryCount tx; timestamp := timestamp tx;
     txHash := txHash tx; blockNumber := blockNumber tx; gasUsed := g |}.

Definition set_queue_status (s : BatchStatus) (b : BatchQueue) : BatchQueue :=
  {| queue_id := queue_id b; queue_transactions := queue_transactions b;
     priority := priority b; createdAt := createdAt b; timeout := timeout b;
     queue_status := s |}.

Definition set_batchQueue (q : list BatchQueue) (s : State) : State :=
  {| batchQueue := q; activeBatches := activeBatches s;
     isProcessing := isProcessing s; batchCounter := batchCounter s;
     heap := heap s; sent := sent s; clock := clock s |}.

Definition set_activeBatches (a : gmap string BatchResult) (s : State) : State :=
  {| batchQueue := batchQueue s; activeBatches := a;
     isProcessing := isProcessing s; batchCounter := batchCounter s;
     heap := heap s; sent := sent s; clock := clock s |}.

Definition set_isProcessing (b : bool) (s : State) : State :=
  {| batchQueue := batchQueue s; activeBatches := activeBatches s;
     isProcessing := b; batchCounter := batchCounter s;
     heap := heap s; sent := sent s; clock := clock s |}.

Definition set_batchCounter (c : Z) (s : State) : State :=
  {| batchQueue := batchQueue s; activeBatches := activeBatches s;
     isProcessing := isProcessing s; batchCounter := c;
     heap := heap s; sent := sent s; clock := clock s |}.

Definition set_heap (h : gmap ref BatchTransaction) (s : State) : State :=
  {| batchQueue := batchQueue s; activeBatches := activeBatches s;
     isProcessing := isProcessing s; batchCounter := batchCounter s;
     heap := h; sent := sent s; clock := clock s |}.

Definition set_sent (l : list Submission) (s : State) : State :=
  {| batchQueue := batchQueue s; activeBatches := activeBatches s;
     isProcessing := isProcessing s; batchCounter := batchCounter s;
     heap := heap s; sent := l; clock := clock s |}.

Definition set_clock (c : nat) (s : State) : State :=
  {| batchQueue := batchQueue s; activeBatches := activeBatches s;
     isProcessing := isProcessing s; batchCounter := batchCounter s;
     heap := heap s; sent := sent s; clock := c |}.

(** [tx.field = v] on the object behind a reference. *)
Definition assign (r : ref) (f : BatchTransaction -> BatchTransaction) (s : State) : State :=
  set_heap (alter f r (heap s)) s.

(** [Date.now()] *)
Definition now (env : Environment) (s : State) : Z * State :=
  (Date_now env (clock s), set_clock (S (clock s)) s).

(** [array.slice(i, j)] for [0 <= i <= j]. *)
Definition slice {A} (i j : nat) (l : list A) : list A :=
  take (j - i)%nat (drop i l).

(** *** generateBatchId *)

Definition generateBatchId (env : Environment) (s : State) : string * State :=
  let '(t, s) := now env s in
  let s := set_batchCounter (batchCounter s + 1) s in
  (String.append "batch_"
     (String.append (pretty t) (String.append "_" (pretty (batchCounter s)))), s).

(** *** validateTransactions *)

(** [!x] for an optional string: [null], [undefined] and the empty string. *)
Definition falsy (x : option string) : bool :=
  match x with
  | None => true
  | Some str => if String.eqb str "" then true else false
  end.

(** [x || d] for an optional integer. *)
Definition orElse (x : option Z) (d : Z) : Z :=
  match x with
  | None => d
  | Some v => if v =? 0 then d else v
  end.

(** One iteration of the loop of [validateTransactions]: the store after it
    and whether the transaction was pushed. A reference to nothing is an
    [undefined] element, on which the first property access throws. *)
Definition validateTransaction (env : Environment) (r : ref) (s : State) : bool * State :=
  match heap s !! r with
  | None => (false, s)
  | Some tx =>
      match wallet tx with
      | None => (false, s)
      | Some w =>
          if falsy (to (transaction tx)) then (false, s)
          else
            match getBalance env (address w) with
            | None => (false, s)
            | Some balance =>
                let gasCost := gasPrice tx * orElse (gasLimit (transaction tx)) 200000 in
                if balance <? gasCost + orElse (value (transaction tx)) 0 then (false, s)
                else if nonce tx =? 0 then
                  match getTransactionCount env (address w) with
                  | None => (false, s)
                  | Some n => (true, assign r (set_nonce n) s)
                  end
                else (true, s)
            end
      end
  end.

Fixpoint validateTransactions (env : Environment) (transactions : list ref) (s : State)
  : list ref * State :=
  match transactions with
  | [] => ([], s)
  | r :: rest =>
      let '(ok, s) := validateTransaction env r s in
      let '(validTransactions, s) := validateTransactions env rest s in
      (if ok then r :: validTransactions else validTransactions, s)
  end.

(** *** executeTransaction *)

Record ExecutionResult := {
  exec_success : bool;
  exec_txHash : option string;
  exec_blockNumber : option Z;
  exec_gasUsed : option Z;
  exec_gasPrice : option Z
}.

Definition exec_failure : ExecutionResult :=
  {| exec_success := false; exec_txHash := None; exec_blockNumber := None;
     exec_gasUsed := None; exec_gasPrice := None |}.

(** [executeTransaction]: every exception of its body is caught and turned
    into [{ success: false }]; without a wallet the call of
    [tx.wallet.sendTransaction] is such an exception. *)
Definition executeTransaction (env : Environment) (r : ref) (s : State)
  : ExecutionResult * State :=
  match heap s !! r with
  | None => (exec_failure, s)
  | Some tx =>
      match wallet tx with
      | None => (exec_failure, s)
      | Some _ =>
          let outcome := sendTransaction env (length (sent s)) in
          let s := set_sent (sent s ++ [{| sub_tx := r; sub_nonce := nonce tx;
                                           sub_gasPrice := gasPrice tx;
                                           sub_priorityFee := priorityFee tx;
                                           sub_maxFeePerGas := maxFeePerGas tx |}]) s in
          match outcome with
          | SendRejects => (exec_failure, s)
          | WaitRejects hash =>
              let s := assign r (set_status SENT) s in
              let s := assign r (set_txHash (Some hash)) s in
              (exec_failure, s)
          | Mined hash receipt =>
              let s := assign r (set_status SENT) s in
              let s := assign r (set_txHash (Some hash)) s in
              if receipt_status receipt =? 1 then
                ({| exec_success := true; exec_txHash := Some hash;
                    exec_blockNumber := Some (receipt_blockNumber receipt);
                    exec_gasUsed := Some (receipt_gasUsed receipt);
                    exec_gasPrice := Some (receipt_gasPrice receipt) |}, s)
              else (exec_failure, s)
          end
      end
  end.

(** The assignments of a success branch. *)
Definition confirm (r : ref) (result : ExecutionResult) (s : State) : State :=
  let s := assign r (set_status CONFIRMED) s in
  let s := assign r (set_txHash (exec_txHash result)) s in
  let s := assign r (set_blockNumber (exec_blockNumber result)) s in
  assign r (set_gasUsed (exec_gasUsed result)) s.

(** *** retryTransaction *)

(** The handler of [retryTransaction] sets FAILED whatever threw; the two
    [BigInt(Math.floor(...))] are the places that can (on an infinite or
    undefined product). *)
Definition retryTransaction (cfg : BatchProcessorConfig) (env : Environment)
    (r : ref) (s : State) : State :=
  match heap s !! r with
  | None => s
  | Some tx =>
      let s := assign r (set_retryCount (retryCount tx + 1)) s in
      let s := assign r (set_status RETRY) s in
      match BigInt_floor (mul (ofBigInt (gasPrice tx)) (gasPriceIncrement cfg)) with
      | None => assign r (set_status FAILED) s
      | Some g =>
          let s := assign r (set_gasPrice g) s in
          match BigInt_floor (mul (ofBigInt (priorityFee tx)) (priorityFeeIncrement cfg)) with
          | None => assign r (set_status FAILED) s
          | Some p =>
              let s := assign r (set_priorityFee p) s in
              let '(result, s) := executeTransaction env r s in
              if exec_success result then confirm r result s
              else assign r (set_status FAILED) s
          end
      end
  end.

(** *** processTransactionBatch *)

Record Counts := {
  c_successfulTxs : nat;
  c_failedTxs : nat;
  c_totalGasUsed : Z;
  c_totalGasPrice : Z
}.

Definition noCounts : Counts :=
  {| c_successfulTxs := 0; c_failedTxs := 0; c_totalGasUsed := 0; c_totalGasPrice := 0 |}.

Definition addCounts (a b : Counts) : Counts :=
  {| c_successfulTxs := c_successfulTxs a + c_successfulTxs b;
     c_failedTxs := c_failedTxs a + c_failedTxs b;
     c_totalGasUsed := c_totalGasUsed a + c_totalGasUsed b;
     c_totalGasPrice := c_totalGasPrice a + c_totalGasPrice b |}.

(** The task of one transaction (the callback given to [map]). *)
Definition processTransaction (cfg : BatchProcessorConfig) (env : Environment)
    (r : ref) (acc : Counts) (s : State) : Counts * State :=
  let '(result, s) := executeTransaction env r s in
  if exec_success result then
    let acc := {| c_successfulTxs := c_successfulTxs acc + 1;
                  c_failedTxs := c_failedTxs acc;
                  c_totalGasUsed := c_totalGasUsed acc + orElse (exec_gasUsed result) 0;
                  c_totalGasPrice := c_totalGasPrice acc + orElse (exec_gasPrice result) 0 |} in
    (acc, confirm r result s)
  else
    let acc := {| c_successfulTxs := c_successfulTxs acc;
                  c_failedTxs := c_failedTxs acc + 1;
                  c_totalGasUsed := c_totalGasUsed acc;
                  c_totalGasPrice := c_totalGasPrice acc |} in
    let s := assign r (set_status FAILED) s in
    match heap s !! r with
    | Some tx =>
        if retryCount tx <? retryAttempts cfg
        then (acc, retryTransaction cfg env r s)
        else (acc, s)
    | None => (acc, s)
    end.

(** The tasks of a batch run concurrently. Each task is sequential and the
    tasks of different transactions write to different objects and add to
    the same counters, so the tasks are run here one after the other, in the
    order of the array; [sendTransaction] numbers its calls in that order. *)
Fixpoint processTransactionBatch (cfg : BatchProcessorConfig) (env : Environment)
    (transactions : list ref) (acc : Counts) (s : State) : Counts * State :=
  match transactions with
  | [] => (acc, s)
  | r :: rest =>
      let '(acc, s) := processTransaction cfg env r acc s in
      processTransactionBatch cfg env rest acc s
  end.

(** *** processTransactionsInBatches *)

(** An element of the array [Promise.allSettled] resolves to. *)
Inductive PromiseSettledResult :=
| fulfilled (value : Counts)
| rejected.

(** How a batch of a group is run, as the loop of
    [processTransactionsInBatches] sees it: a function to a settled
    promise. The processor runs [processTransactionBatch], whose promise is
    always fulfilled. *)
Definition BatchRunner := list ref -> State -> PromiseSettledResult * State.

Definition runProcessTransactionBatch (cfg : BatchProcessorConfig) (env : Environment)
  : BatchRunner :=
  fun batch s =>
    let '(c, s) := processTransactionBatch cfg env batch noCounts s in
    (fulfilled c, s).

(** The inner loop [for (j = 0; j < batchGroup.length; j += batchSize)]. It
    is entered with a non-empty group only when [batchSize] is positive, so
    [length batchGroup] iterations are enough. *)
Fixpoint batchesFrom (fuel : nat) (batchSize : nat) (j : nat) (batchGroup : list ref)
  : list (list ref) :=
  match fuel with
  | O => []
  | S fuel =>
      if (j <? length batchGroup)%nat
      then slice j (j + batchSize) batchGroup
             :: batchesFrom fuel batchSize (j + batchSize)%nat batchGroup
      else []
  end.

Definition batchesOf (batchSize : nat) (batchGroup : list ref) : list (list ref) :=
  batchesFrom (length batchGroup) batchSize 0 batchGroup.

Fixpoint runBatches (run : BatchRunner) (batches : list (list ref)) (s : State)
  : list PromiseSettledResult * State :=
  match batches with
  | [] => ([], s)
  | batch :: rest =>
      let '(result, s) := run batch s in
      let '(results, s) := runBatches run rest s in
      (result :: results, s)
  end.

(** The body of [for (const result of results)]. *)
Definition addResult (batchSize : nat) (acc : Counts) (result : PromiseSettledResult)
  : Counts :=
  match result with
  | fulfilled value => addCounts acc value
  | rejected =>
      {| c_successfulTxs := c_successfulTxs acc;
         c_failedTxs := c_failedTxs acc + batchSize;
         c_totalGasUsed := c_totalGasUsed acc;
         c_totalGasPrice := c_totalGasPrice acc |}
  end.

(** The outer loop [for (i = 0; i < transactions.length;
    i += batchSize * parallelBatches)]; with a step of zero it never ends,
    which is [None] for every [fuel]. *)
Fixpoint groupsFrom (fuel : nat) (cfg : BatchProcessorConfig) (run : BatchRunner)
    (transactions : list ref) (i : nat) (acc : Counts) (s : State)
  : option (Counts * State) :=
  match fuel with
  | O => None
  | S fuel =>
      let batchSize := maxBatchSize cfg in
      let step := (batchSize * parallelBatches cfg)%nat in
      if (i <? length transactions)%nat then
        let batchGroup := slice i (i + step) transactions in
        let '(results, s) := runBatches run (batchesOf batchSize batchGroup) s in
        let acc := fold_left (addResult batchSize) results acc in
        groupsFrom fuel cfg run transactions (i + step)%nat acc s
      else Some (acc, s)
  end.

Definition processTransactionsInBatches (fuel : nat) (cfg : BatchProcessorConfig)
    (run : BatchRunner) (transactions : list ref) (s : State)
  : option (Counts * State) :=
  groupsFrom fuel cfg run transactions 0 noCounts s.

(** *** processBatch *)

(** How an asynchronous call ends. *)
Inductive Completion (A : Type) :=
| Returned (a : A)
| Thrown (message : string).
Arguments Returned {A} a.
Arguments Thrown {A} message.

Definition processBatchWith (fuel : nat) (cfg : BatchProcessorConfig)
    (env : Environment) (run : BatchRunner) (transactions : list ref) (s : State)
  : option (Completion BatchResult * State) :=
  let '(batchId, s) := generateBatchId env s in
  let '(startTime, s) := now env s in
  let '(validTransactions, s) := validateTransactions env transactions s in
  if (length validTransactions =? 0)%nat
  then Some (Thrown "No valid transactions in batch", s)
  else
    match processTransactionsInBatches fuel cfg run validTransactions s with
    | None => None
    | Some (results, s) =>
        let '(endTime, s) := now env s in
        let batchResult := {|
          batchId := batchId;
          transactions := validTransactions;
          successfulTxs := c_successfulTxs results;
          failedTxs := c_failedTxs results;
          totalGasUsed := c_totalGasUsed results;
          totalGasPrice := c_totalGasPrice results;
          executionTime := endTime - startTime;
          success := (0 <? c_successfulTxs results)%nat |} in
        let s := set_activeBatches (<[batchId := batchResult]> (activeBatches s)) s in
        Some (Returned batchResult, s)
    end.

Definition processBatch (fuel : nat) (cfg : BatchProcessorConfig)
    (env : Environment) (transactions : list ref) (s : State)
  : option (Completion BatchResult * State) :=
  processBatchWith fuel cfg env (runProcessTransactionBatch cfg env) transactions s.

(** *** The queue *)

Definition priorityOrder (p : Priority) : Z :=
  match p with
  | CRITICAL => 4
  | HIGH => 3
  | MEDIUM => 2
  | LOW => 1
  end.

(** The comparator of [sortBatchQueue]. *)
Definition compareBatches (a b : BatchQueue) : Z :=
  let aPriority := priorityOrder (priority a) in
  let bPriority := priorityOrder (priority b) in
  if negb (aPriority =? bPriority) then bPriority - aPriority
  else createdAt a - createdAt b.

(** [Array.prototype.sort(compare)] is a stable sort: it is embedded as the
    insertion sort that puts an element after the elements it does not
    precede. *)
Fixpoint sort_insert {A} (compare : A -> A -> Z) (x : A) (sorted : list A) : list A :=
  match sorted with
  | [] => [x]
  | y :: rest =>
      if compare x y <? 0 then x :: y :: rest
      else y :: sort_insert compare x rest
  end.

Definition Array_sort {A} (compare : A -> A -> Z) (l : list A) : list A :=
  fold_left (fun sorted x => sort_insert compare x sorted) l [].

Definition sortBatchQueue (s : State) : State :=
  set_batchQueue (Array_sort compareBatches (batchQueue s)) s.

(** [startBatchProcessing] arms the timer whose ticks call
    [processBatchQueue]. *)
Definition startBatchProcessing (s : State) : State :=
  if isProcessing s then s else set_isProcessing true s.

Definition queueBatch (cfg : BatchProcessorConfig) (env : Environment)
    (transactions : list ref) (priority : Priority) (s : State) : string * State :=
  let '(batchId, s) := generateBatchId env s in
  let '(t, s) := now env s in
  let timeout := t + batchTimeout cfg in
  let '(createdAt, s) := now env s in
  let batch := {| queue_id := batchId; queue_transactions := transactions;
                  priority := priority; createdAt := createdAt;
                  timeout := timeout; queue_status := QUEUED |} in
  let s := set_batchQueue (batchQueue s ++ [batch]) s in
  let s := sortBatchQueue s in
  let s := if negb (isProcessing s) then startBatchProcessing s else s in
  (batchId, s).

(** One tick of the timer. The result is the batch that was taken off the
    queue, as the tick leaves it, if there was one. *)
Definition processBatchQueue (fuel : nat) (cfg : BatchProcessorConfig)
    (env : Environment) (s : State) : option (option BatchQueue * State) :=
  match batchQueue s with
  | [] => Some (None, s)
  | batch :: rest =>
      let s := set_batchQueue rest s in
      let '(t, s) := now env s in
      if t >? timeout batch then Some (Some (set_queue_status TIMEOUT batch), s)
      else
        let batch := set_queue_status PROCESSING batch in
        match processBatch fuel cfg env (queue_transactions batch) s with
        | None => None
        | Some (Returned result, s) =>
            Some (Some (set_queue_status
                          (if success result then COMPLETED else BATCH_FAILED) batch), s)
        | Some (Thrown _, s) => Some (Some (set_queue_status BATCH_FAILED batch), s)
        end
  end.

(** The timer of [startBatchProcessing] fires [n] times. The result holds
    the batches that the ticks took off the queue, in the order in which
    they were taken. A tick takes its batch before anything else, so a tick
    that fires while an earlier one is still waiting takes the next batch
    of the queue just the same; the ticks are run one after the other. *)
Fixpoint ticks (n fuel : nat) (cfg : BatchProcessorConfig) (env : Environment)
    (s : State) : option (list BatchQueue * State) :=
  match n with
  | O => Some ([], s)
  | S n =>
      match processBatchQueue fuel cfg env s with
      | None => None
      | Some (taken, s) =>
          match ticks n fuel cfg env s with
          | None => None
          | Some (served, s) =>
              Some (match taken with
                    | Some batch => batch :: served
                    | None => served
                    end, s)
          end
      end
  end.

(** *** Inspection and control *)

Record ProcessorStatus := {
  status_isProcessing : bool;
  queueLength : nat;
  status_activeBatches : nat;
  totalBatches : Z
}.

Definition getStatus (s : State) : ProcessorStatus :=
  {| status_isProcessing := isProcessing s;
     queueLength := length (batchQueue s);
     status_activeBatches := size (activeBatches s);
     totalBatches := batchCounter s |}.

(** [stopProcessing] lowers the flag; the timer that
    [startBatchProcessing] armed keeps ticking. *)
Definition stopProcessing (s : State) : State := set_isProcessing false s.

End BatchProcessor.

(** ** FourMemeBundler: the execution of a launch bundle *)

Module FourMemeBundler.
Import JSNumber.

Inductive BundleStatus := PENDING | LAUNCHING | BUYING | COMPLETED | FAILED.

Record TransactionRequest := {
  to : option string;
  value : Z;
  gasLimit : Z;
  gasPrice : Z;
  data : string
}.

Record WalletConfig := {
  address : string;
  privateKey : string;
  balance : Z;
  nonce : Z;
  buyAmount : Z;
  wallet_gasPrice : Z;
  priorityFee : Z
}.

Record LaunchBundle := {
  id : string;
  launchTx : TransactionRequest;
  buyTxs : list TransactionRequest;
  wallets : list WalletConfig;
  tokenAddress : option string;
  status : BundleStatus;
  launchTxHash : option string;
  buyTxHashes : list string;
  totalGasUsed : Z;
  totalProfit : number;
  timestamp : Z;
  blockNumber : option Z
}.

Record BundleResult := {
  bundleId : string;
  success : bool;
  launchSuccess : bool;
  buySuccess : bool;
  totalBuys : nat;
  successfulBuys : nat;
  failedBuys : nat;
  result_totalGasUsed : Z;
  totalGasPrice : Z;
  result_totalProfit : number;
  error : option string;
  result_launchTxHash : option string;
  result_buyTxHashes : list string;
  result_blockNumber : option Z;
  executionTime : Z
}.

Record Receipt := {
  receipt_status : Z;
  receipt_blockNumber : Z;
  receipt_gasUsed : Z;
  receipt_gasPrice : Z
}.

(** How a submission ends, as for the batch processor. *)
Inductive SendOutcome :=
| SendRejects
| WaitRejects (hash : string)
| Mined (hash : string) (receipt : Receipt).

(** The collaborators of one execution: the clock, the MEV protection
    ([None] when it rejects), the outcome of the launch transaction, whether
    [new ethers.Wallet] accepts a private key, and the outcome of the buy
    transaction at each index. *)
Record Environment := {
  Date_now : nat -> Z;
  protectTransaction : TransactionRequest -> option TransactionRequest;
  launchOutcome : SendOutcome;
  validKey : string -> bool;
  buyOutcome : nat -> SendOutcome
}.

(** What the execution does that can be observed from outside, in order. *)
Inductive Event :=
| StatusSet (bundle : string) (s : BundleStatus)
| LaunchSubmitted (tx : TransactionRequest)
| LaunchReceipt (receipt_status : Z)
| BuySubmitted (index : nat) (tx : TransactionRequest)
| BundleExecuted (result : BundleResult).

Record State := {
  activeBundles : gmap string LaunchBundle;
  bundleResults : gmap string BundleResult;
  trace : list Event;
  clock : nat
}.

Definition set_status (st : BundleStatus) (b : LaunchBundle) : LaunchBundle :=
  {| id := id b; launchTx := launchTx b; buyTxs := buyTxs b; wallets := wallets b;
     tokenAddress := tokenAddress b; status := st; launchTxHash := launchTxHash b;
     buyTxHashes := buyTxHashes b; totalGasUsed := totalGasUsed b;
     totalProfit := totalProfit b; timestamp := timestamp b;
     blockNumber := blockNumber b |}.

Definition set_launched (hash : option string) (block : option Z) (b : LaunchBundle)
  : LaunchBundle :=
  {| id := id b; launchTx := launchTx b; buyTxs := buyTxs b; wallets := wallets b;
     tokenAddress := tokenAddress b; status := status b; launchTxHash := hash;
     buyTxHashes := buyTxHashes b; totalGasUsed := totalGasUsed b;
     totalProfit := totalProfit b; timestamp := timestamp b;
     blockNumber := block |}.

Definition emit (e : Event) (s : State) : State :=
  {| activeBundles := activeBundles s; bundleResults := bundleResults s;
     trace := trace s ++ [e]; clock := clock s |}.

Definition now (env : Environment) (s : State) : Z * State :=
  (Date_now env (clock s),
   {| activeBundles := activeBundles s; bundleResults := bundleResults s;
      trace := trace s; clock := S (clock s) |}).

(** [bundle.status = st] on the bundle stored under [bundleId]. *)
Definition assignStatus (bundleId : string) (st : BundleStatus) (s : State) : State :=
  emit (StatusSet bundleId st)
    {| activeBundles := alter (set_status st) bundleId (activeBundles s);
       bundleResults := bundleResults s; trace := trace s; clock := clock s |}.

Definition assignLaunched (bundleId : string) (hash : option string) (block : option Z)
    (s : State) : State :=
  {| activeBundles := alter (set_launched hash block) bundleId (activeBundles s);
     bundleResults := bundleResults s; trace := trace s; clock := clock s |}.

Definition storeResult (bundleId : string) (result : BundleResult) (s : State) : State :=
  {| activeBundles := activeBundles s;
     bundleResults := <[bundleId := result]> (bundleResults s);
     trace := trace s; clock := clock s |}.

Record LaunchResult := {
  launch_success : bool;
  launch_txHash : option string;
  launch_blockNumber : option Z;
  launch_gasUsed : Z;
  launch_gasPrice : Z
}.

Definition launch_failure : LaunchResult :=
  {| launch_success := false; launch_txHash := None; launch_blockNumber := None;
     launch_gasUsed := 0; launch_gasPrice := 0 |}.

(** [executeLaunchTransaction]: every exception is turned into
    [{ success: false }]. *)
Definition executeLaunchTransaction (env : Environment) (bundle : LaunchBundle)
    (s : State) : LaunchResult * State :=
  match protectTransaction env (launchTx bundle) with
  | None => (launch_failure, s)
  | Some protectedTx =>
      let s := emit (LaunchSubmitted protectedTx) s in
      match launchOutcome env with
      | SendRejects => (launch_failure, s)
      | WaitRejects _ => (launch_failure, s)
      | Mined hash receipt =>
          let s := emit (LaunchReceipt (receipt_status receipt)) s in
          if receipt_status receipt =? 1 then
            ({| launch_success := true; launch_txHash := Some hash;
                launch_blockNumber := Some (receipt_blockNumber receipt);
                launch_gasUsed := receipt_gasUsed receipt;
                launch_gasPrice := receipt_gasPrice receipt |}, s)
          else (launch_failure, s)
      end
  end.

Record BuyResult := {
  buy_success : bool;
  buy_successfulBuys : nat;
  buy_failedBuys : nat;
  buy_totalGasUsed : Z;
  buy_totalGasPrice : Z;
  buy_totalProfit : number;
  buy_txHashes : list string
}.

Definition noBuys : BuyResult :=
  {| buy_success := false; buy_successfulBuys := 0; buy_failedBuys := 0;
     buy_totalGasUsed := 0; buy_totalGasPrice := 0;
     buy_totalProfit := ofBigInt 0; buy_txHashes := [] |}.

Definition buyFailed (acc : BuyResult) (hashes : list string) : BuyResult :=
  {| buy_success := buy_success acc; buy_successfulBuys := buy_successfulBuys acc;
     buy_failedBuys := buy_failedBuys acc + 1;
     buy_totalGasUsed := buy_totalGasUsed acc;
     buy_totalGasPrice := buy_totalGasPrice acc;
     buy_totalProfit := buy_totalProfit acc; buy_txHashes := hashes |}.

(** The task of the buy transaction at position [index] of the bundle.
    After a confirmed buy has been counted, [formatEther(wallet.buyAmount)]
    may throw: the handler of the task then counts the buy as failed as
    well, and leaves the profit as it is. *)
Definition executeBuyTransaction (env : Environment) (bundle : LaunchBundle)
    (index : nat) (buyTx : TransactionRequest) (acc : BuyResult) (s : State)
  : BuyResult * State :=
  match wallets bundle !! index with
  | None => (buyFailed acc (buy_txHashes acc), s)
  | Some wallet =>
      if negb (validKey env (privateKey wallet)) then (buyFailed acc (buy_txHashes acc), s)
      else
        match protectTransaction env buyTx with
        | None => (buyFailed acc (buy_txHashes acc), s)
        | Some protectedTx =>
            let s := emit (BuySubmitted index protectedTx) s in
            match buyOutcome env index with
            | SendRejects => (buyFailed acc (buy_txHashes acc), s)
            | WaitRejects hash => (buyFailed acc (buy_txHashes acc ++ [hash]), s)
            | Mined hash receipt =>
                if receipt_status receipt =? 1 then
                  let acc :=
                    {| buy_success := buy_success acc;
                       buy_successfulBuys := buy_successfulBuys acc + 1;
                       buy_failedBuys := buy_failedBuys acc;
                       buy_totalGasUsed := buy_totalGasUsed acc + receipt_gasUsed receipt;
                       buy_totalGasPrice :=
                         buy_totalGasPrice acc + receipt_gasPrice receipt;
                       buy_totalProfit := buy_totalProfit acc;
                       buy_txHashes := buy_txHashes acc ++ [hash] |} in
                  match Ethers.Number_formatUnits (buyAmount wallet) (10 ^ 18) with
                  | Some amount =>
                      ({| buy_success := buy_success acc;
                          buy_successfulBuys := buy_successfulBuys acc;
                          buy_failedBuys := buy_failedBuys acc;
                          buy_totalGasUsed := buy_totalGasUsed acc;
                          buy_totalGasPrice := buy_totalGasPrice acc;
                          buy_totalProfit :=
                            add (buy_totalProfit acc) (mul amount (lit 1 10));
                          buy_txHashes := buy_txHashes acc |}, s)
                  | None => (buyFailed acc (buy_txHashes acc), s)
                  end
                else (buyFailed acc (buy_txHashes acc ++ [hash]), s)
            end
        end
  end.

(** The tasks of the buy transactions from position [index] on, one after
    the other in the order of the array (the batches of ten only pace
    them). *)
Fixpoint executeBuysFrom (env : Environment) (bundle : LaunchBundle) (index : nat)
    (txs : list TransactionRequest) (acc : BuyResult) (s : State) : BuyResult * State :=
  match txs with
  | [] => (acc, s)
  | buyTx :: rest =>
      let '(acc, s) := executeBuyTransaction env bundle index buyTx acc s in
      executeBuysFrom env bundle (S index) rest acc s
  end.

Definition executeBuyTransactions (env : Environment) (bundle : LaunchBundle) (s : State)
  : BuyResult * State :=
  let '(acc, s) := executeBuysFrom env bundle 0 (buyTxs bundle) noBuys s in
  ({| buy_success := (0 <? buy_successfulBuys acc)%nat;
      buy_successfulBuys := buy_successfulBuys acc;
      buy_failedBuys := buy_failedBuys acc;
      buy_totalGasUsed := buy_totalGasUsed acc;
      buy_totalGasPrice := buy_totalGasPrice acc;
      buy_totalProfit := buy_totalProfit acc;
      buy_txHashes := buy_txHashes acc |}, s).

Definition createFailedResult (bundleId : string) (error : string) (executionTime : Z)
  : BundleResult :=
  {| bundleId := bundleId; success := false; launchSuccess := false;
     buySuccess := false; totalBuys := 0; successfulBuys := 0; failedBuys := 0;
     result_totalGasUsed := 0; totalGasPrice := 0; result_totalProfit := ofBigInt 0;
     error := Some error; result_launchTxHash := None; result_buyTxHashes := [];
     result_blockNumber := None; executionTime := executionTime |}.

Definition executeLaunchBundle (env : Environment) (bundleId : string) (s : State)
  : BundleResult * State :=
  match activeBundles s !! bundleId with
  | None =>
      let bundleResult :=
        createFailedResult bundleId
          (String.append "Bundle " (String.append bundleId " not found")) 0 in
      (bundleResult, storeResult bundleId bundleResult s)
  | Some bundle =>
      let '(startTime, s) := now env s in
      let s := assignStatus bundleId LAUNCHING s in
      let '(launchResult, s) := executeLaunchTransaction env bundle s in
      if negb (launch_success launchResult) then
        let s := assignStatus bundleId FAILED s in
        let '(endTime, s) := now env s in
        (createFailedResult bundleId "Launch transaction failed" (endTime - startTime), s)
      else
        let s := assignStatus bundleId BUYING s in
        let s := assignLaunched bundleId (launch_txHash launchResult)
                   (launch_blockNumber launchResult) s in
        let '(buyResult, s) := executeBuyTransactions env bundle s in
        let '(endTime, s) := now env s in
        let bundleResult := {|
          bundleId := bundleId;
          success := launch_success launchResult && buy_success buyResult;
          launchSuccess := launch_success launchResult;
          buySuccess := buy_success buyResult;
          totalBuys := length (buyTxs bundle);
          successfulBuys := buy_successfulBuys buyResult;
          failedBuys := buy_failedBuys buyResult;
          result_totalGasUsed := launch_gasUsed launchResult + buy_totalGasUsed buyResult;
          totalGasPrice := launch_gasPrice launchResult + buy_totalGasPrice buyResult;
          result_totalProfit := buy_totalProfit buyResult;
          error := None;
          result_launchTxHash := launch_txHash launchResult;
          result_buyTxHashes := buy_txHashes buyResult;
          result_blockNumber := launch_blockNumber launchResult;
          executionTime := endTime - startTime |} in
        let s := storeResult bundleId bundleResult s in
        let s := assignStatus bundleId (if success bundleResult then COMPLETED else FAILED) s in
        let s := emit (BundleExecuted bundleResult) s in
        (bundleResult, s)
  end.

End FourMemeBundler.

(** ** MEVProtection: the protection of a transaction and of a bundle *)

Module MEVProtection.
Import JSNumber.

Record MEVProtectionConfig := {
  enabled : bool;
  privateMempool : bool;
  protectionDelay : Z;
  maxSlippage : number;
  antiFrontrunEnabled : bool;
  antiSandwichEnabled : bool;
  gasPriceBuffer : number;
  priorityFeeBuffer : number
}.

(** The defaults of [loadMEVConfig]. *)
Definition defaultMEVConfig : MEVProtectionConfig := {|
  enabled := true;
  privateMempool := true;
  protectionDelay := 100;
  maxSlippage := lit 5 100;
  antiFrontrunEnabled := true;
  antiSandwichEnabled := true;
  gasPriceBuffer := lit 11 10;
  priorityFeeBuffer := lit 12 10
|}.

Inductive RiskLevel := LOW | MEDIUM | HIGH | CRITICAL.

Inductive ProtectionLevel :=
  PROTECTION_LOW | PROTECTION_MEDIUM | PROTECTION_HIGH | MAXIMUM.

(** The fields of an [ethers.TransactionRequest] that the protection reads
    or writes, and the gas limit as one of those it carries along. *)
Record TransactionRequest := {
  to : option string;
  from : option string;
  value : option Z;
  gasLimit : option Z;
  gasPrice : option Z;
  maxFeePerGas : option Z;
  maxPriorityFeePerGas : option Z;
  data : option string
}.

Record MEVAnalysis := {
  riskLevel : RiskLevel;
  frontrunRisk : number;
  sandwichRisk : number;
  arbitrageRisk : number;
  protectionMethods : list string;
  recommendedGasPrice : Z;
  recommendedPriorityFee : Z
}.

Record ProtectedTransaction := {
  transaction : TransactionRequest;
  protectionLevel : ProtectionLevel;
  protected_protectionMethods : list string;
  estimatedGasPrice : Z;
  priorityFee : Z;
  protected_maxFeePerGas : Z;
  nonce : Z;
  timestamp : Z
}.

(** The collaborators during the protection of one transaction: the reading
    of [Date.now()], the provider's answers ([None] when the call rejects),
    the fee data being read up to three times: by [analyzeMEVRisk] (reading
    0), by [getRecommendedGasPrice] (reading 1) and by
    [getRecommendedPriorityFee] (reading 2). *)
Record Environment := {
  Date_now : Z;
  getCode : string -> option string;
  getFeeData : nat -> option GasOptimizer.FeeData;
  getTransactionCount : string -> option Z
}.

(** [s.includes(pattern)] *)
Fixpoint includes (s pattern : string) : bool :=
  String.prefix pattern s ||
  match s with
  | EmptyString => false
  | String _ rest => includes rest pattern
  end.

Definition dexPatterns : list string :=
  ["swapExactTokensForTokens"; "swapExactETHForTokens"; "addLiquidity";
   "removeLiquidity"; "swap"].

Definition isDEXInteraction (contractCode : string) : bool :=
  existsb (includes contractCode) dexPatterns.

(** [createBasicProtection] *)
Definition createBasicProtection (env : Environment) (transaction : TransactionRequest)
  : ProtectedTransaction :=
  {| transaction := transaction;
     protectionLevel := PROTECTION_LOW;
     protected_protectionMethods := ["BASIC"];
     estimatedGasPrice := 5 * 1000000000;
     priorityFee := 1 * 1000000000;
     protected_maxFeePerGas := 5 * 1000000000;
     nonce := 0;
     timestamp := Date_now env |}.

(** [getDefaultAnalysis] *)
Definition getDefaultAnalysis : MEVAnalysis :=
  {| riskLevel := LOW;
     frontrunRisk := ofBigInt 0;
     sandwichRisk := ofBigInt 0;
     arbitrageRisk := ofBigInt 0;
     protectionMethods := ["BASIC"];
     recommendedGasPrice := 5 * 1000000000;
     recommendedPriorityFee := 1 * 1000000000 |}.

(** [getRecommendedGasPrice]: 5 gwei when the provider rejects or the
    product is not finite. *)
Definition getRecommendedGasPrice (env : Environment) (riskLevel : RiskLevel) : Z :=
  match getFeeData env 1 with
  | None => 5 * 1000000000
  | Some feeData =>
      let baseGasPrice := GasOptimizer.orZero (GasOptimizer.fee_gasPrice feeData) in
      let multiplier :=
        match riskLevel with
        | CRITICAL => lit 15 10
        | HIGH => lit 13 10
        | MEDIUM => lit 11 10
        | LOW => ofBigInt 1
        end in
      match BigInt_floor (mul (ofBigInt baseGasPrice) multiplier) with
      | Some price => price
      | None => 5 * 1000000000
      end
  end.

(** [getRecommendedPriorityFee]: 1 gwei when the provider rejects or the
    product is not finite. *)
Definition getRecommendedPriorityFee (env : Environment) (riskLevel : RiskLevel) : Z :=
  match getFeeData env 2 with
  | None => 1 * 1000000000
  | Some feeData =>
      let basePriorityFee :=
        GasOptimizer.orZero (GasOptimizer.fee_maxPriorityFeePerGas feeData) in
      let multiplier :=
        match riskLevel with
        | CRITICAL => ofBigInt 2
        | HIGH => lit 15 10
        | MEDIUM => lit 12 10
        | LOW => ofBigInt 1
        end in
      match BigInt_floor (mul (ofBigInt basePriorityFee) multiplier) with
      | Some fee => fee
      | None => 1 * 1000000000
      end
  end.

(** [x] for an optional string used as a condition. *)
Definition truthy (x : option string) : option string :=
  match x with
  | Some str => if String.eqb str "" then None else Some str
  | None => None
  end.

(** [x && x > bound] for an optional bigint. *)
Definition above (x : option Z) (bound : Z) : bool :=
  match x with
  | Some v => negb (v =? 0) && (v >? bound)
  | None => false
  end.

(** [x && x < bound] for an optional bigint. *)
Definition below (x : option Z) (bound : Z) : bool :=
  match x with
  | Some v => negb (v =? 0) && (v <? bound)
  | None => false
  end.

(** The three risks and the methods after the checks of [analyzeMEVRisk]. *)
Definition assessRisks (dex highValue lowGasPrice : bool)
  : number * number * number * list string :=
  let frontrunRisk := ofBigInt 0 in
  let sandwichRisk := ofBigInt 0 in
  let arbitrageRisk := ofBigInt 0 in
  let protectionMethods : list string := [] in
  let '(frontrunRisk, sandwichRisk, arbitrageRisk, protectionMethods) :=
    if dex
    then (add frontrunRisk (lit 3 10), add sandwichRisk (lit 4 10),
          add arbitrageRisk (lit 2 10), protectionMethods ++ ["DEX_PROTECTION"])
    else (frontrunRisk, sandwichRisk, arbitrageRisk, protectionMethods) in
  let '(frontrunRisk, protectionMethods) :=
    if highValue
    then (add frontrunRisk (lit 2 10), protectionMethods ++ ["HIGH_VALUE_PROTECTION"])
    else (frontrunRisk, protectionMethods) in
  let '(frontrunRisk, protectionMethods) :=
    if lowGasPrice
    then (add frontrunRisk (lit 3 10), protectionMethods ++ ["GAS_PRICE_PROTECTION"])
    else (frontrunRisk, protectionMethods) in
  (frontrunRisk, sandwichRisk, arbitrageRisk, protectionMethods).

(** The overall level of [analyzeMEVRisk]. *)
Definition levelOf (totalRisk : number) : RiskLevel :=
  if gt totalRisk (lit 7 10) then CRITICAL
  else if gt totalRisk (lit 5 10) then HIGH
  else if gt totalRisk (lit 3 10) then MEDIUM
  else LOW.

(** The [try] block of [analyzeMEVRisk]: it throws when [getCode] or the
    first [getFeeData] rejects. [null < bigint] compares with 0. *)
Definition analyzeMEVRisk_try (env : Environment) (transaction : TransactionRequest)
  : option MEVAnalysis :=
  dex ← match truthy (to transaction) with
        | Some address => contractCode ← getCode env address;
                          Some (isDEXInteraction contractCode)
        | None => Some false
        end;
  let highValue := above (value transaction) (10 ^ 18) in
  currentGasPrice ← getFeeData env 0;
  let lowGasPrice :=
    below (gasPrice transaction)
          (GasOptimizer.orZero (GasOptimizer.fee_gasPrice currentGasPrice)) in
  let '(frontrunRisk, sandwichRisk, arbitrageRisk, protectionMethods) :=
    assessRisks dex highValue lowGasPrice in
  let totalRisk := add (add frontrunRisk sandwichRisk) arbitrageRisk in
  let riskLevel := levelOf totalRisk in
  Some {| riskLevel := riskLevel;
          frontrunRisk := frontrunRisk;
          sandwichRisk := sandwichRisk;
          arbitrageRisk := arbitrageRisk;
          protectionMethods := protectionMethods;
          recommendedGasPrice := getRecommendedGasPrice env riskLevel;
          recommendedPriorityFee := getRecommendedPriorityFee env riskLevel |}.

Definition analyzeMEVRisk (env : Environment) (transaction : TransactionRequest)
  : MEVAnalysis :=
  match analyzeMEVRisk_try env transaction with
  | Some analysis => analysis
  | None => getDefaultAnalysis
  end.

Definition getProtectionLevel (riskLevel : RiskLevel) : ProtectionLevel :=
  match riskLevel with
  | CRITICAL => MAXIMUM
  | HIGH => PROTECTION_HIGH
  | MEDIUM => PROTECTION_MEDIUM
  | LOW => PROTECTION_LOW
  end.

(** [x || ''] *)
Definition orEmpty (x : option string) : string :=
  match x with
  | Some str => str
  | None => ""
  end.

(** [applyProtection]: it works on a copy of the request; when the nonce
    cannot be read the request is returned as it came. *)
Definition applyProtection (cfg : MEVProtectionConfig) (env : Environment)
    (transaction : TransactionRequest) (analysis : MEVAnalysis) : ProtectedTransaction :=
  let protectedTransaction := transaction in
  let protectionMethods := protectionMethods analysis in
  let critical := match riskLevel analysis with CRITICAL => true | _ => false end in
  let high := match riskLevel analysis with HIGH => true | _ => false end in
  let '(protectedTransaction, protectionMethods) :=
    if high || critical
    then ({| to := to protectedTransaction;
             from := from protectedTransaction;
             value := value protectedTransaction;
             gasLimit := gasLimit protectedTransaction;
             gasPrice := Some (recommendedGasPrice analysis);
             maxFeePerGas := Some (recommendedGasPrice analysis);
             maxPriorityFeePerGas := Some (recommendedPriorityFee analysis);
             data := data protectedTransaction |},
          protectionMethods ++ ["GAS_PRICE_BUFFER"])
    else (protectedTransaction, protectionMethods) in
  let protectionMethods :=
    if gt (sandwichRisk analysis) (lit 3 10)
    then protectionMethods ++ ["SLIPPAGE_PROTECTION"] else protectionMethods in
  let protectionMethods :=
    if gt (frontrunRisk analysis) (lit 3 10)
    then protectionMethods ++ ["TIMING_PROTECTION"] else protectionMethods in
  let protectionMethods :=
    if privateMempool cfg && critical
    then protectionMethods ++ ["PRIVATE_MEMPOOL"] else protectionMethods in
  match getTransactionCount env (orEmpty (from transaction)) with
  | None => createBasicProtection env transaction
  | Some nonce =>
      {| transaction := protectedTransaction;
         protectionLevel := getProtectionLevel (riskLevel analysis);
         protected_protectionMethods := protectionMethods;
         estimatedGasPrice := recommendedGasPrice analysis;
         priorityFee := recommendedPriorityFee analysis;
         protected_maxFeePerGas := recommendedGasPrice analysis;
         nonce := nonce;
         timestamp := Date_now env |}
  end.

(** [protectTransaction]: its own handler is never reached, the two calls
    of its body catch what they throw. *)
Definition protectTransaction (cfg : MEVProtectionConfig) (env : Environment)
    (transaction : TransactionRequest) : ProtectedTransaction :=
  if negb (enabled cfg) then createBasicProtection env transaction
  else applyProtection cfg env transaction (analyzeMEVRisk env transaction).

(** *** The protection of a bundle

    The requests of a bundle are objects: [createBasicProtection] hands
    back the object it was given, [applyProtection] a copy of it, and
    [applyBundleProtection] writes to the objects of its array. They live
    in a store indexed by references; a lookup outside the store ([None])
    is no behaviour of the program. *)

Abbreviation ref := nat.

Record Store := {
  objects : gmap ref TransactionRequest;
  fresh : ref
}.

(** A new object. *)
Definition new (transaction : TransactionRequest) (σ : Store) : ref * Store :=
  (fresh σ,
   {| objects := <[fresh σ := transaction]> (objects σ); fresh := S (fresh σ) |}).

(** The [transaction] field of what [protectTransaction] answers for the
    object [r]: [r] itself from [createBasicProtection] (protection
    disabled, or the nonce could not be read), and the copy
    [{ ...transaction }] with the fees that [applyProtection] has written
    to it otherwise. *)
Definition protectTransaction_object (cfg : MEVProtectionConfig) (env : Environment)
    (r : ref) (σ : Store) : option (ref * Store) :=
  transaction ← objects σ !! r;
  if negb (enabled cfg) then Some (r, σ)
  else
    match getTransactionCount env (orEmpty (from transaction)) with
    | None => Some (r, σ)
    | Some _ =>
        Some (new (MEVProtection.transaction
                     (applyProtection cfg env transaction
                        (analyzeMEVRisk env transaction))) σ)
    end.

(** The loop of [protectBundle]; the call of [protectTransaction] for the
    [i]-th request meets the collaborators [env i]. *)
Fixpoint protectEach (cfg : MEVProtectionConfig) (env : nat -> Environment) (i : nat)
    (transactions : list ref) (σ : Store) : option (list ref * Store) :=
  match transactions with
  | [] => Some ([], σ)
  | transaction :: rest =>
      '(protectedTx, σ) ← protectTransaction_object cfg (env i) transaction σ;
      '(protectedTransactions, σ) ← protectEach cfg env (S i) rest σ;
      Some (protectedTx :: protectedTransactions, σ)
  end.

(** The comparator of [applyBundleProtection]:
    [Number(bGasPrice - aGasPrice)], as the sort reads it. *)
Definition compareGasPrice (σ : Store) (a b : ref) : Z :=
  match objects σ !! a, objects σ !! b with
  | Some a, Some b =>
      let aGasPrice := GasOptimizer.orZero (gasPrice a) in
      let bGasPrice := GasOptimizer.orZero (gasPrice b) in
      sort_sign (ofBigInt (bGasPrice - aGasPrice))
  | _, _ => 0
  end.

Definition addTimingProtection (data : string) : string := data +:+ "00".

(** [x || '0x'] *)
Definition orHex (x : option string) : string :=
  match truthy x with
  | Some str => str
  | None => "0x"
  end.

(** [tx.data = this.addTimingProtection(tx.data || '0x')] *)
Definition delay (r : ref) (σ : Store) : option Store :=
  tx ← objects σ !! r;
  let tx' :=
    {| to := to tx; from := from tx; value := value tx; gasLimit := gasLimit tx;
       gasPrice := gasPrice tx; maxFeePerGas := maxFeePerGas tx;
       maxPriorityFeePerGas := maxPriorityFeePerGas tx;
       data := Some (addTimingProtection (orHex (data tx))) |} in
  Some {| objects := <[r := tx']> (objects σ); fresh := fresh σ |}.

(** The loop of [applyBundleProtection], from the index [i] on. *)
Fixpoint delayFrom (i : nat) (protectedTransactions : list ref) (σ : Store)
  : option Store :=
  match protectedTransactions with
  | [] => Some σ
  | tx :: rest =>
      σ ← (if (0 <? i)%nat then delay tx σ else Some σ);
      delayFrom (S i) rest σ
  end.

(** [applyBundleProtection]: the array is copied and the copy sorted; with
    gas prices that are bigints nothing in its body throws. *)
Definition applyBundleProtection (transactions : list ref) (σ : Store)
  : option (list ref * Store) :=
  let protectedTransactions :=
    BatchProcessor.Array_sort (compareGasPrice σ) transactions in
  σ ← delayFrom 0 protectedTransactions σ;
  Some (protectedTransactions, σ).

(** [protectBundle]: its handler is never reached, the calls of its body
    catch what they throw. *)
Definition protectBundle (cfg : MEVProtectionConfig) (env : nat -> Environment)
    (transactions : list ref) (σ : Store) : option (list ref * Store) :=
  '(protectedTransactions, σ) ← protectEach cfg env 0 transactions σ;
  applyBundleProtection protectedTransactions σ.

End MEVProtection.

(* ===================================================================== *)
(** * Part II: the vocabulary of the specification, and its scenarios     *)
(* ===================================================================== *)

Module JSNumberSpec.
Import JSNumber.

(** The integer [x] is at most the value [m * 2^e]. *)
Definition at_most (x m e : Z) : Prop :=
  x * 2 ^ Z.max 0 (- e) <= m * 2 ^ Z.max 0 e.

(** The integer [g'] is the product of the integer [g] and the number [x],
    taken exactly (no rounding, no floor). *)
Definition exact_product (g' g : Z) (x : number) : Prop :=
  match x with
  | S754_finite s m e =>
      g' * 2 ^ Z.max 0 (- e) = g * cond_Zopp s (Zpos m) * 2 ^ Z.max 0 e
  | S754_zero _ => g' = 0
  | S754_infinity _ | S754_nan => False
  end.

(** The numbers from [+0] up: zero, the positive finite numbers and
    [+Infinity]. *)
Definition nonnegative (x : number) : bool :=
  match x with
  | S754_zero _ => true
  | S754_finite s _ _ => negb s
  | S754_infinity s => negb s
  | S754_nan => false
  end.

Definition positive_finite (x : number) : bool :=
  match x with
  | S754_finite s _ _ => negb s
  | _ => false
  end.

Definition not_NaN (x : number) : bool :=
  match x with
  | S754_nan => false
  | _ => true
  end.

End JSNumberSpec.

Module GasOptimizerSpec.
Import JSNumber GasOptimizer.

Definition gwei (n : Z) : Z := n * 1000000000.

(** A fee reading with the given gas price. *)
Definition feeOf (gasPrice : Z) : option FeeData :=
  Some {| fee_gasPrice := Some gasPrice;
          fee_maxPriorityFeePerGas := Some 0;
          fee_maxFeePerGas := Some gasPrice |}.

(** The reading of a provider that knows no gas price. *)
Definition nullFee : option FeeData :=
  Some {| fee_gasPrice := None;
          fee_maxPriorityFeePerGas := None;
          fee_maxFeePerGas := None |}.

(** The history after ten refreshes against such a provider. *)
Definition historyOfNullFees : list GasPriceData :=
  Nat.iter 10 (fun history => updateGasPriceHistory defaultGasConfig history nullFee 0) [].

(** A sample with the given gas price. *)
Definition sample (price : Z) : GasPriceData :=
  {| gasPrice := price; priorityFee := 0; maxFeePerGas := price;
     confidence := lit 8 10; networkCongestion := lit 5 10;
     recommendation := LOW; timestamp := 0 |}.

(** A congested history: five samples of 11.4 gwei and five of 4.6 gwei
    have the mean 8 gwei and the deviation 3.4 gwei, and the congestion
    score is 0.85. *)
Definition congestedHistory : list GasPriceData :=
  replicate 5 (sample 11400000000) ++ replicate 5 (sample 4600000000).

(** A configuration whose minimum fee is 4.1 gwei: the product 4.1 * 1e9 is
    the number 4099999999.9999995, which [BigInt] refuses. *)
Definition fractionalMinimum : GasOptimizationConfig := {|
  enabled := true;
  dynamicPricing := true;
  gasPriceBuffer := lit 11 10;
  priorityFeeBuffer := lit 12 10;
  maxGasPrice := ofBigInt 20;
  minGasPrice := lit 41 10;
  gasPriceHistorySize := 100;
  networkCongestionThreshold := lit 6 10;
  validatorTipsEnabled := true;
  validatorTipAmount := 1000000000000000
|}.

(** The mean of the last ten prices, as [getNetworkCongestion] computes
    it. *)
Definition averagePrice (gasPriceHistory : list GasPriceData) : number :=
  let recentPrices := slice_last 10 gasPriceHistory in
  div (fold_left (fun sum data => add sum (ofBigInt (gasPrice data)))
                 recentPrices (ofBigInt 0))
      (ofBigInt (Z.of_nat (length recentPrices))).

End GasOptimizerSpec.

Module BatchProcessorSpec.
Import JSNumber BatchProcessor.

Definition terminal (st : TxStatus) : Prop := st = CONFIRMED \/ st = FAILED.

(** The instance fields that only the queue operations and [processBatch]
    itself write. *)
Definition same_processor (s s' : State) : Prop :=
  batchQueue s' = batchQueue s /\ activeBatches s' = activeBatches s /\
  isProcessing s' = isProcessing s /\ batchCounter s' = batchCounter s /\
  clock s' = clock s.

(** What the execution of a transaction never writes. *)
Definition same_request (tx tx' : BatchTransaction) : Prop :=
  id tx' = id tx /\ transaction tx' = transaction tx /\ wallet tx' = wallet tx /\
  nonce tx' = nonce tx /\ maxFeePerGas tx' = maxFeePerGas tx.

Definition requests_kept (s s' : State) : Prop :=
  forall r, option_Forall2 same_request (heap s !! r) (heap s' !! r).

(** Validation writes nothing but nonces. *)
Definition only_nonces (s s' : State) : Prop :=
  same_processor s s' /\ sent s' = sent s /\
  forall r, option_Forall2
              (fun tx tx' => exists n, tx' = set_nonce n tx)
              (heap s !! r) (heap s' !! r).

(** Validation in the words of the specification: a transaction is dropped
    if it lacks a destination or a signer, or if the balance of the signer
    does not cover [gasPrice * gasLimit + value]; a nonce that is unset is
    read from the provider. A transaction is dropped as well when the
    provider fails to answer one of the two reads. *)
Definition passesValidation (env : Environment) (tx : BatchTransaction) : bool :=
  match wallet tx with
  | None => false
  | Some w =>
      negb (falsy (to (transaction tx))) &&
      match getBalance env (address w) with
      | None => false
      | Some balance =>
          (gasPrice tx * orElse (gasLimit (transaction tx)) 200000
             + orElse (value (transaction tx)) 0 <=? balance)
          && (negb (nonce tx =? 0)
              || bool_decide (is_Some (getTransactionCount env (address w))))
      end
  end.

Definition valid (env : Environment) (s : State) (r : ref) : bool :=
  match heap s !! r with
  | Some tx => passesValidation env tx
  | None => false
  end.

(** A submission that ends with a receipt of status 1. *)
Definition succeeds (outcome : SendOutcome) : bool :=
  match outcome with
  | Mined _ receipt => receipt_status receipt =? 1
  | _ => false
  end.

(** The order of priorities in the words of the specification:
    CRITICAL > HIGH > MEDIUM > LOW. *)
Definition higher (p q : Priority) : Prop :=
  match p, q with
  | CRITICAL, HIGH | CRITICAL, MEDIUM | CRITICAL, LOW => True
  | HIGH, MEDIUM | HIGH, LOW => True
  | MEDIUM, LOW => True
  | _, _ => False
  end.

(** The order of the queue in the words of the specification: priority
    descending, then [createdAt] ascending among equal priorities. *)
Definition queueOrdered (a b : BatchQueue) : Prop :=
  higher (priority a) (priority b) \/
  (priority a = priority b /\ createdAt a <= createdAt b).

(** A batch that a tick has dealt with. *)
Definition decided (st : BatchStatus) : Prop :=
  st = TIMEOUT \/ st = COMPLETED \/ st = BATCH_FAILED.

(** The batch [taken] is the queued batch [queued] after its tick. *)
Definition dispatched (queued taken : BatchQueue) : Prop :=
  exists st, taken = set_queue_status st queued /\ decided st.



(** [x] may stand before [y] for a comparator. *)
Definition precedes {A} (compare : A -> A -> Z) (x y : A) : Prop := compare x y <= 0.

(** *** Scenarios *)

Definition request (destination : option string) : TransactionRequest :=
  {| to := destination; gasLimit := None; value := None; data := "0x" |}.

Definition pendingTx (name : string) (destination : option string) (signer : string)
    (price : Z) : BatchTransaction :=
  {| id := name; transaction := request destination;
     wallet := Some {| address := signer |}; nonce := 0; gasPrice := price;
     priorityFee := 1000000000; maxFeePerGas := 2 * price; status := PENDING;
     retryCount := 0; timestamp := 0; txHash := None; blockNumber := None;
     gasUsed := None |}.

Definition minedReceipt : Receipt :=
  {| receipt_status := 1; receipt_blockNumber := 42;
     receipt_gasUsed := 21000; receipt_gasPrice := 5000000000 |}.

(** A chain on which every submission is mined, the signer ["0xPOOR"] owns
    1000 wei and every other signer one ether. *)
Definition friendlyEnv : Environment :=
  {| Date_now := fun _ => 1700000000000;
     getBalance := fun a => if String.eqb a "0xPOOR" then Some 1000
                            else Some 1000000000000000000;
     getTransactionCount := fun _ => Some 7;
     sendTransaction := fun _ => Mined "0xHASH" minedReceipt |}.

(** The same chain when the first submission is rejected. *)
Definition flakyEnv : Environment :=
  {| Date_now := fun _ => 1700000000000;
     getBalance := fun _ => Some 1000000000000000000;
     getTransactionCount := fun _ => Some 7;
     sendTransaction := fun k => if (k =? 0)%nat then SendRejects
                                 else Mined "0xHASH" minedReceipt |}.

Definition emptyState (objects : gmap ref BatchTransaction) : State :=
  {| batchQueue := []; activeBatches := ∅; isProcessing := false;
     batchCounter := 0; heap := objects; sent := []; clock := 0 |}.

(** Scenario B: three transactions, the second one from a signer that
    cannot pay for the gas. *)
Definition scenarioB : State :=
  emptyState (<[0%nat := pendingTx "tx-0" (Some "0xTOKEN") "0xA" 5000000000]>
             (<[1%nat := pendingTx "tx-1" (Some "0xTOKEN") "0xPOOR" 5000000000]>
             (<[2%nat := pendingTx "tx-2" (Some "0xTOKEN") "0xC" 5000000000]> ∅))).


(** Scenario C: one transaction with the default increment of 1.1. *)
Definition scenarioC : State :=
  emptyState (<[0%nat := pendingTx "tx-0" (Some "0xTOKEN") "0xA" 5000000000]> ∅).

(** A transaction with a gas price of 5 wei and an increment of 1.5. *)
Definition smallFee : State :=
  emptyState (<[0%nat := pendingTx "tx-0" (Some "0xTOKEN") "0xA" 5]> ∅).

Definition increment15 : BatchProcessorConfig :=
  {| enabled := true; maxBatchSize := 10; batchTimeout := 300000;
     parallelBatches := 3; retryAttempts := 3; retryDelay := 1000;
     gasPriceIncrement := lit 15 10; priorityFeeIncrement := lit 11 10 |}.

(** Scenario E: a configuration whose deadline is one millisecond before
    the enqueueing. *)
Definition overdue : BatchProcessorConfig :=
  {| enabled := true; maxBatchSize := 10; batchTimeout := -1;
     parallelBatches := 3; retryAttempts := 3; retryDelay := 1000;
     gasPriceIncrement := lit 11 10; priorityFeeIncrement := lit 11 10 |}.


(** Three transactions of signers that can pay. *)
Definition threeTransactions : State :=
  emptyState (<[0%nat := pendingTx "tx-0" (Some "0xTOKEN") "0xA" 5000000000]>
             (<[1%nat := pendingTx "tx-1" (Some "0xTOKEN") "0xB" 5000000000]>
             (<[2%nat := pendingTx "tx-2" (Some "0xTOKEN") "0xC" 5000000000]> ∅))).

(** The friendly chain with a clock that advances by one millisecond at
    every reading. *)
Definition tickingEnv : Environment :=
  {| Date_now := fun k => 1700000000000 + Z.of_nat k;
     getBalance := getBalance friendlyEnv;
     getTransactionCount := getTransactionCount friendlyEnv;
     sendTransaction := sendTransaction friendlyEnv |}.

(** Batches queued in the order LOW, CRITICAL, HIGH, CRITICAL. *)
Definition criticalQueue : State :=
  (queueBatch defaultBatchConfig tickingEnv [0%nat; 2%nat] CRITICAL
     (queueBatch defaultBatchConfig tickingEnv [2%nat] HIGH
        (queueBatch defaultBatchConfig tickingEnv [1%nat] CRITICAL
           (queueBatch defaultBatchConfig tickingEnv [0%nat] LOW threeTransactions).2).2).2).2.

(** *** Vocabulary of the further properties *)

(** The transaction behind [r] is allocated and has a signer. *)
Definition signed (s : State) (r : ref) : Prop :=
  exists tx, heap s !! r = Some tx /\ wallet tx <> None.

(** A configuration whose groups are empty. *)
Definition noBatchSize : BatchProcessorConfig :=
  {| enabled := true; maxBatchSize := 0; batchTimeout := 300000;
     parallelBatches := 3; retryAttempts := 3; retryDelay := 1000;
     gasPriceIncrement := lit 11 10; priorityFeeIncrement := lit 11 10 |}.

(** The character [c] does not occur in [s]. *)
Fixpoint lacks (c : ascii) (s : string) : Prop :=
  match s with
  | EmptyString => True
  | String a rest => a <> c /\ lacks c rest
  end.

(** The nonce that a submission of [tx] is to carry: the one of the
    request, or, for a request that leaves it at 0, the pending count of
    the signer. *)
Definition nonceOf (env : Environment) (tx : BatchTransaction) (k : Z) : Prop :=
  if nonce tx =? 0
  then exists w, wallet tx = Some w /\ getTransactionCount env (address w) = Some k
  else k = nonce tx.

(** A change of the state that a result is returned with. *)
Definition onState {A} (f : State -> State) (x : A * State) : A * State := (x.1, f x.2).

(** What validation has made of the transaction [tx] when it is [tx']:
    the same request, with the nonce it had or the nonce it is to carry. *)
Definition nonce_settled (env : Environment) (tx tx' : BatchTransaction) : Prop :=
  tx' = set_nonce (nonce tx') tx /\
  (nonce tx' = nonce tx \/ nonceOf env tx (nonce tx')).

(** Two transactions of one signer that leave the nonce to the
    processor. *)
Definition sameSigner : State :=
  emptyState (<[0%nat := pendingTx "tx-0" (Some "0xTOKEN") "0xA" 5000000000]>
             (<[1%nat := pendingTx "tx-1" (Some "0xTOKEN") "0xA" 5000000000]> ∅)).

End BatchProcessorSpec.

Module FourMemeBundlerSpec.
Import JSNumber FourMemeBundler.

(** The launch transaction was mined with a receipt of status 1. *)
Definition launchConfirmed (env : Environment) (bundle : LaunchBundle) : bool :=
  match protectTransaction env (launchTx bundle) with
  | None => false
  | Some _ =>
      match launchOutcome env with
      | Mined _ receipt => receipt_status receipt =? 1
      | _ => false
      end
  end.

Definition statusOf (e : Event) : option BundleStatus :=
  match e with
  | StatusSet _ st => Some st
  | _ => None
  end.

Definition isBuy (e : Event) : Prop :=
  match e with
  | BuySubmitted _ _ => True
  | _ => False
  end.

Definition isLaunch (e : Event) : Prop :=
  match e with
  | LaunchSubmitted _ | LaunchReceipt _ => True
  | _ => False
  end.

(** *** Scenario: a bundle of two buys whose launch is reverted *)

Definition buyRequest : TransactionRequest :=
  {| to := Some "0xTOKEN"; value := 10000000000000000; gasLimit := 200000;
     gasPrice := 5000000000; data := "0x" |}.

Definition buyer (a : string) : WalletConfig :=
  {| address := a; privateKey := "0xKEY"; balance := 1000000000000000000;
     nonce := 0; buyAmount := 10000000000000000; wallet_gasPrice := 5000000000;
     priorityFee := 0 |}.

Definition pendingBundle : LaunchBundle :=
  {| id := "bundle_1"; 
     launchTx := {| to := Some "0xFACTORY"; value := 1000000000000000000;
                    gasLimit := 500000; gasPrice := 5000000000; data := "0x" |};
     buyTxs := [buyRequest; buyRequest];
     wallets := [buyer "0xA"; buyer "0xB"];
     tokenAddress := Some "0xTOKEN"; status := PENDING; launchTxHash := None;
     buyTxHashes := []; totalGasUsed := 0; totalProfit := ofBigInt 0;
     timestamp := 0; blockNumber := None |}.

Definition revertedLaunch : Environment :=
  {| Date_now := fun _ => 1700000000000;
     protectTransaction := fun tx => Some tx;
     launchOutcome := Mined "0xLAUNCH" {| receipt_status := 0; receipt_blockNumber := 42;
                                          receipt_gasUsed := 21000;
                                          receipt_gasPrice := 5000000000 |};
     validKey := fun _ => true;
     buyOutcome := fun _ => Mined "0xBUY" {| receipt_status := 1; receipt_blockNumber := 43;
                                             receipt_gasUsed := 21000;
                                             receipt_gasPrice := 5000000000 |} |}.

Definition oneBundle : State :=
  {| activeBundles := <["bundle_1" := pendingBundle]> ∅; bundleResults := ∅;
     trace := []; clock := 0 |}.

(** *** Vocabulary of the further properties *)

Definition isBundleExecuted (e : Event) : Prop :=
  match e with
  | BundleExecuted _ => True
  | _ => False
  end.

(** The buy at position [index] of the bundle is submitted as [ptx]: there
    is a wallet at that position, its key is accepted, and [ptx] is the
    protected form of the buy transaction at that position. *)
Definition buySubmission (env : Environment) (bundle : LaunchBundle) (e : Event) : Prop :=
  match e with
  | BuySubmitted index ptx =>
      exists wallet buyTx,
        wallets bundle !! index = Some wallet /\
        validKey env (privateKey wallet) = true /\
        buyTxs bundle !! index = Some buyTx /\
        protectTransaction env buyTx = Some ptx
  | _ => False
  end.

(** The position of the buy that an event submits. *)
Definition buyIndex (e : Event) : option nat :=
  match e with
  | BuySubmitted index _ => Some index
  | _ => None
  end.

(** A buy amount that [formatEther] accepts. *)
Definition formattable (wallet : WalletConfig) : Prop :=
  Z.abs (buyAmount wallet) < 2 ^ 511.

(** A chain on which the launch and every buy are mined. *)
Definition friendlyChain : Environment :=
  {| Date_now := fun k => 1700000000000 + Z.of_nat k;
     protectTransaction := fun tx => Some tx;
     launchOutcome := Mined "0xLAUNCH" {| receipt_status := 1; receipt_blockNumber := 42;
                                          receipt_gasUsed := 400000;
                                          receipt_gasPrice := 5000000000 |};
     validKey := fun _ => true;
     buyOutcome := fun _ => Mined "0xBUY" {| receipt_status := 1; receipt_blockNumber := 43;
                                             receipt_gasUsed := 21000;
                                             receipt_gasPrice := 5000000000 |} |}.

(** A bundle of three buys for two wallets. *)
Definition shortOfWallets : LaunchBundle :=
  {| id := "bundle_2";
     launchTx := {| to := Some "0xFACTORY"; value := 1000000000000000000;
                    gasLimit := 500000; gasPrice := 5000000000; data := "0x" |};
     buyTxs := [buyRequest; buyRequest; buyRequest];
     wallets := [buyer "0xA"; buyer "0xB"];
     tokenAddress := Some "0xTOKEN"; status := PENDING; launchTxHash := None;
     buyTxHashes := []; totalGasUsed := 0; totalProfit := ofBigInt 0;
     timestamp := 0; blockNumber := None |}.

Definition twoBundles : State :=
  {| activeBundles := <["bundle_1" := pendingBundle]> (<["bundle_2" := shortOfWallets]> ∅);
     bundleResults := ∅; trace := []; clock := 0 |}.

(** A bundle of one buy whose wallet holds an amount that [formatEther]
    refuses. *)
Definition hugeAmount : LaunchBundle :=
  {| id := "bundle_3";
     launchTx := {| to := Some "0xFACTORY"; value := 1000000000000000000;
                    gasLimit := 500000; gasPrice := 5000000000; data := "0x" |};
     buyTxs := [buyRequest];
     wallets := [{| address := "0xA"; privateKey := "0xKEY";
                    balance := 1000000000000000000; nonce := 0; buyAmount := 2 ^ 511;
                    wallet_gasPrice := 5000000000; priorityFee := 0 |}];
     tokenAddress := Some "0xTOKEN"; status := PENDING; launchTxHash := None;
     buyTxHashes := []; totalGasUsed := 0; totalProfit := ofBigInt 0;
     timestamp := 0; blockNumber := None |}.

Definition hugeBundle : State :=
  {| activeBundles := <["bundle_3" := hugeAmount]> ∅;
     bundleResults := ∅; trace := []; clock := 0 |}.

End FourMemeBundlerSpec.

Module MEVProtectionSpec.
Import JSNumber MEVProtection.

(** The character [c] occurs in [s]. *)
Fixpoint occurs (c : ascii) (s : string) : bool :=
  match s with
  | EmptyString => false
  | String a rest => Ascii.eqb a c || occurs c rest
  end.

(** The characters of the hexadecimal strings that [getCode] resolves to,
    as ["0x6080..."]. *)
Definition hexChar (c : ascii) : bool := occurs c "0123456789abcdefABCDEFx".

Fixpoint hexString (s : string) : bool :=
  match s with
  | EmptyString => true
  | String c rest => hexChar c && hexString rest
  end.

(** A swap of two ether through a router, with a gas price of 3 gwei. *)
Definition swapRequest : TransactionRequest :=
  {| to := Some "0xROUTER"; from := Some "0xA"; value := Some (2 * 10 ^ 18);
     gasLimit := Some 200000; gasPrice := Some 3000000000; maxFeePerGas := None;
     maxPriorityFeePerGas := None; data := Some "0x" |}.

Definition networkFee : GasOptimizer.FeeData :=
  {| GasOptimizer.fee_gasPrice := Some 5000000000;
     GasOptimizer.fee_maxPriorityFeePerGas := Some 1000000000;
     GasOptimizer.fee_maxFeePerGas := Some 5000000000 |}.

(** A provider that answers with the byte code of a contract. *)
Definition byteCodeProvider : Environment :=
  {| Date_now := 1700000000000;
     getCode := fun _ => Some "0x6080604052348015600e575f5ffd5b50";
     getFeeData := fun _ => Some networkFee;
     getTransactionCount := fun _ => Some 7 |}.

(** A provider whose code answers are readable text. *)
Definition sourceCodeProvider : Environment :=
  {| Date_now := 1700000000000;
     getCode := fun _ => Some "function swap(uint256 amount0Out, uint256 amount1Out)";
     getFeeData := fun _ => Some networkFee;
     getTransactionCount := fun _ => Some 7 |}.

(** *** The bundle *)

(** Every object of the store lies below the next reference. *)
Definition wellFormed (σ : Store) : Prop :=
  forall r, is_Some (objects σ !! r) -> (r < fresh σ)%nat.

(** The references [refs] stand for the requests [requests]. *)
Definition stands (σ : Store) (refs : list ref) (requests : list TransactionRequest)
  : Prop :=
  Forall2 (fun r t => objects σ !! r = Some t) refs requests.

(** The gas price that orders a bundle: a missing one counts as 0. *)
Definition gasPriceOf (t : TransactionRequest) : Z := GasOptimizer.orZero (gasPrice t).

(** The comparator of the bundle on the requests themselves. *)
Definition compareRequests (a b : TransactionRequest) : Z :=
  sort_sign (ofBigInt (gasPriceOf b - gasPriceOf a)).

(** The request [t] with the padding appended to its call data. *)
Definition padded (t : TransactionRequest) : TransactionRequest :=
  {| to := to t; from := from t; value := value t; gasLimit := gasLimit t;
     gasPrice := gasPrice t; maxFeePerGas := maxFeePerGas t;
     maxPriorityFeePerGas := maxPriorityFeePerGas t;
     data := Some (String.append (orHex (data t)) "00") |}.

(** All requests but the first padded. *)
Definition delayed (sorted : list TransactionRequest) : list TransactionRequest :=
  match sorted with
  | [] => []
  | first :: rest => first :: (padded <$> rest)
  end.

(** What [protectTransaction] makes of the requests, one by one; the
    [i]-th request meets the collaborators [env i]. *)
Definition protections (cfg : MEVProtectionConfig) (env : nat -> Environment)
    (requests : list TransactionRequest) : list TransactionRequest :=
  imap (fun i t => MEVProtection.transaction (protectTransaction cfg (env i) t)) requests.

(** A launch at 5 gwei followed by two buys at 6 gwei, one of them without
    call data. *)
Definition launchRequest : TransactionRequest :=
  {| to := Some "0xFACTORY"; from := Some "0xA"; value := Some (10 ^ 17);
     gasLimit := Some 500000; gasPrice := Some 5000000000; maxFeePerGas := None;
     maxPriorityFeePerGas := None; data := Some "0xc9c65396" |}.

Definition buyRequest (sender : string) (calldata : option string) : TransactionRequest :=
  {| to := Some "0xTOKEN"; from := Some sender; value := Some (10 ^ 16);
     gasLimit := Some 200000; gasPrice := Some 6000000000; maxFeePerGas := None;
     maxPriorityFeePerGas := None; data := calldata |}.

Definition bundleStore : Store :=
  {| objects := <[0%nat := launchRequest]>
                  (<[1%nat := buyRequest "0xB" (Some "0xa6f2ae3a")]>
                     (<[2%nat := buyRequest "0xC" None]> ∅));
     fresh := 3 |}.

Definition unprotected : MEVProtectionConfig :=
  {| enabled := false; privateMempool := true; protectionDelay := 100;
     maxSlippage := lit 5 100; antiFrontrunEnabled := true;
     antiSandwichEnabled := true; gasPriceBuffer := lit 11 10;
     priorityFeeBuffer := lit 12 10 |}.

End MEVProtectionSpec.

(* ===================================================================== *)
(** * Part III: the proofs                                                *)
(* ===================================================================== *)

(** ** Rounding to nearest on binary64 *)

Module JSNumberProofs.
Import JSNumber JSNumberSpec.

Lemma at_most_shiftl x m e : 0 <= m -> at_most x m e -> x <= Z.shiftl m e.
Proof.
  unfold at_most. intros Hm H. destruct (Z.le_gt_cases 0 e) as [He|He].
  - rewrite Z.shiftl_mul_pow2 by done.
    rewrite Z.max_l, Z.max_r in H by lia. lia.
  - rewrite Z.shiftl_div_pow2 by lia.
    rewrite Z.max_r, Z.max_l in H by lia. rewrite Z.pow_0_r, Z.mul_1_r in H.
    apply Z.div_le_lower_bound; lia.
Qed.

Lemma at_most_mul x mx ex my ey :
  0 <= x -> 0 <= mx -> 0 <= my ->
  at_most x mx ex -> at_most 1 my ey -> at_most x (mx * my) (ex + ey).
Proof.
  unfold at_most. intros Hx Hmx Hmy H1 H2.
  set (a := Z.max 0 (- ex)) in *. set (b := Z.max 0 ex) in *.
  set (c := Z.max 0 (- ey)) in *. set (d := Z.max 0 ey) in *.
  assert (Hpos : forall k, 0 < 2 ^ Z.max 0 k) by (intros; apply Z.pow_pos_nonneg; lia).
  assert (H : x * (2 ^ a * 2 ^ c) <= (mx * my) * (2 ^ b * 2 ^ d)).
  { transitivity ((mx * 2 ^ b) * (1 * 2 ^ c)); [|].
    - pose proof (Hpos (- ey)). fold c in H. nia.
    - pose proof (Hpos ex). fold b in H. nia. }
  rewrite <- !Z.pow_add_r in H by (subst a b c d; lia).
  destruct (Z.le_gt_cases 0 (ex + ey)) as [He|He].
  - rewrite (Z.max_l 0 (- (ex + ey))), (Z.max_r 0 (ex + ey)) by lia.
    rewrite Z.pow_0_r, Z.mul_1_r.
    replace (b + d) with ((ex + ey) + (a + c)) in H by (subst a b c d; lia).
    rewrite (Z.pow_add_r 2 (ex + ey) (a + c)), Z.mul_assoc in H by (subst a b c d; lia).
    apply Z.mul_le_mono_pos_r in H; [done|]. apply Z.pow_pos_nonneg; subst a c; lia.
  - rewrite (Z.max_r 0 (- (ex + ey))), (Z.max_l 0 (ex + ey)) by lia.
    rewrite Z.pow_0_r, Z.mul_1_r.
    replace (a + c) with (- (ex + ey) + (b + d)) in H by (subst a b c d; lia).
    rewrite (Z.pow_add_r 2 (- (ex + ey)) (b + d)), Z.mul_assoc in H by (subst a b c d; lia).
    apply Z.mul_le_mono_pos_r in H; [done|]. apply Z.pow_pos_nonneg; subst b d; lia.
Qed.

Lemma digits2_pos_bounds m :
  2 ^ (Zpos (digits2_pos m) - 1) <= Zpos m < 2 ^ Zpos (digits2_pos m).
Proof.
  induction m as [m IH|m IH|]; cbn [digits2_pos]; [| |done].
  - rewrite Pos2Z.inj_succ, Z.pow_succ_r by lia.
    replace (Z.succ (Z.pos (digits2_pos m)) - 1) with (Z.succ (Z.pos (digits2_pos m) - 1)) by lia.
    rewrite Z.pow_succ_r by lia. lia.
  - rewrite Pos2Z.inj_succ, Z.pow_succ_r by lia.
    replace (Z.succ (Z.pos (digits2_pos m)) - 1) with (Z.succ (Z.pos (digits2_pos m) - 1)) by lia.
    rewrite Z.pow_succ_r by lia. lia.
Qed.

Lemma shr_1_m r : 0 <= shr_m r -> shr_m (shr_1 r) = shr_m r / 2.
Proof.
  destruct r as [m rb sb]. cbn [shr_m]. intros Hm.
  destruct m as [|[p|p|]|p]; cbn [shr_1 shr_m]; try done; try lia.
  - rewrite Pos2Z.inj_xI. apply Z.div_unique with 1; lia.
  - rewrite Pos2Z.inj_xO. apply Z.div_unique with 0; lia.
Qed.

Lemma iter_shr_1_m p : forall r,
  0 <= shr_m r -> shr_m (SpecFloat.iter_pos shr_1 p r) = shr_m r / 2 ^ Zpos p.
Proof.
  assert (Hdiv : forall a, 0 <= a -> 0 <= a / 2) by (intros; apply Z.div_pos; lia).
  induction p as [p IH|p IH|]; intros r Hr; cbn [SpecFloat.iter_pos].
  - rewrite IH, IH, shr_1_m; try done.
    + rewrite !Z.div_div by (try apply Z.pow_pos_nonneg; lia).
      f_equal. rewrite Pos2Z.inj_xI, <- Z.pow_add_r, <- Z.pow_succ_r by lia. f_equal. lia.
    + rewrite shr_1_m by done. by apply Hdiv.
    + rewrite IH, shr_1_m; [|done|rewrite shr_1_m by done; by apply Hdiv].
      apply Z.div_pos; [by apply Hdiv|]. apply Z.pow_pos_nonneg; lia.
  - rewrite IH, IH; try done.
    + rewrite !Z.div_div by (try apply Z.pow_pos_nonneg; lia).
      f_equal. rewrite Pos2Z.inj_xO, <- Z.pow_add_r by lia. f_equal. lia.
    + rewrite IH by done. apply Z.div_pos; [done|]. apply Z.pow_pos_nonneg; lia.
  - by rewrite shr_1_m.
Qed.

Lemma round_nearest_even_bounds m l :
  m <= round_nearest_even m l <= m + 1.
Proof.
  destruct l as [|[| |]]; cbn [round_nearest_even]; try lia.
  destruct (Z.even m); lia.
Qed.

Lemma Zdigits2_bounds m : 0 < m -> 2 ^ (Zdigits2 m - 1) <= m < 2 ^ Zdigits2 m.
Proof. destruct m as [|p|p]; [lia| |lia]. intros _. apply digits2_pos_bounds. Qed.

Lemma Zdigits2_unique m d : 2 ^ (d - 1) <= m < 2 ^ d -> 0 < m -> Zdigits2 m = d.
Proof.
  intros [Hlo Hhi] Hm. destruct (Zdigits2_bounds m Hm) as [Hlo' Hhi'].
  assert (0 < Zdigits2 m) by (destruct m; cbn; lia).
  assert (0 < d).
  { destruct (Z.lt_trichotomy 0 d) as [?|[<-|Hneg]]; [done|cbn in Hhi; lia|].
    rewrite (Z.pow_neg_r 2 d) in Hhi by lia. lia. }
  destruct (Z.lt_trichotomy (Zdigits2 m) d) as [Hlt|[Heq|Hgt]]; [|done|].
  - assert (2 ^ Zdigits2 m <= 2 ^ (d - 1)) by (apply Z.pow_le_mono_r; lia). lia.
  - assert (2 ^ d <= 2 ^ (Zdigits2 m - 1)) by (apply Z.pow_le_mono_r; lia). lia.
Qed.

(** The first step of rounding on a value that is not subnormal: the
    mantissa is cut down to 53 digits. *)
Lemma shr_fexp_normal m e l :
  0 < m -> -1021 <= Zdigits2 m + e ->
  let n := Zdigits2 m - 53 in
  (n <= 0 /\ shr_fexp prec emax m e l = (shr_record_of_loc m l, e)) \/
  (0 < n /\ shr_m (shr_fexp prec emax m e l).1 = m / 2 ^ n /\
   (shr_fexp prec emax m e l).2 = e + n).
Proof.
  intros Hm Hd n. unfold shr_fexp, fexp, emin, prec, emax.
  rewrite Z.max_l by lia.
  replace (Zdigits2 m + e - 53 - e) with n by (subst n; lia).
  destruct n as [|p|p] eqn:Hn; cbn [shr]; [left; split; [lia|done]| |left; split; [lia|done]].
  right. split; [lia|]. cbn [fst snd]. split; [|done].
  rewrite iter_shr_1_m; [|destruct l as [|[| |]]; cbn; lia].
  by destruct l as [|[| |]].
Qed.

(** Rounding a product to nearest does not go below an integer of at most
    53 bits that the exact value is not below. *)
Lemma binary_round_aux_at_most x m e :
  1 <= x < 2 ^ 53 -> at_most x (Zpos m) e ->
  match binary_round_aux prec emax false (Zpos m) e loc_Exact with
  | S754_finite false m' e' => at_most x (Zpos m') e'
  | S754_infinity false => True
  | _ => False
  end.
Proof.
  intros Hx Hval.
  assert (H52 : 2 ^ 52 = 4503599627370496) by done.
  assert (H53 : 2 ^ 53 = 9007199254740992) by done.
  pose proof (digits2_pos_bounds m) as Hdig. set (d := Zpos (digits2_pos m)) in *.
  assert (Hde : 1 <= d + e).
  { destruct (Z.lt_ge_cases e 0) as [He|He]; [|lia].
    unfold at_most in Hval. rewrite Z.max_r, Z.max_l, Z.pow_0_r in Hval by lia.
    assert (2 ^ (- e) < 2 ^ d) by (assert (0 < 2 ^ (- e)) by (apply Z.pow_pos_nonneg; lia); nia).
    apply Z.pow_lt_mono_r_iff in H; lia. }
  unfold binary_round_aux.
  destruct (shr_fexp_normal (Zpos m) e loc_Exact) as [[Hn Hs]|(Hn & Hm1 & He1)];
    [lia|cbn [Zdigits2]; fold d; lia| |]; cbn [Zdigits2] in Hn; fold d in Hn.
  - (* the mantissa fits: nothing is lost *)
    rewrite Hs. cbn [shr_record_of_loc shr_m loc_of_shr_record round_nearest_even].
    rewrite Hs. cbn [shr_record_of_loc shr_m].
    destruct (e <=? emax - prec); done.
  - (* the mantissa is cut *)
    change (Zdigits2 (Zpos m)) with d in *.
    destruct (shr_fexp prec emax (Zpos m) e loc_Exact) as [r1 e1]. cbn [fst snd] in Hm1, He1.
    set (n := d - 53) in *.
    assert (Hpow : 2 ^ d = 2 ^ n * 2 ^ 53)
      by (rewrite <- Z.pow_add_r by lia; f_equal; lia).
    assert (Hpow' : 2 ^ (d - 1) = 2 ^ n * 2 ^ 52)
      by (rewrite <- Z.pow_add_r by lia; f_equal; lia).
    assert (Hn2 : 0 < 2 ^ n) by (apply Z.pow_pos_nonneg; lia).
    assert (Hm1b : 2 ^ 52 <= shr_m r1 < 2 ^ 53).
    { rewrite Hm1. split.
      - apply Z.div_le_lower_bound; lia.
      - apply Z.div_lt_upper_bound; lia. }
    assert (Hval1 : at_most x (shr_m r1) e1).
    { unfold at_most in *. destruct (Z.lt_ge_cases 0 e1) as [Hpos|Hnonpos].
      - rewrite Z.max_l, Z.max_r, Z.pow_0_r by lia.
        assert (2 ^ 1 <= 2 ^ e1) by (apply Z.pow_le_mono_r; lia).
        change (2 ^ 1) with 2 in *.
        transitivity (2 ^ 52 * 2); [lia|].
        apply Z.mul_le_mono_nonneg; lia.
      - rewrite Z.max_r, Z.max_l, Z.pow_0_r, Z.mul_1_r by lia.
        rewrite Z.max_r, Z.max_l, Z.pow_0_r, Z.mul_1_r in Hval by lia.
        rewrite Hm1. apply Z.div_le_lower_bound; [done|].
        replace (- e) with (n + - e1) in Hval by lia.
        rewrite Z.pow_add_r in Hval by lia. lia. }
    pose proof (round_nearest_even_bounds (shr_m r1) (loc_of_shr_record r1)) as Hround.
    set (m2 := round_nearest_even (shr_m r1) (loc_of_shr_record r1)) in *.
    assert (Hval2 : at_most x m2 e1).
    { unfold at_most in *. assert (0 < 2 ^ Z.max 0 e1) by (apply Z.pow_pos_nonneg; lia). nia. }
    destruct (Z.eq_dec m2 (2 ^ 53)) as [Htop|Hlow].
    + (* the mantissa was rounded up to 2^53 *)
      assert (Hs2 : shr_fexp prec emax m2 e1 loc_Exact
                    = ({| shr_m := 2 ^ 52; shr_r := false; shr_s := false |}, e1 + 1)).
      { rewrite Htop. unfold shr_fexp, fexp, emin, prec, emax.
        change (Zdigits2 (2 ^ 53)) with 54. rewrite Z.max_l by lia.
        replace (54 + e1 - 53 - e1) with 1 by lia. done. }
      rewrite Hs2. cbn [shr_m]. change (2 ^ 52) with (Zpos 4503599627370496).
      destruct (e1 + 1 <=? emax - prec); [|done].
      unfold at_most in *. rewrite Htop in Hval2.
      destruct (Z.lt_ge_cases e1 0) as [Hneg|Hnn].
      * rewrite (Z.max_r 0 (- (e1 + 1))), (Z.max_l 0 (e1 + 1)), Z.pow_0_r, Z.mul_1_r by lia.
        rewrite Z.max_r, Z.max_l, Z.pow_0_r, Z.mul_1_r in Hval2 by lia.
        replace (- e1) with (1 + - (e1 + 1)) in Hval2 by lia.
        rewrite Z.pow_add_r in Hval2 by lia. lia.
      * rewrite (Z.max_l 0 (- (e1 + 1))), (Z.max_r 0 (e1 + 1)), Z.pow_0_r, Z.mul_1_r by lia.
        rewrite Z.max_l, Z.max_r, Z.pow_0_r, Z.mul_1_r in Hval2 by lia.
        rewrite Z.pow_add_r by lia. lia.
    + assert (Hd2 : Zdigits2 m2 = 53) by (apply Zdigits2_unique; lia).
      destruct (shr_fexp_normal m2 e1 loc_Exact) as [[_ Hs2]|(Habs & _)];
        [lia|lia| |lia].
      rewrite Hs2. cbn [shr_record_of_loc shr_m].
      destruct m2 as [|m'|m']; [lia| |lia].
      destruct (e1 <=? emax - prec); done.
Qed.

Lemma iter_xO_pow m d : Zpos (Pos.iter xO m d) = Zpos m * 2 ^ Zpos d.
Proof.
  induction d as [|d IH] using Pos.peano_ind.
  - cbn [Pos.iter]. rewrite Pos2Z.inj_xO. change (2 ^ 1) with 2. lia.
  - rewrite Pos.iter_succ, Pos2Z.inj_xO, IH, Pos2Z.inj_succ, Z.pow_succ_r by lia. lia.
Qed.

(** Scaling the mantissa against the exponent keeps the value. *)
Lemma at_most_scale x m e k :
  0 <= k -> 0 <= m -> at_most x m e -> at_most x (m * 2 ^ k) (e - k).
Proof.
  unfold at_most. intros Hk Hm H.
  assert (Hk2 : 0 < 2 ^ k) by (apply Z.pow_pos_nonneg; lia).
  destruct (Z.lt_ge_cases e 0) as [He|He].
  - rewrite Z.max_r, Z.max_l, Z.pow_0_r, Z.mul_1_r in H by lia.
    rewrite Z.max_r, Z.max_l, Z.pow_0_r, Z.mul_1_r by lia.
    replace (- (e - k)) with (- e + k) by lia. rewrite Z.pow_add_r by lia. nia.
  - rewrite Z.max_l, Z.max_r, Z.pow_0_r, Z.mul_1_r in H by lia.
    destruct (Z.lt_ge_cases (e - k) 0) as [Hek|Hek].
    + rewrite Z.max_r, Z.max_l, Z.pow_0_r, Z.mul_1_r by lia.
      assert (Hs : 2 ^ k = 2 ^ e * 2 ^ (- (e - k)))
        by (rewrite <- Z.pow_add_r by lia; f_equal; lia).
      assert (0 < 2 ^ (- (e - k))) by (apply Z.pow_pos_nonneg; lia).
      rewrite Hs. nia.
    + rewrite Z.max_l, Z.max_r, Z.pow_0_r, Z.mul_1_r by lia.
      assert (Hs : 2 ^ e = 2 ^ k * 2 ^ (e - k))
        by (rewrite <- Z.pow_add_r by lia; f_equal; lia).
      rewrite Hs in H. lia.
Qed.

Lemma at_most_exact x : 0 <= x -> at_most x x 0.
Proof.
  unfold at_most. change (Z.max 0 (- 0)) with 0. change (Z.max 0 0) with 0.
  rewrite Z.pow_0_r. lia.
Qed.

(** [Number(g)] is not below [g] when [g] has at most 53 bits. *)
Lemma ofBigInt_at_most g :
  1 <= g < 2 ^ 53 ->
  match ofBigInt g with
  | S754_finite false m e => at_most g (Zpos m) e
  | S754_infinity false => True
  | _ => False
  end.
Proof.
  intros Hg. destruct g as [|p|p]; [lia| |lia].
  unfold ofBigInt, binary_normalize, binary_round.
  destruct (shl_align p 0 _) as [mz ez] eqn:Hs.
  apply binary_round_aux_at_most; [done|].
  unfold shl_align in Hs.
  destruct (fexp prec emax (Zpos (digits2_pos p) + 0) - 0) as [|d|d] eqn:Hd;
    injection Hs as <- <-; try (by apply at_most_exact).
  rewrite iter_xO_pow.
  replace (fexp prec emax (Zpos (digits2_pos p) + 0)) with (0 - Zpos d) by lia.
  apply at_most_scale; [lia|lia|]. by apply at_most_exact.
Qed.

(** A number that is not below one. *)
Lemma at_least_one inc :
  is_number inc = true -> le (ofBigInt 1) inc = true ->
  inc = S754_infinity false \/
  exists m e, inc = S754_finite false m e /\ at_most 1 (Zpos m) e.
Proof.
  unfold is_number, le, SFleb. change (ofBigInt 1) with (S754_finite false 4503599627370496 (-52)).
  destruct inc as [s|[|]| |[|] m e]; cbn [SFcompare valid_binary]; try done; [by left|].
  intros Hvalid Hle. right. exists m, e. split; [done|].
  unfold bounded, canonical_mantissa, fexp, emin, prec, emax in Hvalid.
  apply andb_prop in Hvalid as [Hcanon _]. apply Z.eqb_eq in Hcanon.
  pose proof (digits2_pos_bounds m) as Hdig.
  assert (H52 : 2 ^ 52 = 4503599627370496) by done.
  unfold at_most.
  destruct (Z.compare_spec (-52) e) as [<-|Hlt|Hgt]; [| |done].
  - rewrite Pos.compare_cont_spec in Hle. cbn [Pos.switch_Eq] in Hle.
    destruct (Pos.compare_spec 4503599627370496 m) as [Heq|Hlt|Hgt]; [| |done].
    + subst m. done.
    + change (Z.max 0 (- -52)) with 52. change (Z.max 0 (-52)) with 0.
      rewrite Z.pow_0_r. lia.
  - assert (Zpos (digits2_pos m) = 53) by lia.
    replace (Zpos (digits2_pos m) - 1) with 52 in Hdig by lia.
    destruct (Z.lt_ge_cases e 0) as [He|He].
    + rewrite Z.max_r, Z.max_l, Z.pow_0_r by lia.
      assert (2 ^ (- e) <= 2 ^ 52) by (apply Z.pow_le_mono_r; lia). lia.
    + rewrite Z.max_l, Z.max_r, Z.pow_0_r by lia.
      assert (0 < 2 ^ e) by (apply Z.pow_pos_nonneg; lia). nia.
Qed.

(** Escalating a fee of at most 53 bits by a factor of at least one does
    not lower it. *)
Lemma BigInt_floor_mul_ge g inc g' :
  0 <= g < 2 ^ 53 -> is_number inc = true -> le (ofBigInt 1) inc = true ->
  BigInt_floor (mul (ofBigInt g) inc) = Some g' -> g <= g'.
Proof.
  intros Hg Hnum Hone.
  destruct (at_least_one inc Hnum Hone) as [->|(my & ey & -> & Hinc)].
  { by destruct (ofBigInt g). }
  destruct (Z.eq_dec g 0) as [->|Hnz].
  { cbn. by intros [= <-]. }
  pose proof (ofBigInt_at_most g ltac:(lia)) as Hx.
  destruct (ofBigInt g) as [s|[|]| |[|] mx ex]; try done.
  unfold mul, SFmul. cbn [xorb].
  pose proof (binary_round_aux_at_most g (mx * my) (ex + ey) ltac:(lia)) as Hr.
  rewrite Pos2Z.inj_mul in Hr. specialize (Hr (at_most_mul g (Zpos mx) ex (Zpos my) ey ltac:(lia) ltac:(lia) ltac:(lia) Hx Hinc)).
  rewrite <- Pos2Z.inj_mul in Hr.
  destruct (binary_round_aux prec emax false _ _ _) as [s|[|]| |[|] m' e']; try done.
  cbn [BigInt_floor cond_Zopp]. intros [= <-]. apply at_most_shiftl; [lia|done].
Qed.

(** *** Signs *)

Lemma shr_fexp_nonneg m e l : 0 <= m -> 0 <= shr_m (shr_fexp prec emax m e l).1.
Proof.
  intros Hm. unfold shr_fexp, shr.
  assert (Hrec : shr_m (shr_record_of_loc m l) = m) by (by destruct l as [|[| |]]).
  destruct (fexp prec emax (Zdigits2 m + e) - e) as [|p|p]; cbn [fst]; try lia.
  rewrite iter_shr_1_m by lia. rewrite Hrec.
  apply Z.div_pos; [done|]. apply Z.pow_pos_nonneg; lia.
Qed.

(** Rounding a non-negative mantissa gives a zero, a finite number or an
    infinity of the requested sign. *)
Lemma binary_round_aux_sign s m e l :
  0 <= m ->
  match binary_round_aux prec emax s m e l with
  | S754_nan => False
  | S754_zero s' | S754_infinity s' | S754_finite s' _ _ => s' = s
  end.
Proof.
  intros Hm. unfold binary_round_aux.
  pose proof (shr_fexp_nonneg m e l Hm) as H1.
  destruct (shr_fexp prec emax m e l) as [r1 e1]. cbn [fst] in H1.
  pose proof (round_nearest_even_bounds (shr_m r1) (loc_of_shr_record r1)) as Hround.
  pose proof (shr_fexp_nonneg (round_nearest_even (shr_m r1) (loc_of_shr_record r1))
                e1 loc_Exact ltac:(lia)) as H2.
  destruct (shr_fexp prec emax _ e1 loc_Exact) as [r2 e2]. cbn [fst] in H2.
  destruct (shr_m r2) as [|p|p]; [done| |lia].
  by destruct (e2 <=? emax - prec).
Qed.

Lemma binary_round_aux_nonnegative m e l :
  0 <= m -> nonnegative (binary_round_aux prec emax false m e l) = true.
Proof.
  intros Hm. pose proof (binary_round_aux_sign false m e l Hm) as H.
  destruct (binary_round_aux prec emax false m e l); try done; by subst.
Qed.

Lemma binary_round_not_NaN s m e : not_NaN (binary_round prec emax s m e) = true.
Proof.
  unfold binary_round. destruct (shl_align m e _) as [mz ez].
  pose proof (binary_round_aux_sign s (Zpos mz) ez loc_Exact ltac:(lia)) as H.
  by destruct (binary_round_aux prec emax s (Zpos mz) ez loc_Exact).
Qed.

Lemma binary_round_nonnegative m e : nonnegative (binary_round prec emax false m e) = true.
Proof.
  unfold binary_round. destruct (shl_align m e _) as [mz ez].
  apply binary_round_aux_nonnegative. lia.
Qed.

Lemma nonnegative_not_NaN x : nonnegative x = true -> not_NaN x = true.
Proof. by destruct x. Qed.

Lemma ofBigInt_nonnegative z : 0 <= z -> nonnegative (ofBigInt z) = true.
Proof.
  intros Hz. destruct z as [|p|p]; [done| |lia].
  apply binary_round_nonnegative.
Qed.

Lemma add_nonnegative x y :
  nonnegative x = true -> nonnegative y = true -> nonnegative (add x y) = true.
Proof.
  destruct x as [sx|[|]| |[|] mx ex]; try done;
  destruct y as [sy|[|]| |[|] my ey]; try done; intros _ _.
  - by destruct sx, sy.
  - unfold add, SFadd. cbn [cond_Zopp Z.add]. apply binary_round_nonnegative.
Qed.

Lemma sub_not_NaN x y :
  not_NaN x = true -> positive_finite y = true -> not_NaN (sub x y) = true.
Proof.
  destruct y as [sy|sy| |[|] my ey]; try done.
  destruct x as [sx|sx| |sx mx ex]; try done. intros _ _.
  unfold sub, SFsub, binary_normalize.
  destruct (_ - _) as [|p|p]; [done| |]; apply binary_round_not_NaN.
Qed.

Lemma Math_pow2_nonnegative x : not_NaN x = true -> nonnegative (Math_pow2 x) = true.
Proof.
  destruct x as [s|s| |s m e]; try done; intros _.
  - by destruct s.
  - unfold Math_pow2, mul, SFmul. replace (xorb s s) with false by (by destruct s).
    apply binary_round_aux_nonnegative. lia.
Qed.

Lemma mul_nonnegative x y :
  nonnegative x = true -> positive_finite y = true -> nonnegative (mul x y) = true.
Proof.
  destruct y as [sy|sy| |[|] my ey]; try done.
  destruct x as [sx|[|]| |[|] mx ex]; try done; intros _ _.
  unfold mul, SFmul. cbn [xorb]. apply binary_round_aux_nonnegative. lia.
Qed.

Lemma div_nonnegative x y :
  nonnegative x = true -> positive_finite y = true -> nonnegative (div x y) = true.
Proof.
  destruct y as [sy|sy| |[|] my ey]; try done.
  destruct x as [sx|[|]| |[|] mx ex]; try done; intros _ _.
  unfold div, SFdiv, SFdiv_core_binary. cbn [xorb].
  match goal with |- context [Z.div_eucl ?a ?b] =>
    pose proof (Z_div_mod a b ltac:(lia)) as Hdiv;
    assert (Ha : 0 <= a) by (destruct (_ - _ - _); [lia|apply Z.shiftl_nonneg; lia|lia]);
    destruct (Z.div_eucl a b) as [q r] end.
  apply binary_round_aux_nonnegative. destruct Hdiv as [Hq Hr]. nia.
Qed.

Lemma Math_sqrt_nonnegative x : nonnegative x = true -> nonnegative (Math_sqrt x) = true.
Proof.
  destruct x as [sx|[|]| |[|] mx ex]; try done; intros _.
  unfold Math_sqrt, SFsqrt, SFsqrt_core_binary.
  match goal with |- context [Z.sqrtrem ?a] =>
    pose proof (Z.sqrtrem_sqrt a) as Hs; pose proof (Z.sqrt_nonneg a) as Hn;
    destruct (Z.sqrtrem a) as [q r] end.
  cbn [fst] in Hs. apply binary_round_aux_nonnegative. lia.
Qed.

(** [Math.min] with 1 brings a non-negative number into the unit
    interval. *)
Lemma Math_min_one x :
  nonnegative x = true ->
  le (ofBigInt 0) (Math_min x (ofBigInt 1)) = true /\
  le (Math_min x (ofBigInt 1)) (ofBigInt 1) = true.
Proof.
  intros Hx. unfold Math_min, le, SFleb.
  change (ofBigInt 1) with (S754_finite false 4503599627370496 (-52)).
  change (ofBigInt 0) with (S754_zero false).
  destruct x as [sx|[|]| |[|] mx ex]; try done.
  destruct (SFcompare (S754_finite false mx ex) _) as [[| |]|] eqn:Hc; try done.
  - by rewrite Hc.
  - by rewrite Hc.
Qed.

(** *** No overflow *)

Lemma Zdigits2_le m k : 0 <= m < 2 ^ k -> 0 <= k -> Zdigits2 m <= k.
Proof.
  intros [Hm Hk] Hk0. destruct (Z.eq_dec m 0) as [->|Hnz]; [done|].
  pose proof (Zdigits2_bounds m ltac:(lia)) as [Hlo _].
  destruct (Z.le_gt_cases (Zdigits2 m) k) as [|Hgt]; [done|].
  assert (2 ^ k <= 2 ^ (Zdigits2 m - 1)) by (apply Z.pow_le_mono_r; lia). lia.
Qed.

Lemma shr_fexp_exponent m e l :
  (shr_fexp prec emax m e l).2 = Z.max e (fexp prec emax (Zdigits2 m + e)).
Proof.
  unfold shr_fexp, shr.
  destruct (fexp prec emax (Zdigits2 m + e) - e) as [|p|p] eqn:Hn; cbn [snd]; lia.
Qed.

Lemma shr_fexp_at_most m e l : 0 <= m -> shr_m (shr_fexp prec emax m e l).1 <= m.
Proof.
  intros Hm. unfold shr_fexp, shr.
  assert (Hrec : shr_m (shr_record_of_loc m l) = m) by (by destruct l as [|[| |]]).
  destruct (fexp prec emax (Zdigits2 m + e) - e) as [|p|p]; cbn [fst]; try lia.
  rewrite iter_shr_1_m by lia. rewrite Hrec.
  apply Z.div_le_upper_bound; [apply Z.pow_pos_nonneg; lia|].
  assert (1 <= 2 ^ Zpos p) by (apply (Z.pow_le_mono_r 2 0); lia). nia.
Qed.

(** Rounding a mantissa of at most 106 bits at an exponent that is not
    positive does not overflow. *)
Lemma binary_round_aux_finite s m e l :
  0 <= m < 2 ^ 106 -> e <= 0 ->
  match binary_round_aux prec emax s m e l with
  | S754_zero _ | S754_finite _ _ _ => True
  | _ => False
  end.
Proof.
  intros Hm He. unfold binary_round_aux.
  pose proof (shr_fexp_exponent m e l) as He1.
  pose proof (shr_fexp_at_most m e l ltac:(lia)) as Hm1.
  pose proof (shr_fexp_nonneg m e l ltac:(lia)) as Hm1'.
  pose proof (Zdigits2_le m 106 Hm ltac:(lia)) as Hd.
  destruct (shr_fexp prec emax m e l) as [r1 e1]. cbn [fst snd] in He1, Hm1, Hm1'.
  pose proof (round_nearest_even_bounds (shr_m r1) (loc_of_shr_record r1)) as Hround.
  set (m2 := round_nearest_even (shr_m r1) (loc_of_shr_record r1)) in *.
  assert (H107 : 2 ^ 107 = 2 * 2 ^ 106) by done.
  pose proof (shr_fexp_exponent m2 e1 loc_Exact) as He2.
  pose proof (shr_fexp_nonneg m2 e1 loc_Exact ltac:(lia)) as Hm2.
  pose proof (Zdigits2_le m2 107 ltac:(lia) ltac:(lia)) as Hd2.
  destruct (shr_fexp prec emax m2 e1 loc_Exact) as [r2 e2]. cbn [fst snd] in He2, Hm2.
  unfold fexp, emin, prec, emax in *.
  destruct (shr_m r2) as [|m'|m']; [done| |lia].
  destruct (e2 <=? 1024 - 53) eqn:Hle; [done|]. apply Z.leb_gt in Hle. lia.
Qed.

(** A mantissa of exactly 53 bits is kept as it is. *)
Lemma binary_round_aux_fits s m e :
  Zdigits2 (Zpos m) = 53 -> -1074 <= e <= 971 ->
  binary_round_aux prec emax s (Zpos m) e loc_Exact = S754_finite s m e.
Proof.
  intros Hd He. unfold binary_round_aux.
  assert (Hs : shr_fexp prec emax (Zpos m) e loc_Exact
               = (shr_record_of_loc (Zpos m) loc_Exact, e)).
  { unfold shr_fexp, fexp, emin, prec, emax. rewrite Hd.
    replace (Z.max (53 + e - 53) (3 - 1024 - 53) - e) with 0 by lia. done. }
  rewrite Hs. cbn [shr_record_of_loc shr_m loc_of_shr_record round_nearest_even].
  rewrite Hs. cbn [shr_record_of_loc shr_m].
  unfold emax, prec. destruct (e <=? 1024 - 53) eqn:Hle; [done|]. apply Z.leb_gt in Hle. lia.
Qed.

(** [Number(g)] for a positive [g] of at most 53 bits: a mantissa of 53
    bits at an exponent that is not positive. *)
Lemma ofBigInt_small g :
  1 <= g < 2 ^ 53 ->
  exists m e, ofBigInt g = S754_finite false m e /\ Zpos m < 2 ^ 53 /\ e <= 0.
Proof.
  intros Hg. destruct g as [|p|p]; [lia| |lia].
  unfold ofBigInt, binary_normalize, binary_round.
  pose proof (digits2_pos_bounds p) as Hdig. set (d := Zpos (digits2_pos p)) in *.
  assert (Hd : 1 <= d <= 53).
  { split; [subst d; lia|]. apply (Zdigits2_le (Zpos p) 53); lia. }
  unfold shl_align, fexp, emin, prec, emax. rewrite Z.add_0_r, Z.sub_0_r.
  rewrite Z.max_l by lia.
  destruct (d - 53) as [|k|k] eqn:Hk; [|lia|].
  - exists p, 0. split; [|lia].
    apply binary_round_aux_fits; [|lia]. cbn [Zdigits2]. fold d. lia.
  - exists (shift_pos k p), (Zneg k).
    assert (Hshift : Zpos (shift_pos k p) = Zpos p * 2 ^ Zpos k) by apply iter_xO_pow.
    assert (Hpow : 2 ^ 53 = 2 ^ d * 2 ^ Zpos k)
      by (rewrite <- Z.pow_add_r by lia; f_equal; lia).
    assert (Hpow' : 2 ^ 52 = 2 ^ (d - 1) * 2 ^ Zpos k)
      by (rewrite <- Z.pow_add_r by lia; f_equal; lia).
    assert (0 < 2 ^ Zpos k) by (apply Z.pow_pos_nonneg; lia).
    split; [|split; [nia|lia]].
    apply binary_round_aux_fits; [|lia].
    apply Zdigits2_unique; [|lia]. change (53 - 1) with 52. nia.
Qed.

(** Escalating a fee of at most 53 bits by a factor with a mantissa of at
    most 53 bits at an exponent that is not positive gives a finite
    number. *)
Lemma BigInt_floor_mul_finite g my ey :
  0 <= g < 2 ^ 53 -> Zpos my < 2 ^ 53 -> ey <= 0 ->
  is_Some (BigInt_floor (mul (ofBigInt g) (S754_finite false my ey))).
Proof.
  intros Hg Hmy Hey. destruct (Z.eq_dec g 0) as [->|Hnz]; [by eexists|].
  destruct (ofBigInt_small g ltac:(lia)) as (mx & ex & -> & Hmx & Hex).
  unfold mul, SFmul. cbn [xorb].
  pose proof (binary_round_aux_finite false (Zpos (mx * my)) (ex + ey) loc_Exact) as Hfin.
  assert (H106 : 2 ^ 106 = 2 ^ 53 * 2 ^ 53) by done.
  rewrite Pos2Z.inj_mul in Hfin.
  specialize (Hfin ltac:(nia) ltac:(lia)). rewrite <- Pos2Z.inj_mul in Hfin.
  destruct (binary_round_aux prec emax false _ _ _) as [s|[|]| |[|] m' e']; try done;
    by eexists.
Qed.

(** Escalating a fee of at most 53 bits by a factor between one and two
    gives a fee, and one that is not lower. *)
Lemma BigInt_floor_mul_total g inc :
  0 <= g < 2 ^ 53 -> is_number inc = true ->
  le (ofBigInt 1) inc = true -> le inc (ofBigInt 2) = true ->
  exists g', BigInt_floor (mul (ofBigInt g) inc) = Some g' /\ g <= g'.
Proof.
  intros Hg Hnum Hone Htwo.
  assert (Hfin : is_Some (BigInt_floor (mul (ofBigInt g) inc))).
  { revert Hnum Hone Htwo. unfold is_number, le, SFleb.
    change (ofBigInt 1) with (S754_finite false 4503599627370496 (-52)).
    change (ofBigInt 2) with (S754_finite false 4503599627370496 (-51)).
    destruct inc as [s|[|]| |[|] m e]; cbn [SFcompare valid_binary]; try done.
    intros Hvalid _ Htwo. apply BigInt_floor_mul_finite; [done| |].
    - unfold bounded, canonical_mantissa, fexp, emin, prec, emax in Hvalid.
      apply andb_prop in Hvalid as [Hcanon _]. apply Z.eqb_eq in Hcanon.
      pose proof (digits2_pos_bounds m) as [_ Hhi].
      assert (2 ^ Zpos (digits2_pos m) <= 2 ^ 53) by (apply Z.pow_le_mono_r; lia). lia.
    - destruct (Z.compare_spec e (-51)) as [->|Hlt|Hgt]; [lia|lia|done]. }
  destruct Hfin as [g' Hg']. exists g'. split; [done|].
  by eapply BigInt_floor_mul_ge.
Qed.

(** *** The sign of a converted integer *)

Lemma binary_round_aux_opp m e l :
  binary_round_aux prec emax true m e l = SFopp (binary_round_aux prec emax false m e l).
Proof.
  unfold binary_round_aux. destruct (shr_fexp prec emax m e l) as [r1 e1].
  destruct (shr_fexp prec emax _ e1 loc_Exact) as [r2 e2].
  destruct (shr_m r2) as [|p|p]; [done| |done]. by destruct (e2 <=? emax - prec).
Qed.

(** The conversion of a positive integer, at either sign: a finite number
    that is not zero, or an infinity. *)
Lemma binary_round_from_one s p :
  match binary_round prec emax s p 0 with
  | S754_finite s' _ _ | S754_infinity s' => s' = s
  | _ => False
  end.
Proof.
  assert (Hpos : match binary_round prec emax false p 0 with
                 | S754_finite false _ _ | S754_infinity false => True
                 | _ => False
                 end).
  { unfold binary_round. destruct (shl_align p 0 _) as [mz ez] eqn:Hs.
    pose proof (binary_round_aux_at_most 1 mz ez ltac:(done)) as Hr.
    assert (Hone : at_most 1 (Zpos p) 0).
    { unfold at_most. change (Z.max 0 (- 0)) with 0. change (Z.max 0 0) with 0.
      rewrite Z.pow_0_r. lia. }
    assert (Hval : at_most 1 (Zpos mz) ez).
    { unfold shl_align in Hs.
      destruct (fexp prec emax (Zpos (digits2_pos p) + 0) - 0) as [|d|d] eqn:Hd;
        injection Hs as <- <-; try done.
      rewrite iter_xO_pow.
      replace (fexp prec emax (Zpos (digits2_pos p) + 0)) with (0 - Zpos d) by lia.
      apply at_most_scale; [lia|lia|done]. }
    specialize (Hr Hval).
    by destruct (binary_round_aux prec emax false _ _ _) as [?|[|]| |[|] ? ?]. }
  destruct s; [|by destruct (binary_round prec emax false p 0) as [?|[|]| |[|] ? ?]].
  unfold binary_round in *. destruct (shl_align p 0 _) as [mz ez].
  rewrite binary_round_aux_opp.
  by destruct (binary_round_aux prec emax false _ _ _) as [?|[|]| |[|] ? ?].
Qed.

(** [Number(z)] has the sign of the integer [z], and is zero only for 0. *)
Lemma sort_sign_ofBigInt z : sort_sign (ofBigInt z) = Z.sgn z.
Proof.
  destruct z as [|p|p]; [done| |].
  - unfold ofBigInt, binary_normalize. pose proof (binary_round_from_one false p) as H.
    by destruct (binary_round prec emax false p 0) as [?|[|]| |[|] ? ?].
  - unfold ofBigInt, binary_normalize. pose proof (binary_round_from_one true p) as H.
    by destruct (binary_round prec emax true p 0) as [?|[|]| |[|] ? ?].
Qed.

(** *** A number compared with itself *)

(** [x - x] is [+0], or [NaN] when [x] is not finite. *)
Lemma sub_diag x : sub x x = S754_zero false \/ sub x x = NaN.
Proof.
  destruct x as [[|]|[|]| |s m e]; try (by left); try (by right).
  left. unfold sub, SFsub. by rewrite Z.sub_diag.
Qed.

(** The relative change [(x - x) / x] is [+0], [-0] or [NaN]: it is
    neither above a positive number nor below a negative one. *)
Lemma relative_change_diag x c :
  positive_finite c = true ->
  gt (div (sub x x) x) c = false /\ lt (div (sub x x) x) (opp c) = false.
Proof.
  intros Hc. destruct c as [| | |[|] mc ec]; try done.
  destruct (sub_diag x) as [-> | ->]; [|by destruct x].
  by destruct x as [[|]|[|]| |[|] m e].
Qed.

End JSNumberProofs.

(** ** GasOptimizer *)

Module GasOptimizerProofs.
Import JSNumber JSNumberSpec JSNumberProofs GasOptimizer GasOptimizerSpec.

(** The base fee that [calculateOptimalGasPrice] computes is never below the
    configured minimum. *)
Lemma calculateOptimalGasPrice_try_min cfg congestionLevel currentGasPrice price :
  calculateOptimalGasPrice_try cfg congestionLevel currentGasPrice = Some price ->
  exists lowest,
    BigInt (mul (minGasPrice cfg) (ofBigInt 1000000000)) = Some lowest /\
    lowest <= price.
Proof.
  unfold calculateOptimalGasPrice_try.
  destruct (BigInt_floor (mul (ofBigInt currentGasPrice) _)) as [optimal|]; [|done].
  cbn [mbind option_bind].
  destruct (BigInt_floor (mul (ofBigInt optimal) _)) as [buffered|]; [|done].
  cbn [mbind option_bind].
  destruct (BigInt (mul (minGasPrice cfg) _)) as [lowest|]; [|done].
  cbn [mbind option_bind]. intros [= <-]. exists lowest. split; [done|].
  destruct (buffered >? lowest) eqn:Hgt; [|lia].
  apply Z.gtb_lt in Hgt. lia.
Qed.

(** It is the buffered price whenever that is above the minimum: there is
    no upper limit on this path. *)
Lemma calculateOptimalGasPrice_try_unbounded cfg congestionLevel currentGasPrice
    optimal buffered lowest :
  BigInt_floor (mul (ofBigInt currentGasPrice) (gasPriceMultiplier congestionLevel))
    = Some optimal ->
  BigInt_floor (mul (ofBigInt optimal) (gasPriceBuffer cfg)) = Some buffered ->
  BigInt (mul (minGasPrice cfg) (ofBigInt 1000000000)) = Some lowest ->
  lowest < buffered ->
  calculateOptimalGasPrice_try cfg congestionLevel currentGasPrice = Some buffered.
Proof.
  intros Ho Hb Hl Hlt. unfold calculateOptimalGasPrice_try.
  rewrite Ho. cbn [mbind option_bind]. rewrite Hb. cbn [mbind option_bind].
  rewrite Hl. cbn [mbind option_bind].
  by rewrite (proj2 (Z.gtb_lt _ _) Hlt).
Qed.

(** The urgent fee is clamped to both limits. *)
Lemma getUrgentGasPrice_try_clamped cfg baseGasPrice networkCongestion type price :
  getUrgentGasPrice_try cfg baseGasPrice networkCongestion type = Some price ->
  exists lowest highest,
    BigInt (mul (minGasPrice cfg) (ofBigInt 1000000000)) = Some lowest /\
    BigInt (mul (maxGasPrice cfg) (ofBigInt 1000000000)) = Some highest /\
    (lowest <= highest -> lowest <= price <= highest).
Proof.
  unfold getUrgentGasPrice_try.
  destruct (BigInt_floor _) as [urgent|]; [|done]. cbn [mbind option_bind].
  destruct (BigInt (mul (maxGasPrice cfg) _)) as [highest|]; [|done].
  cbn [mbind option_bind].
  destruct (BigInt (mul (minGasPrice cfg) _)) as [lowest|]; [|done].
  cbn [mbind option_bind]. intros [= <-]. exists lowest, highest.
  split; [done|]. split; [done|]. intros Hle.
  destruct (urgent >? highest) eqn:Hgt; [lia|].
  destruct (urgent <? lowest) eqn:Hlt; [lia|].
  rewrite Z.gtb_ltb in Hgt. apply Z.ltb_ge in Hgt, Hlt. lia.
Qed.

(** C1, at the input where the code departs from it: with the default
    configuration (limits of 1 and 20 gwei, buffer 1.1), an empty history and
    a network price of 100 gwei, [getOptimalGasPrice] returns 110 gwei, above
    the configured maximum of 20 gwei, where [getUrgentGasPrice] returns the
    maximum. *)
Theorem getOptimalGasPrice_exceeds_maxGasPrice :
  getOptimalGasPrice defaultGasConfig [] (feeOf (gwei 100)) = gwei 110 /\
  BigInt (mul (maxGasPrice defaultGasConfig) (ofBigInt 1000000000)) = Some (gwei 20) /\
  gwei 20 < getOptimalGasPrice defaultGasConfig [] (feeOf (gwei 100)) /\
  getUrgentGasPrice defaultGasConfig [] (feeOf (gwei 100)) LAUNCH = gwei 20.
Proof. vm_compute. repeat split; reflexivity. Qed.

(** With fewer than ten samples the congestion score is 0.5. *)
Lemma getNetworkCongestion_short gasPriceHistory :
  (length gasPriceHistory < 10)%nat ->
  getNetworkCongestion gasPriceHistory = lit 5 10.
Proof.
  intros Hlen. unfold getNetworkCongestion.
  by rewrite (proj2 (Nat.ltb_lt _ _) Hlen).
Qed.

Lemma fold_add_nonnegative {A} (f : A -> number) (l : list A) (a : number) :
  nonnegative a = true ->
  Forall (fun x => nonnegative (f x) = true) l ->
  nonnegative (fold_left (fun sum x => add sum (f x)) l a) = true.
Proof.
  intros Ha Hl. revert a Ha.
  induction Hl as [|x l Hx Hl IH]; intros a Ha; cbn [fold_left]; [done|].
  apply IH. by apply add_nonnegative.
Qed.

Lemma ofBigInt_not_NaN z : not_NaN (ofBigInt z) = true.
Proof. destruct z; [done| |]; apply binary_round_not_NaN. Qed.

Lemma slice_last_length {A} (n : nat) (l : list A) :
  (0 < n <= length l)%nat -> length (slice_last n l) = n.
Proof.
  intros Hn. unfold slice_last. destruct n as [|n]; [lia|].
  rewrite length_drop. lia.
Qed.

(** X2: away from a zero (or otherwise degenerate) mean, the score of
    [getNetworkCongestion] does lie in the unit interval: a history of at
    least ten samples whose computed mean is a positive finite number gives
    a score between 0 and 1. *)
Lemma getNetworkCongestion_unit_interval gasPriceHistory :
  (10 <= length gasPriceHistory)%nat ->
  positive_finite (averagePrice gasPriceHistory) = true ->
  le (ofBigInt 0) (getNetworkCongestion gasPriceHistory) = true /\
  le (getNetworkCongestion gasPriceHistory) (ofBigInt 1) = true.
Proof.
  intros Hlen Havg. unfold getNetworkCongestion.
  rewrite (proj2 (Nat.ltb_ge _ _) Hlen). cbv zeta.
  fold (averagePrice gasPriceHistory).
  apply Math_min_one, mul_nonnegative; [|done].
  apply div_nonnegative; [|done].
  apply Math_sqrt_nonnegative, div_nonnegative.
  - apply (fold_add_nonnegative
             (fun data => Math_pow2 (sub (ofBigInt (gasPrice data))
                                         (averagePrice gasPriceHistory)))); [done|].
    apply Forall_forall. intros data _.
    apply Math_pow2_nonnegative, sub_not_NaN; [apply ofBigInt_not_NaN|done].
  - rewrite slice_last_length by lia. done.
Qed.

(** The lemma applies to a history of ten samples of 5 gwei. *)
Lemma getNetworkCongestion_steady :
  le (ofBigInt 0) (getNetworkCongestion (replicate 10 (sample (gwei 5)))) = true /\
  le (getNetworkCongestion (replicate 10 (sample (gwei 5)))) (ofBigInt 1) = true.
Proof. by apply getNetworkCongestion_unit_interval; [vm_compute; lia|vm_compute]. Defined.

Lemma historyOfNullFees_prices :
  gasPrice <$> historyOfNullFees = replicate 10 0.
Proof. vm_compute. reflexivity. Qed.

(** C3, at the input where the code departs from it: after ten refreshes
    against a provider that reports no gas price, the history holds ten
    samples of price 0, the mean is 0 and the congestion score is the
    quotient 0/0, which is [NaN] and lies outside of [0,1]. *)
Theorem getNetworkCongestion_NaN :
  length historyOfNullFees = 10%nat /\
  getNetworkCongestion historyOfNullFees = NaN /\
  le (ofBigInt 0) (getNetworkCongestion historyOfNullFees) = false /\
  le (getNetworkCongestion historyOfNullFees) (ofBigInt 1) = false.
Proof. vm_compute. repeat split; reflexivity. Qed.

(** C9 as stated fails: on a history whose congestion score is 0.85, with
    the default configuration (limits of 1 and 20 gwei) and a network price
    of 5 gwei, the urgent launch fee is 16087500000 and not 14625000000. *)
Lemma getUrgentGasPrice_scenario_A_as_stated :
  getNetworkCongestion congestedHistory = lit 85 100 /\
  BigInt (mul (minGasPrice defaultGasConfig) (ofBigInt 1000000000)) = Some (gwei 1) /\
  BigInt (mul (maxGasPrice defaultGasConfig) (ofBigInt 1000000000)) = Some (gwei 20) /\
  getUrgentGasPrice defaultGasConfig congestedHistory (feeOf (gwei 5)) LAUNCH
    <> 14625000000.
Proof. vm_compute. repeat split; [reflexivity..|discriminate]. Qed.

(** C9, amended: with the optimizer enabled, limits of 1 and 20 gwei, a
    congestion score above 0.8 and a network price of 5 gwei, the urgent
    launch fee applies the base band 1.5, the gas price buffer, the launch
    urgency 1.5 and the extra congestion band 1.3. With the default buffer
    of 1.1 the base recommendation is 8250000000 and the urgent fee is
    16087500000; with a buffer of 1 the urgent fee is 14625000000. Both lie
    within the limits. *)
Theorem getUrgentGasPrice_scenario_A cfg gasPriceHistory :
  enabled cfg = true ->
  minGasPrice cfg = ofBigInt 1 -> maxGasPrice cfg = ofBigInt 20 ->
  gt (getNetworkCongestion gasPriceHistory) (lit 8 10) = true ->
  (gasPriceBuffer cfg = lit 11 10 ->
   getOptimalGasPrice cfg gasPriceHistory (feeOf (gwei 5)) = 8250000000 /\
   getUrgentGasPrice cfg gasPriceHistory (feeOf (gwei 5)) LAUNCH = 16087500000) /\
  (gasPriceBuffer cfg = ofBigInt 1 ->
   getOptimalGasPrice cfg gasPriceHistory (feeOf (gwei 5)) = 7500000000 /\
   getUrgentGasPrice cfg gasPriceHistory (feeOf (gwei 5)) LAUNCH = 14625000000).
Proof.
  intros Hon Hmin Hmax Hband.
  destruct cfg as [on dynamic buffer priorityBuffer highest lowest size threshold tips tip].
  cbn in Hon, Hmin, Hmax. subst on lowest highest.
  split; cbn [gasPriceBuffer]; intros ->;
    unfold getUrgentGasPrice, getOptimalGasPrice, calculateOptimalGasPrice,
      calculateOptimalGasPrice_try, getUrgentGasPrice_try, urgencyMultiplier,
      gasPriceMultiplier;
    rewrite !Hband; vm_compute; split; reflexivity.
Qed.

Lemma getUrgentGasPrice_scenario_A_default :
  getOptimalGasPrice defaultGasConfig congestedHistory (feeOf (gwei 5)) = 8250000000 /\
  getUrgentGasPrice defaultGasConfig congestedHistory (feeOf (gwei 5)) LAUNCH
    = 16087500000.
Proof.
  apply (getUrgentGasPrice_scenario_A defaultGasConfig congestedHistory);
    reflexivity.
Defined.

(** *** The urgent fee *)

Lemma getUrgentGasPrice_cases cfg gasPriceHistory feeData type lowest highest :
  BigInt (mul (minGasPrice cfg) (ofBigInt 1000000000)) = Some lowest ->
  BigInt (mul (maxGasPrice cfg) (ofBigInt 1000000000)) = Some highest ->
  lowest <= highest ->
  lowest <= getUrgentGasPrice cfg gasPriceHistory feeData type <= highest \/
  getUrgentGasPrice cfg gasPriceHistory feeData type = 10 * 1000000000.
Proof.
  intros Hlo Hhi Hle. unfold getUrgentGasPrice.
  destruct (getUrgentGasPrice_try cfg _ _ type) as [price|] eqn:Htry; [|by right].
  apply getUrgentGasPrice_try_clamped in Htry as (lo & hi & Hlo' & Hhi' & Hrange).
  left. rewrite Hlo in Hlo'. rewrite Hhi in Hhi'. injection Hlo' as <-.
  injection Hhi' as <-. by apply Hrange.
Qed.

Lemma getUrgentGasPrice_range cfg gasPriceHistory feeData type lowest highest :
  BigInt (mul (minGasPrice cfg) (ofBigInt 1000000000)) = Some lowest ->
  BigInt (mul (maxGasPrice cfg) (ofBigInt 1000000000)) = Some highest ->
  lowest <= 10 * 1000000000 <= highest ->
  lowest <= getUrgentGasPrice cfg gasPriceHistory feeData type <= highest.
Proof.
  intros Hlo Hhi Hten.
  destruct (getUrgentGasPrice_cases cfg gasPriceHistory feeData type lowest highest)
    as [?| ->]; [done|done|lia|done|done].
Qed.

(** X1: the urgent fee keeps to the configured limits, or is 10 gwei:
    whatever the history of prices, the fee reading (a failing provider
    included) and the kind of transaction, when both limits times 1e9 are
    integers [getUrgentGasPrice] returns a price between the minimum and the
    maximum, or its fallback of 10 gwei, and then the fallback is taken
    only when the escalated price is not a finite number; with such limits
    that contain 10 gwei, as the default ones do, the result is always
    within the limits. When a limit times 1e9 is not an integer (a minimum
    of 4.1 gwei is 4099999999.9999995), or the escalated price is not
    finite, the result is the fallback of 10 gwei. *)
Theorem getUrgentGasPrice_within_limits cfg gasPriceHistory feeData type :
  let price := getUrgentGasPrice cfg gasPriceHistory feeData type in
  let lowest := BigInt (mul (minGasPrice cfg) (ofBigInt 1000000000)) in
  let highest := BigInt (mul (maxGasPrice cfg) (ofBigInt 1000000000)) in
  let escalated :=
    BigInt_floor (mul (ofBigInt (getOptimalGasPrice cfg gasPriceHistory feeData))
                      (urgencyMultiplier type (getNetworkCongestion gasPriceHistory))) in
  (forall lo hi, lowest = Some lo -> highest = Some hi -> lo <= hi ->
     (lo <= price <= hi \/ (price = 10 * 1000000000 /\ escalated = None)) /\
     (lo <= 10 * 1000000000 <= hi -> lo <= price <= hi)) /\
  (lowest = None \/ highest = None \/ escalated = None -> price = 10 * 1000000000).
Proof.
  intros price lowest highest escalated. split.
  - intros lo hi Hlo Hhi Hle. split; [|by apply getUrgentGasPrice_range].
    subst price. unfold getUrgentGasPrice.
    destruct (getUrgentGasPrice_try cfg _ _ type) as [price|] eqn:Htry.
    + apply getUrgentGasPrice_try_clamped in Htry as (lo' & hi' & Hlo' & Hhi' & Hrange).
      left. fold lowest in Hlo'. fold highest in Hhi'.
      rewrite Hlo in Hlo'. rewrite Hhi in Hhi'. injection Hlo' as <-.
      injection Hhi' as <-. by apply Hrange.
    + right. split; [done|]. unfold getUrgentGasPrice_try in Htry.
      fold escalated highest lowest in Htry.
      destruct escalated as [urgent|]; [|done]. exfalso.
      cbn [mbind option_bind] in Htry. rewrite Hhi in Htry.
      cbn [mbind option_bind] in Htry. rewrite Hlo in Htry. done.
  - intros Hnone. subst price. unfold getUrgentGasPrice, getUrgentGasPrice_try.
    fold escalated highest lowest.
    destruct escalated as [urgent|]; [|done]. cbn [mbind option_bind].
    destruct highest as [hi|]; [|done]. cbn [mbind option_bind].
    destruct lowest as [lo|]; [|done]. by destruct Hnone as [?|[?|?]].
Qed.

Lemma getUrgentGasPrice_default_limits :
  gwei 1 <= getUrgentGasPrice defaultGasConfig [] (feeOf (gwei 100)) LAUNCH <= gwei 20 /\
  BigInt (mul (minGasPrice fractionalMinimum) (ofBigInt 1000000000)) = None /\
  getUrgentGasPrice fractionalMinimum [] (feeOf (gwei 5)) LAUNCH = gwei 10.
Proof.
  split; [|split; [reflexivity|]].
  - apply (getUrgentGasPrice_within_limits defaultGasConfig [] (feeOf (gwei 100)) LAUNCH);
      [reflexivity|reflexivity|vm_compute; discriminate|].
    unfold gwei. lia.
  - apply (getUrgentGasPrice_within_limits fractionalMinimum [] (feeOf (gwei 5)) LAUNCH).
    by left.
Defined.

(** *** The history of prices *)

(** X3: a refresh against a provider that answers with a gas price below
    2^511 in magnitude appends the new sample, whose congestion score is the
    one of the history before it, and keeps the most recent
    [gasPriceHistorySize] samples; a size of 0 keeps them all, since
    [slice(-0)] is the whole array, so that the history then grows with
    every refresh. A gas price of 2^511 or more in magnitude cannot be
    formatted for the recommendation: the refresh leaves the history as it
    is. *)
Theorem updateGasPriceHistory_keeps_recent cfg gasPriceHistory fd now :
  let history' := updateGasPriceHistory cfg gasPriceHistory (Some fd) now in
  let pushed := S (length gasPriceHistory) in
  (Z.abs (orZero (fee_gasPrice fd)) < 2 ^ 511 ->
   length history' =
     (if (gasPriceHistorySize cfg =? 0)%nat then pushed
      else pushed `min` gasPriceHistorySize cfg)%nat /\
   (exists older, gasPriceHistory = older ++ take (length history' - 1) history') /\
   exists data, last history' = Some data /\
     gasPrice data = orZero (fee_gasPrice fd) /\ timestamp data = now /\
     networkCongestion data = getNetworkCongestion gasPriceHistory) /\
  (2 ^ 511 <= Z.abs (orZero (fee_gasPrice fd)) -> history' = gasPriceHistory).
Proof.
  cbn zeta. unfold updateGasPriceHistory, getGasPriceRecommendation,
    Ethers.Number_formatUnits, Ethers.formatUnits_throws.
  split; intros Hprice.
  2: { by rewrite (proj2 (Z.leb_le _ _) Hprice). }
  rewrite (proj2 (Z.leb_gt _ _) Hprice). cbn [mbind option_bind].
  set (data := {| gasPrice := orZero (fee_gasPrice fd) |}).
  assert (Hlen : length (gasPriceHistory ++ [data]) = S (length gasPriceHistory))
    by (rewrite length_app; cbn; lia).
  rewrite Hlen.
  destruct (gasPriceHistorySize cfg) as [|size] eqn:Hsize.
  - cbn [Nat.ltb Nat.leb Nat.eqb slice_last]. rewrite Hlen. split; [done|]. split.
    + exists []. cbn [app]. replace (S (length gasPriceHistory) - 1)%nat
        with (length gasPriceHistory) by lia. by rewrite take_app_length.
    + exists data. by rewrite last_snoc.
  - cbn [Nat.eqb].
    destruct (S size <? S (length gasPriceHistory))%nat eqn:Hlt.
    + apply Nat.ltb_lt in Hlt. unfold slice_last. rewrite Hlen.
      rewrite length_drop, Hlen. split; [lia|]. split.
      * exists (take (length gasPriceHistory - size) gasPriceHistory).
        replace (S (length gasPriceHistory) - S size)%nat
          with (length gasPriceHistory - size)%nat by lia.
        rewrite drop_app_le by lia.
        rewrite take_app_le by (rewrite length_drop; lia).
        rewrite (take_ge (drop (length gasPriceHistory - size) gasPriceHistory))
          by (rewrite length_drop; lia).
        by rewrite take_drop.
      * exists data. split; [|done].
        rewrite drop_app_le by lia. by rewrite last_snoc.
    + apply Nat.ltb_ge in Hlt. rewrite Hlen. split; [lia|]. split.
      * exists []. cbn [app]. replace (S (length gasPriceHistory) - 1)%nat
          with (length gasPriceHistory) by lia. by rewrite take_app_length.
      * exists data. by rewrite last_snoc.
Qed.

Lemma updateGasPriceHistory_first_refresh :
  length (updateGasPriceHistory defaultGasConfig [] (feeOf (gwei 5)) 1700000000000)
    = 1%nat /\
  updateGasPriceHistory defaultGasConfig [sample (gwei 5)] (feeOf (2 ^ 511)) 1700000000000
    = [sample (gwei 5)].
Proof.
  pose proof (updateGasPriceHistory_keeps_recent defaultGasConfig []
                {| fee_gasPrice := Some (gwei 5);
                   fee_maxPriorityFeePerGas := Some 0;
                   fee_maxFeePerGas := Some (gwei 5) |} 1700000000000) as [Hfits _].
  pose proof (updateGasPriceHistory_keeps_recent defaultGasConfig [sample (gwei 5)]
                {| fee_gasPrice := Some (2 ^ 511);
                   fee_maxPriorityFeePerGas := Some 0;
                   fee_maxFeePerGas := Some (2 ^ 511) |} 1700000000000) as [_ Hbig].
  split; [exact (proj1 (Hfits ltac:(done)))|exact (Hbig ltac:(done))].
Defined.

(** *** The trend *)

(** X4: a history whose last five prices are equal has a STABLE trend, also
    when that price is 0 and the relative change is the undefined 0/0; so
    has every history of fewer than five samples. *)
Theorem getGasPriceTrend_flat gasPriceHistory price :
  Forall (fun data => gasPrice data = price) (slice_last 5 gasPriceHistory) ->
  getGasPriceTrend gasPriceHistory = STABLE.
Proof.
  intros Hflat. unfold getGasPriceTrend.
  destruct (length gasPriceHistory <? 5)%nat eqn:Hlen; [done|].
  apply Nat.ltb_ge in Hlen. cbv zeta.
  pose proof (slice_last_length 5 gasPriceHistory ltac:(lia)) as Hfive.
  destruct (slice_last 5 gasPriceHistory) as [|a [|b [|c [|d [|e [|]]]]]]; try done.
  apply Forall_cons in Hflat as [Ha Hflat]. apply Forall_cons in Hflat as [Hb Hflat].
  apply Forall_cons in Hflat as [Hc Hflat]. apply Forall_cons in Hflat as [Hd Hflat].
  apply Forall_cons in Hflat as [He _].
  cbn [take drop fold_left length]. rewrite Ha, Hb, Hc, Hd, He.
  match goal with |- context [div (sub ?x ?x) ?x] =>
    destruct (relative_change_diag x (lit 5 100)) as [-> ->] end; done.
Qed.

Lemma getGasPriceTrend_no_price :
  getGasPriceTrend (replicate 5 (sample 0)) = STABLE.
Proof.
  apply (getGasPriceTrend_flat (replicate 5 (sample 0)) 0). vm_compute.
  repeat constructor.
Defined.

(** *** The gas budget of a bundle *)

(** X5: the estimate of the cost of a bundle keeps to the limits, and is 0 for
    a wallet count that is not an integer. With limits that contain 10 gwei
    and gas limits that are not negative: when the wallet count is an
    integer [n], a budget that [optimizeBundleGas] returns counts
    [launchGasLimit + buyGasLimit * n] units of gas, prices the launch and
    the buys between the minimum and the maximum gas price, and the estimate
    is its cost plus the validator tips; when the wallet count is no integer,
    [optimizeBundleGas] throws and [estimateBundleGasCost] answers 0. *)
Theorem estimateBundleGasCost_within_limits cfg gasPriceHistory feeLaunch feeBuy
    feePriority launchGasLimit buyGasLimit walletCount lowest highest :
  BigInt (mul (minGasPrice cfg) (ofBigInt 1000000000)) = Some lowest ->
  BigInt (mul (maxGasPrice cfg) (ofBigInt 1000000000)) = Some highest ->
  lowest <= 10 * 1000000000 <= highest ->
  0 <= launchGasLimit -> 0 <= buyGasLimit ->
  let budget := optimizeBundleGas cfg gasPriceHistory feeLaunch feeBuy feePriority
                  launchGasLimit buyGasLimit walletCount in
  let estimate := estimateBundleGasCost cfg gasPriceHistory feeLaunch feeBuy feePriority
                    launchGasLimit buyGasLimit walletCount in
  match BigInt walletCount with
  | None => budget = None /\ estimate = 0
  | Some n =>
      forall optimization, budget = Some optimization ->
        estimate = totalGasCost optimization + validatorTips optimization /\
        totalGasEstimate optimization = launchGasLimit + buyGasLimit * n /\
        lowest <= launchGasPrice optimization <= highest /\
        lowest <= buyGasPrice optimization <= highest /\
        (0 <= n ->
         lowest * totalGasEstimate optimization <= totalGasCost optimization
           <= highest * totalGasEstimate optimization)
  end.
Proof.
  intros Hlo Hhi Hten HL HB. cbn zeta. unfold estimateBundleGasCost, optimizeBundleGas.
  pose proof (getUrgentGasPrice_range cfg gasPriceHistory feeLaunch LAUNCH _ _ Hlo Hhi Hten)
    as Hlaunch.
  pose proof (getUrgentGasPrice_range cfg gasPriceHistory feeBuy BUY _ _ Hlo Hhi Hten)
    as Hbuy.
  destruct (BigInt walletCount) as [n|]; [|done]. cbn [mbind option_bind].
  destruct (if validatorTipsEnabled cfg then _ else _) as [tips|]; [|done].
  cbn [mbind option_bind]. destruct (Ethers.formatUnits_throws _); [done|].
  intros optimization [= <-].
  cbn [totalGasEstimate totalGasCost launchGasPrice buyGasPrice validatorTips].
  split_and!; try done; try lia. intros Hn.
  set (lp := getUrgentGasPrice cfg gasPriceHistory feeLaunch LAUNCH) in *.
  set (bp := getUrgentGasPrice cfg gasPriceHistory feeBuy BUY) in *.
  assert (0 <= buyGasLimit * n) by lia.
  rewrite <- (Z.mul_assoc bp). nia.
Qed.

Lemma estimateBundleGasCost_ten_wallets :
  (exists optimization,
     optimizeBundleGas defaultGasConfig [] (feeOf (gwei 5)) (feeOf (gwei 5)) (feeOf (gwei 5))
                       500000 200000 (ofBigInt 10) = Some optimization /\
     totalGasEstimate optimization = 2500000 /\
     gwei 1 * 2500000 <= totalGasCost optimization <= gwei 20 * 2500000) /\
  estimateBundleGasCost defaultGasConfig [] (feeOf (gwei 5)) (feeOf (gwei 5))
                        (feeOf (gwei 5)) 500000 200000 (lit 5 2) = 0.
Proof.
  split.
  - eexists. split; [vm_compute; reflexivity|]. split; [reflexivity|].
    pose proof (estimateBundleGasCost_within_limits defaultGasConfig []
                  (feeOf (gwei 5)) (feeOf (gwei 5)) (feeOf (gwei 5)) 500000 200000
                  (ofBigInt 10) (gwei 1) (gwei 20)
                  eq_refl eq_refl ltac:(unfold gwei; lia) ltac:(lia) ltac:(lia)) as Hbudget.
    cbn zeta in Hbudget. change (BigInt (ofBigInt 10)) with (Some 10) in Hbudget.
    destruct (Hbudget _ eq_refl) as (_ & _ & _ & _ & Hcost). apply Hcost. lia.
  - pose proof (estimateBundleGasCost_within_limits defaultGasConfig []
                  (feeOf (gwei 5)) (feeOf (gwei 5)) (feeOf (gwei 5)) 500000 200000
                  (lit 5 2) (gwei 1) (gwei 20)
                  eq_refl eq_refl ltac:(unfold gwei; lia) ltac:(lia) ltac:(lia)) as Hnone.
    cbn zeta in Hnone. change (BigInt (lit 5 2)) with (@None Z) in Hnone.
    exact (proj2 Hnone).
Defined.

End GasOptimizerProofs.

(** ** BatchProcessor *)

Module BatchProcessorProofs.
Import JSNumber JSNumberSpec BatchProcessor BatchProcessorSpec.

Ltac heap_at r Hr :=
  cbn [heap assign set_heap set_sent confirm fst snd];
  rewrite ?lookup_alter_eq, ?Hr; cbn [fmap option_fmap option_map].

Ltac heap_off :=
  cbn [heap assign set_heap set_sent confirm fst snd];
  rewrite ?lookup_alter_ne by done.

Lemma executeTransaction_other env r s r' :
  r' <> r -> heap (executeTransaction env r s).2 !! r' = heap s !! r'.
Proof.
  intros Hne. unfold executeTransaction.
  destruct (heap s !! r) as [tx|]; [|done].
  destruct (wallet tx); [|done].
  destruct (sendTransaction env _) as [|h|h rc]; [done| by heap_off |].
  destruct (receipt_status rc =? 1); by heap_off.
Qed.

Lemma executeTransaction_self env r s tx :
  heap s !! r = Some tx ->
  exists tx', heap (executeTransaction env r s).2 !! r = Some tx' /\
    same_request tx tx' /\ retryCount tx' = retryCount tx /\
    gasPrice tx' = gasPrice tx /\ priorityFee tx' = priorityFee tx.
Proof.
  intros Hr. unfold executeTransaction. rewrite Hr.
  destruct (wallet tx); [|by exists tx].
  destruct (sendTransaction env _) as [|h|h rc].
  - by exists tx.
  - eexists. heap_at r Hr. by split.
  - destruct (receipt_status rc =? 1); eexists; heap_at r Hr; by split.
Qed.

Lemma executeTransaction_processor env r s :
  same_processor s (executeTransaction env r s).2.
Proof.
  unfold executeTransaction.
  destruct (heap s !! r) as [tx|]; [|done].
  destruct (wallet tx); [|done].
  destruct (sendTransaction env _) as [|h|h rc]; [done|done|].
  by destruct (receipt_status rc =? 1).
Qed.

(** The calls of [sendTransaction] made by [executeTransaction]. *)
Lemma executeTransaction_sent env r s :
  sent (executeTransaction env r s).2 =
  sent s ++
    match heap s !! r with
    | Some tx =>
        match wallet tx with
        | Some _ => [{| sub_tx := r; sub_nonce := nonce tx; sub_gasPrice := gasPrice tx;
                        sub_priorityFee := priorityFee tx;
                        sub_maxFeePerGas := maxFeePerGas tx |}]
        | None => []
        end
    | None => []
    end.
Proof.
  unfold executeTransaction.
  destruct (heap s !! r) as [tx|]; [|by rewrite app_nil_r].
  destruct (wallet tx); [|by rewrite app_nil_r].
  destruct (sendTransaction env _) as [|h|h rc]; [done|done|].
  by destruct (receipt_status rc =? 1).
Qed.

Lemma same_request_refl tx : same_request tx tx.
Proof. done. Qed.

Lemma same_request_trans a b c : same_request a b -> same_request b c -> same_request a c.
Proof. unfold same_request. intros (?&?&?&?&?) (?&?&?&?&?). split_and!; congruence. Qed.

Lemma same_processor_trans a b c : same_processor a b -> same_processor b c -> same_processor a c.
Proof. unfold same_processor. intros (?&?&?&?&?) (?&?&?&?&?). split_and!; congruence. Qed.

Lemma confirm_self r res s tx :
  heap s !! r = Some tx ->
  exists tx', heap (confirm r res s) !! r = Some tx' /\ same_request tx tx' /\
    status tx' = CONFIRMED /\ retryCount tx' = retryCount tx /\
    gasPrice tx' = gasPrice tx /\ priorityFee tx' = priorityFee tx.
Proof. intros Hr. eexists. heap_at r Hr. by split. Qed.

(** [retryTransaction] on an allocated transaction. *)
Lemma retryTransaction_self cfg env r s tx :
  heap s !! r = Some tx ->
  exists tx', heap (retryTransaction cfg env r s) !! r = Some tx' /\
    same_request tx tx' /\ terminal (status tx') /\
    retryCount tx' = retryCount tx + 1 /\
    match BigInt_floor (mul (ofBigInt (gasPrice tx)) (gasPriceIncrement cfg)) with
    | Some g => gasPrice tx' = g
    | None => gasPrice tx' = gasPrice tx /\ status tx' = FAILED
    end.
Proof.
  intros Hr. unfold retryTransaction. rewrite Hr.
  destruct (BigInt_floor (mul (ofBigInt (gasPrice tx)) _)) as [g|].
  2:{ eexists. heap_at r Hr. split; [done|]. split; [done|]. split; [by right|]. done. }
  destruct (BigInt_floor (mul (ofBigInt (priorityFee tx)) _)) as [p|].
  2:{ eexists. heap_at r Hr. split; [done|]. split; [done|]. split; [by right|]. done. }
  match goal with |- context [executeTransaction env r ?s2] =>
    set (s2' := s2);
    assert (H2 : heap s2' !! r = Some (set_priorityFee p (set_gasPrice g
                   (set_status RETRY (set_retryCount (retryCount tx + 1) tx)))))
      by (subst s2'; heap_at r Hr; done)
  end.
  destruct (executeTransaction_self env r s2' _ H2) as (tx3 & H3 & Hreq & Hrc & Hg & Hp).
  destruct (executeTransaction env r s2') as [res s3]. cbn [snd] in H3.
  destruct (exec_success res).
  - destruct (confirm_self r res s3 tx3 H3) as (tx4 & H4 & Hreq4 & Hst & Hrc4 & Hg4 & Hp4).
    exists tx4. split; [done|]. split; [|split; [left; done|]].
    + eapply same_request_trans; [|exact Hreq4]. eapply same_request_trans; [|exact Hreq]. done.
    + rewrite Hrc4, Hrc, Hg4, Hg. done.
  - eexists. heap_at r H3. split; [done|]. split; [|split; [by right|]].
    + eapply same_request_trans; [|exact Hreq]. done.
    + cbn. rewrite Hrc, Hg. done.
Qed.

Lemma retryTransaction_other cfg env r s r' :
  r' <> r -> heap (retryTransaction cfg env r s) !! r' = heap s !! r'.
Proof.
  intros Hne. unfold retryTransaction.
  destruct (heap s !! r) as [tx|]; [|done].
  destruct (BigInt_floor (mul (ofBigInt (gasPrice tx)) _)) as [g|]; [|by heap_off].
  destruct (BigInt_floor (mul (ofBigInt (priorityFee tx)) _)) as [p|]; [|by heap_off].
  match goal with |- context [executeTransaction env r ?s2] =>
    pose proof (executeTransaction_other env r s2 r' Hne) as Ho;
    destruct (executeTransaction env r s2) as [res s3] end.
  cbn [snd] in Ho.
  destruct (exec_success res); heap_off; rewrite Ho; by heap_off.
Qed.

Lemma retryTransaction_processor cfg env r s :
  same_processor s (retryTransaction cfg env r s).
Proof.
  unfold retryTransaction.
  destruct (heap s !! r) as [tx|]; [|done].
  destruct (BigInt_floor (mul (ofBigInt (gasPrice tx)) _)) as [g|]; [|done].
  destruct (BigInt_floor (mul (ofBigInt (priorityFee tx)) _)) as [p|]; [|done].
  match goal with |- context [executeTransaction env r ?s2] =>
    pose proof (executeTransaction_processor env r s2) as Ho;
    destruct (executeTransaction env r s2) as [res s3] end.
  cbn [snd] in Ho. by destruct (exec_success res).
Qed.

Ltac no_submission :=
  exists []; cbn [sent assign set_heap length]; rewrite app_nil_r;
  split_and!; [done | lia | constructor].

(** A retry calls [sendTransaction] at most once, for its transaction. *)
Lemma retryTransaction_sent cfg env r s :
  exists subs, sent (retryTransaction cfg env r s) = sent s ++ subs /\
    (length subs <= 1)%nat /\ Forall (fun x => sub_tx x = r) subs.
Proof.
  unfold retryTransaction.
  destruct (heap s !! r) as [tx|]; [|no_submission].
  destruct (BigInt_floor (mul (ofBigInt (gasPrice tx)) _)) as [g|]; [|no_submission].
  destruct (BigInt_floor (mul (ofBigInt (priorityFee tx)) _)) as [p|]; [|no_submission].
  match goal with |- context [executeTransaction env r ?s2] =>
    pose proof (executeTransaction_sent env r s2) as Ho;
    destruct (executeTransaction env r s2) as [res s3] end.
  cbn [snd] in Ho. eexists.
  split; [destruct (exec_success res); cbn [confirm assign set_heap sent]; exact Ho|].
  destruct (heap _ !! r) as [tx'|]; [destruct (wallet tx')|]; cbn [length];
    (split; [lia | repeat constructor]).
Qed.

(** The state after the task of a transaction does not depend on the
    counters. *)
Lemma processTransaction_state cfg env r acc acc' s :
  (processTransaction cfg env r acc s).2 = (processTransaction cfg env r acc' s).2.
Proof.
  unfold processTransaction.
  destruct (executeTransaction env r s) as [res s1].
  destruct (exec_success res); [done|].
  destruct (heap (assign r (set_status FAILED) s1) !! r) as [tx|]; [|done].
  by destruct (retryCount tx <? retryAttempts cfg).
Qed.

Lemma processTransaction_other cfg env r acc s r' :
  r' <> r -> heap (processTransaction cfg env r acc s).2 !! r' = heap s !! r'.
Proof.
  intros Hne. unfold processTransaction.
  pose proof (executeTransaction_other env r s r' Hne) as Ho.
  destruct (executeTransaction env r s) as [res s1]. cbn [snd] in Ho.
  destruct (exec_success res); [heap_off; by rewrite Ho|].
  destruct (heap (assign r (set_status FAILED) s1) !! r) as [tx|]; [|heap_off; by rewrite Ho].
  destruct (retryCount tx <? retryAttempts cfg); cbn [snd].
  - rewrite retryTransaction_other by done. heap_off. by rewrite Ho.
  - heap_off. by rewrite Ho.
Qed.

Lemma processTransaction_processor cfg env r acc s :
  same_processor s (processTransaction cfg env r acc s).2.
Proof.
  unfold processTransaction.
  pose proof (executeTransaction_processor env r s) as Ho.
  destruct (executeTransaction env r s) as [res s1]. cbn [snd] in Ho.
  destruct (exec_success res); [done|].
  destruct (heap (assign r (set_status FAILED) s1) !! r) as [tx|]; [|done].
  destruct (retryCount tx <? retryAttempts cfg); [|done]. cbn [snd].
  eapply same_processor_trans; [|apply retryTransaction_processor]. done.
Qed.

(** The task of an allocated transaction: it ends in a terminal status, and
    either it did not retry, or it retried once while [retryCount] was below
    [retryAttempts], with the escalated gas price. *)
Lemma processTransaction_self cfg env r acc s tx :
  heap s !! r = Some tx ->
  exists tx', heap (processTransaction cfg env r acc s).2 !! r = Some tx' /\
    same_request tx tx' /\ terminal (status tx') /\
    ((retryCount tx' = retryCount tx /\ gasPrice tx' = gasPrice tx /\
      (status tx' = CONFIRMED \/ retryAttempts cfg <= retryCount tx))
     \/
     (retryCount tx < retryAttempts cfg /\ retryCount tx' = retryCount tx + 1 /\
      match BigInt_floor (mul (ofBigInt (gasPrice tx)) (gasPriceIncrement cfg)) with
      | Some g => gasPrice tx' = g
      | None => gasPrice tx' = gasPrice tx /\ status tx' = FAILED
      end)).
Proof.
  intros Hr. unfold processTransaction.
  destruct (executeTransaction_self env r s tx Hr) as (tx1 & H1 & Hreq1 & Hrc1 & Hg1 & Hp1).
  destruct (executeTransaction env r s) as [res s1]. cbn [snd] in H1.
  destruct (exec_success res).
  - destruct (confirm_self r res s1 tx1 H1) as (tx2 & H2 & Hreq2 & Hst & Hrc2 & Hg2 & Hp2).
    exists tx2. cbn [snd]. split; [done|]. split; [by eapply same_request_trans|].
    split; [by left|]. left. split_and!; [congruence|congruence|by left].
  - assert (Hf : heap (assign r (set_status FAILED) s1) !! r = Some (set_status FAILED tx1))
      by (heap_at r H1; done).
    rewrite Hf. cbn [retryCount set_status].
    destruct (retryCount tx1 <? retryAttempts cfg) eqn:Hlt; cbn [snd].
    + destruct (retryTransaction_self cfg env r _ _ Hf) as (tx2 & H2 & Hreq2 & Hterm & Hrc2 & Hg2).
      exists tx2. split; [done|]. split.
      { eapply same_request_trans; [exact Hreq1|]. eapply same_request_trans; [|exact Hreq2]. done. }
      split; [done|]. right. cbn [retryCount gasPrice set_status] in *.
      rewrite Hg1, Hrc1 in *. split; [lia|]. split; [done|]. exact Hg2.
    + exists (set_status FAILED tx1). split; [done|]. split; [done|].
      split; [by right|]. left. cbn. split_and!; [done|done|]. right. lia.
Qed.


Lemma processTransaction_unallocated cfg env r acc s :
  heap s !! r = None -> heap (processTransaction cfg env r acc s).2 !! r = None.
Proof.
  intros Hr. unfold processTransaction, executeTransaction. rewrite Hr.
  cbn [exec_success exec_failure].
  assert (Hf : heap (assign r (set_status FAILED) s) !! r = None) by (heap_at r Hr; done).
  by rewrite Hf.
Qed.

Lemma requests_kept_refl s : requests_kept s s.
Proof. intros r. destruct (heap s !! r); by constructor. Qed.

Lemma requests_kept_trans a b c : requests_kept a b -> requests_kept b c -> requests_kept a c.
Proof.
  intros Hab Hbc r. specialize (Hab r). specialize (Hbc r).
  destruct Hab; inversion Hbc; subst; constructor.
  by eapply same_request_trans.
Qed.

Lemma processTransaction_requests cfg env r acc s :
  requests_kept s (processTransaction cfg env r acc s).2.
Proof.
  intros r'. destruct (decide (r' = r)) as [->|Hne].
  - destruct (heap s !! r) as [tx|] eqn:Hr.
    + destruct (processTransaction_self cfg env r acc s tx Hr) as (tx' & -> & Hreq & _).
      by constructor.
    + rewrite processTransaction_unallocated by done. constructor.
  - rewrite processTransaction_other by done. destruct (heap s !! r'); by constructor.
Qed.

Section Batch.
Variables (cfg : BatchProcessorConfig) (env : Environment).

Lemma processTransactionBatch_state l : forall acc acc' s,
  (processTransactionBatch cfg env l acc s).2 = (processTransactionBatch cfg env l acc' s).2.
Proof.
  induction l as [|r l IH]; intros acc acc' s; [done|]. cbn [processTransactionBatch].
  pose proof (processTransaction_state cfg env r acc acc' s) as Hs.
  destruct (processTransaction cfg env r acc s) as [a1 s1].
  destruct (processTransaction cfg env r acc' s) as [a2 s2]. cbn [snd] in Hs. subst s2.
  apply IH.
Qed.

Lemma processTransactionBatch_app l1 l2 acc s :
  (processTransactionBatch cfg env (l1 ++ l2) acc s).2 =
  (processTransactionBatch cfg env l2 acc (processTransactionBatch cfg env l1 acc s).2).2.
Proof.
  revert acc s. induction l1 as [|r l1 IH]; intros acc s; [done|].
  cbn [processTransactionBatch app].
  destruct (processTransaction cfg env r acc s) as [a1 s1].
  rewrite IH. apply processTransactionBatch_state.
Qed.

Lemma processTransactionBatch_processor l : forall acc s,
  same_processor s (processTransactionBatch cfg env l acc s).2.
Proof.
  induction l as [|r l IH]; intros acc s; [done|]. cbn [processTransactionBatch].
  pose proof (processTransaction_processor cfg env r acc s) as Hp.
  destruct (processTransaction cfg env r acc s) as [a1 s1]. cbn [snd] in Hp.
  eapply same_processor_trans; [exact Hp|apply IH].
Qed.

Lemma processTransactionBatch_requests l : forall acc s,
  requests_kept s (processTransactionBatch cfg env l acc s).2.
Proof.
  induction l as [|r l IH]; intros acc s; [apply requests_kept_refl|].
  cbn [processTransactionBatch].
  pose proof (processTransaction_requests cfg env r acc s) as Hp.
  destruct (processTransaction cfg env r acc s) as [a1 s1]. cbn [snd] in Hp.
  eapply requests_kept_trans; [exact Hp|apply IH].
Qed.

Lemma processTransactionBatch_other l : forall acc s r',
  r' ∉ l -> heap (processTransactionBatch cfg env l acc s).2 !! r' = heap s !! r'.
Proof.
  induction l as [|r l IH]; intros acc s r' Hnot; [done|]. cbn [processTransactionBatch].
  apply not_elem_of_cons in Hnot as [Hne Hnot].
  pose proof (processTransaction_other cfg env r acc s r' Hne) as Hp.
  destruct (processTransaction cfg env r acc s) as [a1 s1]. cbn [snd] in Hp.
  rewrite IH by done. done.
Qed.

(** Every transaction of a batch is left in a terminal status. *)
Lemma processTransactionBatch_terminal l : forall acc s r,
  r ∈ l -> is_Some (heap s !! r) ->
  exists tx', heap (processTransactionBatch cfg env l acc s).2 !! r = Some tx' /\
    terminal (status tx').
Proof.
  induction l as [|r0 l IH]; intros acc s r Hin Halloc; [by apply elem_of_nil in Hin|].
  cbn [processTransactionBatch].
  pose proof (processTransaction_requests cfg env r0 acc s) as Hkept.
  destruct (decide (r ∈ l)) as [Hl|Hl].
  - destruct (processTransaction cfg env r0 acc s) as [a1 s1]. cbn [snd] in Hkept.
    apply IH; [done|]. specialize (Hkept r). destruct Halloc as [tx Htx].
    rewrite Htx in Hkept. inversion Hkept. by eexists.
  - apply elem_of_cons in Hin as [->|Hin]; [|done].
    destruct Halloc as [tx Htx].
    destruct (processTransaction_self cfg env r0 acc s tx Htx) as (tx' & H' & _ & Hterm & _).
    destruct (processTransaction cfg env r0 acc s) as [a1 s1]. cbn [snd] in H'.
    exists tx'. by rewrite processTransactionBatch_other.
Qed.


End Batch.

(** *** The two loops of [processTransactionsInBatches] *)

Lemma slice_take_drop {A} (i n : nat) (l : list A) : slice i (i + n) l = take n (drop i l).
Proof. unfold slice. f_equal. lia. Qed.

Lemma batchesFrom_concat fuel : forall n j (g : list ref),
  (0 < n)%nat -> (length g - j <= fuel)%nat ->
  concat (batchesFrom fuel n j g) = drop j g.
Proof.
  induction fuel as [|fuel IH]; intros n j g Hn Hfuel; cbn [batchesFrom].
  - rewrite drop_ge by lia. done.
  - destruct (j <? length g)%nat eqn:Hj.
    + apply Nat.ltb_lt in Hj. cbn [concat]. rewrite IH by lia.
      rewrite slice_take_drop, <- drop_drop. apply take_drop.
    + apply Nat.ltb_ge in Hj. rewrite drop_ge by lia. done.
Qed.

Lemma batchesOf_concat n (g : list ref) :
  (0 < n)%nat \/ g = [] -> concat (batchesOf n g) = g.
Proof.
  intros [Hn| ->]; [|done]. unfold batchesOf.
  rewrite batchesFrom_concat by lia. done.
Qed.

Lemma batchesOf_group n p i (l : list ref) :
  concat (batchesOf n (slice i (i + n * p) l)) = slice i (i + n * p) l.
Proof.
  apply batchesOf_concat. destruct n as [|n]; [right|left; lia].
  rewrite slice_take_drop. done.
Qed.

Section Groups.
Variables (cfg : BatchProcessorConfig) (env : Environment).

Lemma runBatches_processTransactionBatch batches : forall s,
  (runBatches (runProcessTransactionBatch cfg env) batches s).2 =
  (processTransactionBatch cfg env (concat batches) noCounts s).2.
Proof.
  induction batches as [|b batches IH]; intros s; [done|].
  cbn [runBatches concat]. unfold runProcessTransactionBatch at 1.
  rewrite processTransactionBatch_app.
  destruct (processTransactionBatch cfg env b noCounts s) as [c s1]. cbn [snd].
  specialize (IH s1). destruct (runBatches _ batches s1) as [results s2]. done.
Qed.

(** With the processor's runner, the groups leave the state that one pass
    over the remaining transactions leaves. *)
Lemma groupsFrom_state fuel : forall (l : list ref) i acc s c s',
  groupsFrom fuel cfg (runProcessTransactionBatch cfg env) l i acc s = Some (c, s') ->
  s' = (processTransactionBatch cfg env (drop i l) noCounts s).2.
Proof.
  induction fuel as [|fuel IH]; intros l i acc s c s' Hrun; [done|].
  cbn [groupsFrom] in Hrun.
  destruct (i <? length l)%nat eqn:Hi.
  - pose proof (runBatches_processTransactionBatch
                  (batchesOf (maxBatchSize cfg)
                     (slice i (i + maxBatchSize cfg * parallelBatches cfg) l)) s) as Hb.
    destruct (runBatches _ _ s) as [results s1]. cbn [snd] in Hb.
    apply IH in Hrun. rewrite Hrun, Hb, batchesOf_group, slice_take_drop.
    rewrite <- processTransactionBatch_app, <- drop_drop, take_drop. done.
  - apply Nat.ltb_ge in Hi. injection Hrun as _ <-. rewrite drop_ge by lia. done.
Qed.

(** With a positive step the outer loop ends. *)
Lemma groupsFrom_terminates (run : BatchRunner) fuel : forall (l : list ref) i acc s,
  (0 < maxBatchSize cfg * parallelBatches cfg)%nat ->
  (length l - i < fuel)%nat ->
  is_Some (groupsFrom fuel cfg run l i acc s).
Proof.
  induction fuel as [|fuel IH]; intros l i acc s Hstep Hfuel; [lia|].
  cbn [groupsFrom].
  destruct (i <? length l)%nat eqn:Hi; [|done].
  apply Nat.ltb_lt in Hi.
  destruct (runBatches run _ s) as [results s1].
  apply IH; [done|lia].
Qed.

(** With a step of zero it does not, as soon as there is a transaction. *)
Lemma groupsFrom_diverges (run : BatchRunner) fuel : forall (l : list ref) i acc s,
  (maxBatchSize cfg * parallelBatches cfg = 0)%nat ->
  (i < length l)%nat ->
  groupsFrom fuel cfg run l i acc s = None.
Proof.
  induction fuel as [|fuel IH]; intros l i acc s Hstep Hi; [done|].
  cbn [groupsFrom]. rewrite Hstep, Nat.add_0_r.
  apply Nat.ltb_lt in Hi as Hi'. rewrite Hi'.
  destruct (runBatches run _ s) as [results s1]. by apply IH.
Qed.

End Groups.

(** *** Validation *)

Lemma set_nonce_same tx : set_nonce (nonce tx) tx = tx.
Proof. by destruct tx. Qed.

Lemma only_nonces_refl s : only_nonces s s.
Proof.
  split; [done|]. split; [done|]. intros r. destruct (heap s !! r) as [tx|]; constructor.
  exists (nonce tx). by rewrite set_nonce_same.
Qed.

Lemma only_nonces_trans a b c : only_nonces a b -> only_nonces b c -> only_nonces a c.
Proof.
  intros (Hp1 & Hs1 & Hh1) (Hp2 & Hs2 & Hh2). split; [by eapply same_processor_trans|].
  split; [congruence|]. intros r. specialize (Hh1 r). specialize (Hh2 r).
  destruct Hh1 as [tx tx1 [n ->]|]; inversion Hh2 as [? tx2 [m ->]|]; subst; constructor.
  exists m. done.
Qed.

Lemma validateTransaction_spec env r s :
  (validateTransaction env r s).1 = valid env s r /\
  only_nonces s (validateTransaction env r s).2 /\
  (forall r', valid env (validateTransaction env r s).2 r' = valid env s r').
Proof.
  unfold validateTransaction, valid at 1.
  destruct (heap s !! r) as [tx|] eqn:Hr; [|by split; [|split; [apply only_nonces_refl|]]].
  unfold passesValidation.
  destruct (wallet tx) as [w|] eqn:Hw; [|by split; [|split; [apply only_nonces_refl|]]].
  destruct (falsy (to (transaction tx))) eqn:Hto; cbn [negb andb];
    [by split; [|split; [apply only_nonces_refl|]]|].
  destruct (getBalance env (address w)) as [balance|] eqn:Hbal;
    [|by split; [|split; [apply only_nonces_refl|]]].
  destruct (balance <? _) eqn:Hlt.
  { split; [|by split; [apply only_nonces_refl|]]. cbn [fst].
    apply Z.ltb_lt in Hlt. symmetry. apply andb_false_intro1. apply Z.leb_gt. lia. }
  apply Z.ltb_ge in Hlt. apply Z.leb_le in Hlt.
  destruct (nonce tx =? 0) eqn:Hn; cbn [negb orb].
  2:{ split; [cbn [fst]; by rewrite Hlt|]. by split; [apply only_nonces_refl|]. }
  destruct (getTransactionCount env (address w)) as [n|] eqn:Hcount.
  2:{ split; [|by split; [apply only_nonces_refl|]]. cbn [fst]. rewrite Hlt.
      cbn [andb]. symmetry. apply bool_decide_eq_false. by intros [? ?]. }
  cbn [fst snd]. split; [rewrite Hlt; cbn [andb]; symmetry; by apply bool_decide_eq_true|].
  split.
  - split; [done|]. split; [done|]. intros r'. cbn [heap assign set_heap].
    destruct (decide (r' = r)) as [->|Hne].
    + rewrite lookup_alter_eq, Hr. constructor. by exists n.
    + rewrite lookup_alter_ne by done. destruct (heap s !! r') as [tx'|]; constructor.
      exists (nonce tx'). by rewrite set_nonce_same.
  - intros r'. unfold valid. cbn [heap assign set_heap].
    destruct (decide (r' = r)) as [->|Hne]; [|by rewrite lookup_alter_ne].
    rewrite lookup_alter_eq, Hr. cbn [fmap option_fmap option_map].
    unfold passesValidation. cbn [wallet transaction gasPrice nonce set_nonce].
    rewrite Hw, Hto, Hbal, Hcount, Hn. cbn [negb andb orb]. rewrite Hlt. cbn [andb].
    rewrite orb_true_intro; [done|]. right. by apply bool_decide_eq_true.
Qed.

Lemma validateTransactions_spec env l : forall s,
  (validateTransactions env l s).1 = filter (fun r => valid env s r) l /\
  only_nonces s (validateTransactions env l s).2 /\
  (forall r', valid env (validateTransactions env l s).2 r' = valid env s r').
Proof.
  induction l as [|r l IH]; intros s; [by split; [|split; [apply only_nonces_refl|]]|].
  cbn [validateTransactions].
  destruct (validateTransaction_spec env r s) as (Hok & Hon & Hval).
  destruct (validateTransaction env r s) as [ok s1]. cbn [fst snd] in *.
  destruct (IH s1) as (Hl & Hon' & Hval').
  destruct (validateTransactions env l s1) as [vs s2]. cbn [fst snd] in *.
  split; [|split].
  - rewrite filter_cons. subst ok vs.
    rewrite (list_filter_iff (fun r => valid env s1 r) (fun r => valid env s r))
      by (intros x; by rewrite Hval).
    by destruct (valid env s r).
  - by eapply only_nonces_trans.
  - intros r'. by rewrite Hval', Hval.
Qed.

Lemma valid_allocated env s r : valid env s r -> exists tx, heap s !! r = Some tx /\ wallet tx <> None.
Proof.
  unfold valid. destruct (heap s !! r) as [tx|]; [|done]. intros Hv. exists tx. split; [done|].
  unfold passesValidation in Hv. by destruct (wallet tx).
Qed.

Lemma valid_heap env s s' r : heap s' = heap s -> valid env s' r = valid env s r.
Proof. unfold valid. by intros ->. Qed.

(** What [processBatch] does, step by step. *)
Lemma processBatch_unfold fuel cfg env l s :
  let s2 := (now env (generateBatchId env s).2).2 in
  let vs := (validateTransactions env l s2).1 in
  let s3 := (validateTransactions env l s2).2 in
  heap s2 = heap s /\ sent s2 = sent s /\
  match processBatch fuel cfg env l s with
  | Some (Thrown message, s') =>
      vs = [] /\ message = "No valid transactions in batch" /\ s' = s3
  | Some (Returned result, s') =>
      vs <> [] /\ transactions result = vs /\
      heap s' = heap (processTransactionBatch cfg env vs noCounts s3).2 /\
      sent s' = sent (processTransactionBatch cfg env vs noCounts s3).2
  | None =>
      vs <> [] /\
      processTransactionsInBatches fuel cfg (runProcessTransactionBatch cfg env) vs s3 = None
  end.
Proof.
  unfold processBatch, processBatchWith.
  destruct (generateBatchId env s) as [batchId s1] eqn:Hid.
  assert (Hh1 : heap s1 = heap s /\ sent s1 = sent s).
  { unfold generateBatchId, now in Hid. injection Hid as _ <-. done. }
  cbn [snd]. destruct (now env s1) as [startTime s2] eqn:Hnow.
  assert (Hh2 : heap s2 = heap s1 /\ sent s2 = sent s1).
  { unfold now in Hnow. injection Hnow as _ <-. done. }
  cbn [snd]. destruct (validateTransactions env l s2) as [vs s3]. cbn [fst snd].
  split; [destruct Hh1, Hh2; congruence|]. split; [destruct Hh1, Hh2; congruence|].
  destruct (length vs =? 0)%nat eqn:Hlen.
  { apply Nat.eqb_eq in Hlen. by destruct vs. }
  assert (vs <> []) by (intros ->; done).
  destruct (processTransactionsInBatches fuel cfg _ vs s3) as [[c s4]|] eqn:Hrun; [|done].
  apply groupsFrom_state in Hrun. rewrite drop_0 in Hrun. subst s4.
  unfold now. cbn. done.
Qed.

Lemma validateTransactions_filter env l s s2 :
  heap s2 = heap s ->
  (validateTransactions env l s2).1 = filter (fun r => valid env s r) l.
Proof.
  intros Hh. destruct (validateTransactions_spec env l s2) as (-> & _).
  apply list_filter_iff. intros r. by rewrite (valid_heap env s s2).
Qed.

Lemma processBatch_returns fuel cfg env l s :
  (0 < maxBatchSize cfg)%nat -> (0 < parallelBatches cfg)%nat ->
  (length l < fuel)%nat ->
  is_Some (processBatch fuel cfg env l s).
Proof.
  intros Hn Hp Hfuel.
  pose proof (processBatch_unfold fuel cfg env l s) as (Hh & _ & Hcases).
  destruct (processBatch fuel cfg env l s) as [res|]; [done|].
  destruct Hcases as [_ Hnone]. exfalso.
  rewrite (validateTransactions_filter env l s) in Hnone by done.
  unfold processTransactionsInBatches in Hnone.
  match type of Hnone with groupsFrom _ _ ?run ?vs _ ?acc ?s3 = _ =>
    destruct (groupsFrom_terminates cfg run fuel vs 0 acc s3) as [x Hx] end.
  - lia.
  - pose proof (length_filter (fun r => valid env s r) l). lia.
  - congruence.
Qed.


(** C10: when [processBatch] returns normally, every transaction of the
    batch that passed validation is in the result and its status is
    CONFIRMED or FAILED. *)
Theorem processBatch_statuses_terminal fuel cfg env l s result s' :
  processBatch fuel cfg env l s = Some (Returned result, s') ->
  forall r, r ∈ l -> valid env s r ->
    r ∈ transactions result /\
    exists tx, heap s' !! r = Some tx /\ terminal (status tx).
Proof.
  intros Hrun r Hin Hv.
  pose proof (processBatch_unfold fuel cfg env l s) as (Hh & Hsent & Hcases).
  set (s2 := (now env (generateBatchId env s).2).2) in *.
  rewrite (validateTransactions_filter env l s s2 Hh) in Hcases.
  destruct (validateTransactions_spec env l s2) as (_ & _ & Hvalid).
  set (s3 := (validateTransactions env l s2).2) in *.
  rewrite Hrun in Hcases. destruct Hcases as (_ & Hres & Hheap & _).
  assert (Hr : r ∈ filter (fun r => valid env s r) l) by (by apply list_elem_of_filter).
  split; [by rewrite Hres|]. rewrite Hheap.
  apply processTransactionBatch_terminal; [done|].
  assert (Hv3 : valid env s3 r) by (by rewrite Hvalid, (valid_heap env s s2)).
  apply valid_allocated in Hv3 as (tx & Htx & _). by exists tx.
Qed.

(** *** The queue *)

Section Sort.
Context {A : Type} (compare : A -> A -> Z).
Hypothesis compare_total : forall x y, 0 <= compare x y -> compare y x <= 0.
Hypothesis compare_trans :
  forall x y z, compare x y <= 0 -> compare y z <= 0 -> compare x z <= 0.

Lemma sort_insert_Permutation x l : sort_insert compare x l ≡ₚ x :: l.
Proof.
  induction l as [|y l IH]; cbn [sort_insert]; [done|].
  destruct (compare x y <? 0); [done|]. rewrite IH. apply Permutation_swap.
Qed.

Lemma sort_insert_sorted x l :
  StronglySorted (precedes compare) l -> StronglySorted (precedes compare) (sort_insert compare x l).
Proof.
  induction 1 as [|y l Hl IH Hy]; cbn [sort_insert]; [by repeat constructor|].
  destruct (compare x y <? 0) eqn:Hxy.
  - apply Z.ltb_lt in Hxy. constructor; [by constructor|].
    constructor; [unfold precedes; lia|].
    eapply Forall_impl; [exact Hy|]. intros z Hz. unfold precedes in *. eapply compare_trans; [|exact Hz]. lia.
  - apply Z.ltb_ge in Hxy. constructor; [done|].
    rewrite sort_insert_Permutation. constructor; [by apply compare_total|done].
Qed.

Lemma Array_sort_from_Permutation l : forall acc,
  fold_left (fun sorted x => sort_insert compare x sorted) l acc ≡ₚ acc ++ l.
Proof.
  induction l as [|x l IH]; intros acc; cbn [fold_left]; [by rewrite app_nil_r|].
  rewrite IH, sort_insert_Permutation. apply Permutation_middle.
Qed.

Lemma Array_sort_from_sorted l : forall acc,
  StronglySorted (precedes compare) acc ->
  StronglySorted (precedes compare) (fold_left (fun sorted x => sort_insert compare x sorted) l acc).
Proof.
  induction l as [|x l IH]; intros acc Hacc; cbn [fold_left]; [done|].
  apply IH. by apply sort_insert_sorted.
Qed.

Lemma Array_sort_Permutation l : Array_sort compare l ≡ₚ l.
Proof. unfold Array_sort. by rewrite Array_sort_from_Permutation. Qed.

Lemma Array_sort_sorted l : StronglySorted (precedes compare) (Array_sort compare l).
Proof. apply Array_sort_from_sorted. constructor. Qed.

End Sort.

Lemma StronglySorted_weaken {A} (R S : A -> A -> Prop) (l : list A) :
  (forall a b, R a b -> S a b) -> StronglySorted R l -> StronglySorted S l.
Proof.
  intros HRS. induction 1 as [|x l Hl IH Hx]; constructor; [done|].
  eapply Forall_impl; [exact Hx|]. intros y. apply HRS.
Qed.

Lemma priorityOrder_inj p q : priorityOrder p = priorityOrder q -> p = q.
Proof. by destruct p, q. Qed.

Lemma higher_priorityOrder p q : higher p q <-> priorityOrder q < priorityOrder p.
Proof. destruct p, q; cbn [higher priorityOrder]; split; (done || lia). Qed.

Lemma compareBatches_queueOrdered a b : compareBatches a b <= 0 <-> queueOrdered a b.
Proof.
  unfold compareBatches, queueOrdered. rewrite higher_priorityOrder.
  destruct (priorityOrder (priority a) =? priorityOrder (priority b)) eqn:Hp; cbn [negb].
  - apply Z.eqb_eq in Hp. apply priorityOrder_inj in Hp as Hq. rewrite Hp. split; [|lia].
    intros. right. split; [done|lia].
  - apply Z.eqb_neq in Hp. split; [lia|]. intros [?|[Hq _]]; [lia|]. by rewrite Hq in Hp.
Qed.

Lemma compareBatches_total a b : 0 <= compareBatches a b -> compareBatches b a <= 0.
Proof.
  unfold compareBatches.
  rewrite (Z.eqb_sym (priorityOrder (priority b))).
  destruct (priorityOrder (priority a) =? priorityOrder (priority b)); cbn [negb]; lia.
Qed.

Lemma compareBatches_trans a b c :
  compareBatches a b <= 0 -> compareBatches b c <= 0 -> compareBatches a c <= 0.
Proof.
  unfold compareBatches.
  destruct (priorityOrder (priority a) =? priorityOrder (priority b)) eqn:Hab;
  destruct (priorityOrder (priority b) =? priorityOrder (priority c)) eqn:Hbc;
  destruct (priorityOrder (priority a) =? priorityOrder (priority c)) eqn:Hac;
  cbn [negb]; rewrite ?Z.eqb_eq, ?Z.eqb_neq in *; lia.
Qed.

Lemma sortBatchQueue_sorted s :
  StronglySorted queueOrdered (batchQueue (sortBatchQueue s)).
Proof.
  cbn [sortBatchQueue batchQueue set_batchQueue].
  eapply StronglySorted_weaken; [|apply Array_sort_sorted].
  - intros a b. apply compareBatches_queueOrdered.
  - apply compareBatches_total.
  - apply compareBatches_trans.
Qed.

Lemma queueBatch_queue cfg env txs prio s :
  exists batch,
    batchQueue (queueBatch cfg env txs prio s).2 =
      Array_sort compareBatches (batchQueue s ++ [batch]) /\
    queue_transactions batch = txs /\ priority batch = prio /\
    queue_status batch = QUEUED /\ queue_id batch = (queueBatch cfg env txs prio s).1 /\
    timeout batch = Date_now env (S (clock s)) + batchTimeout cfg /\
    createdAt batch = Date_now env (S (S (clock s))).
Proof.
  unfold queueBatch, generateBatchId, now.
  cbn [fst snd clock set_clock set_batchCounter batchCounter].
  match goal with |- context [set_batchQueue (_ ++ [?b])] => exists b end.
  split; [|by split_and!].
  unfold startBatchProcessing. cbn. by destruct (isProcessing s).
Qed.

(** After [queueBatch] the queue is sorted and holds the batches it held
    and the new one. *)
Lemma queueBatch_sorted cfg env txs prio s :
  let s' := (queueBatch cfg env txs prio s).2 in
  StronglySorted queueOrdered (batchQueue s') /\
  exists batch, batchQueue s' ≡ₚ batchQueue s ++ [batch] /\
    queue_transactions batch = txs /\ priority batch = prio.
Proof.
  cbn zeta. destruct (queueBatch_queue cfg env txs prio s) as (batch & Hq & Htx & Hp & _).
  rewrite Hq. split.
  - apply (sortBatchQueue_sorted (set_batchQueue (batchQueue s ++ [batch]) s)).
  - exists batch. split; [apply Array_sort_Permutation|done].
Qed.


Lemma groupsFrom_processor cfg env fuel : forall (l : list ref) i acc s c s',
  groupsFrom fuel cfg (runProcessTransactionBatch cfg env) l i acc s = Some (c, s') ->
  same_processor s s'.
Proof.
  intros l i acc s c s' Hrun. apply groupsFrom_state in Hrun as ->.
  apply processTransactionBatch_processor.
Qed.

(** [processBatch] leaves the queue alone. *)
Lemma processBatch_batchQueue fuel cfg env l s c s' :
  processBatch fuel cfg env l s = Some (c, s') -> batchQueue s' = batchQueue s.
Proof.
  unfold processBatch, processBatchWith, generateBatchId, now.
  cbn [fst snd].
  match goal with |- context [validateTransactions env l ?s2] =>
    destruct (validateTransactions_spec env l s2) as (_ & ((Hq & _) & _) & _);
    destruct (validateTransactions env l s2) as [vs s3] end.
  cbn [snd batchQueue set_clock set_batchCounter] in Hq.
  destruct (length vs =? 0)%nat; [intros [= _ <-]; done|].
  destruct (processTransactionsInBatches fuel cfg _ vs s3) as [[res s4]|] eqn:Hrun; [|done].
  apply groupsFrom_processor in Hrun as (Hq4 & _).
  intros [= _ <-]. cbn. congruence.
Qed.

(** A tick takes the batch at the head of the queue. *)
Lemma processBatchQueue_head fuel cfg env s b s' :
  processBatchQueue fuel cfg env s = Some (Some b, s') ->
  exists status, batchQueue s = set_queue_status status b :: batchQueue s'.
Proof.
  unfold processBatchQueue. destruct (batchQueue s) as [|batch rest] eqn:Hq; [done|].
  unfold now. cbn [fst snd clock set_batchQueue].
  destruct (_ >? timeout batch).
  { intros [= <- <-]. exists (queue_status batch). by destruct batch. }
  cbn [queue_transactions set_queue_status].
  destruct (processBatch _ _ _ _ _) as [[[result|msg] s1]|] eqn:Hrun; [| |done];
    apply processBatch_batchQueue in Hrun; cbn in Hrun;
    intros [= <- <-]; exists (queue_status batch); rewrite Hrun; by destruct batch.
Qed.

Lemma processBatchQueue_timeout fuel cfg env s batch rest :
  batchQueue s = batch :: rest ->
  timeout batch < Date_now env (clock s) ->
  processBatchQueue fuel cfg env s =
    Some (Some (set_queue_status TIMEOUT batch),
          set_clock (S (clock s)) (set_batchQueue rest s)).
Proof.
  intros Hq Hlate. unfold processBatchQueue. rewrite Hq. unfold now.
  cbn [fst snd clock set_batchQueue].
  by rewrite (proj2 (Z.gtb_lt _ _) Hlate).
Qed.

(** C7: a tick that takes a batch whose deadline has passed returns that
    batch marked TIMEOUT; the batch is off the queue, and nothing else
    happened: no call of [sendTransaction], no write to a transaction, no
    batch result, no batch identifier drawn. In particular a batch enqueued
    on an empty queue with a deadline before its enqueueing is timed out by
    the next tick, whatever its transactions. *)
Theorem processBatchQueue_overdue fuel cfg env s :
  (forall batch rest,
      batchQueue s = batch :: rest -> timeout batch < Date_now env (clock s) ->
      exists s', processBatchQueue fuel cfg env s =
                   Some (Some (set_queue_status TIMEOUT batch), s') /\
        batchQueue s' = rest /\ sent s' = sent s /\ heap s' = heap s /\
        activeBatches s' = activeBatches s /\ batchCounter s' = batchCounter s) /\
  (forall txs prio,
      batchQueue s = [] -> batchTimeout cfg < 0 ->
      Date_now env (S (clock s)) <= Date_now env (S (S (S (clock s)))) ->
      exists batch s',
        processBatchQueue fuel cfg env (queueBatch cfg env txs prio s).2 =
          Some (Some batch, s') /\
        queue_id batch = (queueBatch cfg env txs prio s).1 /\
        queue_transactions batch = txs /\ queue_status batch = TIMEOUT /\
        batchQueue s' = [] /\ sent s' = sent s /\ heap s' = heap s).
Proof.
  split.
  - intros batch rest Hq Hlate. eexists.
    split; [by apply processBatchQueue_timeout|]. done.
  - intros txs prio Hq Hneg Hclock.
    destruct (queueBatch_queue cfg env txs prio s)
      as (batch & Hq1 & Htx & Hp & Hst & Hid & Hto & Hcr).
    rewrite Hq in Hq1. unfold Array_sort in Hq1. cbn [app fold_left sort_insert] in Hq1.
    assert (Hc1 : clock (queueBatch cfg env txs prio s).2 = S (S (S (clock s)))).
    { unfold queueBatch, generateBatchId, now, startBatchProcessing. cbn.
      by destruct (isProcessing s). }
    assert (Hf : sent (queueBatch cfg env txs prio s).2 = sent s /\
                 heap (queueBatch cfg env txs prio s).2 = heap s).
    { unfold queueBatch, generateBatchId, now, startBatchProcessing. cbn.
      by destruct (isProcessing s). }
    eexists _, _. split.
    + apply processBatchQueue_timeout; [exact Hq1|]. rewrite Hc1, Hto. lia.
    + cbn. by destruct Hf.
Qed.

Lemma sort_insert_before {A} (compare : A -> A -> Z) x y l :
  compare x y < 0 -> sort_insert compare x (y :: l) = x :: y :: l.
Proof. intros H. cbn [sort_insert]. by rewrite (proj2 (Z.ltb_lt _ _) H). Qed.

Lemma sort_insert_after {A} (compare : A -> A -> Z) x y l :
  0 <= compare x y -> sort_insert compare x (y :: l) = y :: sort_insert compare x l.
Proof. intros H. cbn [sort_insert]. by rewrite (proj2 (Z.ltb_ge _ _) H). Qed.

Lemma compareBatches_priority a b :
  priority a <> priority b ->
  compareBatches a b = priorityOrder (priority b) - priorityOrder (priority a).
Proof.
  intros Hne. unfold compareBatches.
  destruct (priorityOrder (priority a) =? priorityOrder (priority b)) eqn:Hp; [|done].
  apply Z.eqb_eq, priorityOrder_inj in Hp. done.
Qed.

(** Scenario D: batches queued in the order LOW, HIGH, MEDIUM. *)
Lemma queueBatch_LOW_HIGH_MEDIUM cfg env s t1 t2 t3 :
  batchQueue s = [] ->
  let s1 := (queueBatch cfg env t1 LOW s).2 in
  let s2 := (queueBatch cfg env t2 HIGH s1).2 in
  let s3 := (queueBatch cfg env t3 MEDIUM s2).2 in
  priority <$> batchQueue s3 = [HIGH; MEDIUM; LOW] /\
  queue_transactions <$> batchQueue s3 = [t2; t3; t1].
Proof.
  intros Hq. cbn zeta.
  destruct (queueBatch_queue cfg env t1 LOW s) as (b1 & Hq1 & Ht1 & Hp1 & _).
  rewrite Hq in Hq1. cbn [app] in Hq1.
  destruct (queueBatch_queue cfg env t2 HIGH (queueBatch cfg env t1 LOW s).2)
    as (b2 & Hq2 & Ht2 & Hp2 & _).
  rewrite Hq1 in Hq2.
  destruct (queueBatch_queue cfg env t3 MEDIUM
              (queueBatch cfg env t2 HIGH (queueBatch cfg env t1 LOW s).2).2)
    as (b3 & Hq3 & Ht3 & Hp3 & _).
  rewrite Hq2 in Hq3. rewrite Hq3.
  assert (C21 : compareBatches b2 b1 = -2)
    by (rewrite compareBatches_priority, Hp1, Hp2 by congruence; done).
  assert (C12 : compareBatches b1 b2 = 2)
    by (rewrite compareBatches_priority, Hp1, Hp2 by congruence; done).
  assert (C32 : compareBatches b3 b2 = 1)
    by (rewrite compareBatches_priority, Hp2, Hp3 by congruence; done).
  assert (C31 : compareBatches b3 b1 = -1)
    by (rewrite compareBatches_priority, Hp1, Hp3 by congruence; done).
  assert (E2 : Array_sort compareBatches ([b1] ++ [b2]) = [b2; b1]).
  { unfold Array_sort. cbn [app fold_left]. change (sort_insert compareBatches b1 []) with [b1].
    rewrite sort_insert_before by lia. done. }
  assert (E3 : Array_sort compareBatches ([b2; b1] ++ [b3]) = [b2; b3; b1]).
  { unfold Array_sort. cbn [app fold_left]. change (sort_insert compareBatches b2 []) with [b2].
    rewrite (sort_insert_after _ b1 b2) by lia. change (sort_insert compareBatches b1 []) with [b1].
    rewrite (sort_insert_after _ b3 b2) by lia. rewrite sort_insert_before by lia. done. }
  change (Array_sort compareBatches [b1]) with [b1]. rewrite E2, E3.
  cbn [fmap list_fmap]. by rewrite Hp1, Hp2, Hp3, Ht1, Ht2, Ht3.
Qed.

(** A tick on a queue that is not empty takes the batch at its head off
    the queue and deals with it: the batch is timed out, or it is
    processed and ends as completed or failed. *)
Lemma processBatchQueue_takes fuel cfg env s batch rest :
  (0 < maxBatchSize cfg)%nat -> (0 < parallelBatches cfg)%nat ->
  batchQueue s = batch :: rest ->
  (length (queue_transactions batch) < fuel)%nat ->
  exists taken s',
    processBatchQueue fuel cfg env s = Some (Some taken, s') /\
    dispatched batch taken /\ batchQueue s' = rest.
Proof.
  intros Hsize Hpar Hq Hfuel. unfold processBatchQueue. rewrite Hq.
  unfold now. cbn [fst snd clock set_batchQueue].
  destruct (_ >? timeout batch).
  { eexists _, _. split; [done|]. split; [|done]. exists TIMEOUT. split; [done|by left]. }
  cbn [queue_transactions set_queue_status].
  match goal with |- context [processBatch fuel cfg env ?l ?s1] =>
    destruct (processBatch_returns fuel cfg env l s1 Hsize Hpar Hfuel) as [[c s2] Hrun];
    rewrite Hrun; apply processBatch_batchQueue in Hrun end.
  cbn [batchQueue set_clock] in Hrun.
  destruct c as [result|message].
  - eexists _, _. split; [done|]. split; [|done].
    exists (if success result then COMPLETED else BATCH_FAILED).
    split; [done|]. destruct (success result); [right; by left|right; by right].
  - eexists _, _. split; [done|]. split; [|done].
    exists BATCH_FAILED. split; [done|]. right; by right.
Qed.

(** As many ticks as the queue has batches take every batch off the queue,
    in the order of the queue. *)
Lemma ticks_queue fuel cfg env :
  (0 < maxBatchSize cfg)%nat -> (0 < parallelBatches cfg)%nat ->
  forall queue s,
    batchQueue s = queue ->
    Forall (fun batch => (length (queue_transactions batch) < fuel)%nat) queue ->
    exists served s',
      ticks (length queue) fuel cfg env s = Some (served, s') /\
      Forall2 dispatched queue served /\ batchQueue s' = [].
Proof.
  intros Hsize Hpar. induction queue as [|batch rest IH]; intros s Hq Hfuel.
  { exists [], s. split; [done|]. split; [constructor|done]. }
  apply Forall_cons in Hfuel as [Hbatch Hrest].
  destruct (processBatchQueue_takes fuel cfg env s batch rest Hsize Hpar Hq Hbatch)
    as (taken & s1 & Htick & Htaken & Hq1).
  destruct (IH s1 Hq1 Hrest) as (served & s2 & Hticks & Hserved & Hq2).
  exists (taken :: served), s2. cbn [length ticks]. rewrite Htick, Hticks.
  split; [done|]. split; [by constructor|done].
Qed.

Lemma dispatched_fields (queue served : list BatchQueue) :
  Forall2 dispatched queue served ->
  priority <$> served = priority <$> queue /\
  queue_transactions <$> served = queue_transactions <$> queue /\
  queue_id <$> served = queue_id <$> queue.
Proof.
  induction 1 as [|queued taken queue served (st & -> & _) _ IH]; [done|].
  destruct IH as (Hp & Ht & Hi). cbn [fmap list_fmap] in *.
  rewrite Hp, Ht, Hi. by destruct queued.
Qed.

(** C8: after every [queueBatch] the queue is sorted by priority
    descending (CRITICAL > HIGH > MEDIUM > LOW), then by [createdAt]
    ascending, and it holds the batches it held before and the new one;
    batches queued on an empty queue in the order LOW, HIGH, MEDIUM stand in
    the order HIGH, MEDIUM, LOW; with positive group sizes and fuel for the
    loops, as many ticks as the queue has batches dispatch every batch, in
    the order of the queue, and leave the queue empty; so the batches of
    the scenario are dispatched in the order HIGH, MEDIUM, LOW. *)
Theorem queueBatch_sorted_queue cfg env s :
  (forall txs prio,
      let s' := (queueBatch cfg env txs prio s).2 in
      StronglySorted queueOrdered (batchQueue s') /\
      exists batch, batchQueue s' ≡ₚ batchQueue s ++ [batch] /\
        queue_transactions batch = txs /\ priority batch = prio) /\
  (batchQueue s = [] ->
   forall t1 t2 t3,
      let s1 := (queueBatch cfg env t1 LOW s).2 in
      let s2 := (queueBatch cfg env t2 HIGH s1).2 in
      let s3 := (queueBatch cfg env t3 MEDIUM s2).2 in
      priority <$> batchQueue s3 = [HIGH; MEDIUM; LOW] /\
      queue_transactions <$> batchQueue s3 = [t2; t3; t1]) /\
  ((0 < maxBatchSize cfg)%nat -> (0 < parallelBatches cfg)%nat ->
   forall fuel,
      Forall (fun batch => (length (queue_transactions batch) < fuel)%nat) (batchQueue s) ->
      exists served s',
        ticks (length (batchQueue s)) fuel cfg env s = Some (served, s') /\
        Forall2 dispatched (batchQueue s) served /\
        batchQueue s' = []) /\
  ((0 < maxBatchSize cfg)%nat -> (0 < parallelBatches cfg)%nat ->
   batchQueue s = [] ->
   forall fuel t1 t2 t3,
      (length t1 < fuel)%nat -> (length t2 < fuel)%nat -> (length t3 < fuel)%nat ->
      let s1 := (queueBatch cfg env t1 LOW s).2 in
      let s2 := (queueBatch cfg env t2 HIGH s1).2 in
      let s3 := (queueBatch cfg env t3 MEDIUM s2).2 in
      exists served s',
        ticks 3 fuel cfg env s3 = Some (served, s') /\
        priority <$> served = [HIGH; MEDIUM; LOW] /\
        queue_transactions <$> served = [t2; t3; t1] /\
        Forall (fun taken => decided (queue_status taken)) served /\
        batchQueue s' = []).
Proof.
  split; [|split; [|split]].
  - intros txs prio. apply queueBatch_sorted.
  - intros Hq t1 t2 t3. by apply queueBatch_LOW_HIGH_MEDIUM.
  - intros Hsize Hpar fuel Hfuel. by apply ticks_queue.
  - intros Hsize Hpar Hq fuel t1 t2 t3 H1 H2 H3. cbn zeta.
    destruct (queueBatch_LOW_HIGH_MEDIUM cfg env s t1 t2 t3 Hq) as [Hprio Htxs].
    cbn zeta in Hprio, Htxs.
    set (s3 := (queueBatch cfg env t3 MEDIUM _).2) in *. clearbody s3.
    assert (Hlen : length (batchQueue s3) = 3%nat).
    { by rewrite <- (length_fmap priority), Hprio. }
    assert (Hfuel : Forall (fun batch => (length (queue_transactions batch) < fuel)%nat)
                      (batchQueue s3)).
    { apply Forall_fmap with (f := queue_transactions)
                             (P := fun txs : list ref => (length txs < fuel)%nat).
      rewrite Htxs. by repeat constructor. }
    destruct (ticks_queue fuel cfg env Hsize Hpar (batchQueue s3) s3 eq_refl Hfuel)
      as (served & s' & Hticks & Hserved & Hempty).
    rewrite Hlen in Hticks. exists served, s'. split; [done|].
    destruct (dispatched_fields _ _ Hserved) as (Hp & Ht & _).
    rewrite Hp, Ht. split; [done|]. split; [done|]. split; [|done].
    clear -Hserved. induction Hserved as [|queued taken queue served (st & -> & Hst) _ IH];
      constructor; done.
Qed.

(** Scenario D on a processor with three transactions: the batches are
    dispatched in the order HIGH, MEDIUM, LOW, and their transactions are
    submitted in this order. Batches queued in the order LOW, CRITICAL,
    HIGH, CRITICAL are dispatched with the two critical ones first, in the
    order of their arrival. *)
Lemma queueBatch_scenario_D :
  priority <$> batchQueue
    (queueBatch defaultBatchConfig tickingEnv [2%nat] MEDIUM
       (queueBatch defaultBatchConfig tickingEnv [1%nat] HIGH
          (queueBatch defaultBatchConfig tickingEnv [0%nat] LOW threeTransactions).2).2).2
    = [HIGH; MEDIUM; LOW] /\
  match ticks 3 2 defaultBatchConfig tickingEnv
          (queueBatch defaultBatchConfig tickingEnv [2%nat] MEDIUM
             (queueBatch defaultBatchConfig tickingEnv [1%nat] HIGH
                (queueBatch defaultBatchConfig tickingEnv [0%nat] LOW
                   threeTransactions).2).2).2 with
  | Some (served, s') =>
      priority <$> served = [HIGH; MEDIUM; LOW] /\
      queue_transactions <$> served = [[1%nat]; [2%nat]; [0%nat]] /\
      queue_status <$> served = [COMPLETED; COMPLETED; COMPLETED] /\
      sub_tx <$> sent s' = [1%nat; 2%nat; 0%nat] /\
      batchQueue s' = []
  | None => False
  end /\
  match ticks 4 3 defaultBatchConfig tickingEnv criticalQueue with
  | Some (served, s') =>
      priority <$> served = [CRITICAL; CRITICAL; HIGH; LOW] /\
      queue_transactions <$> served = [[1%nat]; [0%nat; 2%nat]; [2%nat]; [0%nat]] /\
      batchQueue s' = []
  | None => False
  end.
Proof.
  destruct (queueBatch_sorted_queue defaultBatchConfig tickingEnv threeTransactions)
    as (_ & Hqueue & _ & Hscenario).
  split; [exact (proj1 (Hqueue eq_refl [0%nat] [1%nat] [2%nat]))|]. split.
  - assert (Hsize : (0 < maxBatchSize defaultBatchConfig)%nat) by (cbn; lia).
    assert (Hpar : (0 < parallelBatches defaultBatchConfig)%nat) by (cbn; lia).
    assert (Hone : (1 < 2)%nat) by lia.
    destruct (Hscenario Hsize Hpar eq_refl 2%nat [0%nat] [1%nat] [2%nat] Hone Hone Hone)
      as (served & s' & Hticks & Hprio & Htxs & _ & Hempty).
    rewrite Hticks. split; [exact Hprio|]. split; [exact Htxs|].
    vm_compute in Hticks. injection Hticks as <- <-. by vm_compute.
  - assert (Hsize : (0 < maxBatchSize defaultBatchConfig)%nat) by (cbn; lia).
    assert (Hpar : (0 < parallelBatches defaultBatchConfig)%nat) by (cbn; lia).
    assert (Hlen : length (batchQueue criticalQueue) = 4%nat) by (vm_compute; reflexivity).
    assert (Hfuel : Forall (fun batch => (length (queue_transactions batch) < 3)%nat)
                      (batchQueue criticalQueue)).
    { apply (bool_decide_unpack _). by vm_compute. }
    destruct (queueBatch_sorted_queue defaultBatchConfig tickingEnv criticalQueue)
      as (_ & _ & Hdispatch & _).
    destruct (Hdispatch Hsize Hpar 3%nat Hfuel) as (served & s' & Hticks & _ & Hempty).
    rewrite Hlen in Hticks. rewrite Hticks.
    vm_compute in Hticks. injection Hticks as <- <-. by vm_compute.
Defined.

(** *** Retries *)

Lemma processTransaction_exhausted cfg env r acc s tx :
  heap s !! r = Some tx ->
  retryAttempts cfg <= retryCount tx ->
  succeeds (sendTransaction env (length (sent s))) = false ->
  exists tx', heap (processTransaction cfg env r acc s).2 !! r = Some tx' /\
    status tx' = FAILED /\ retryCount tx' = retryCount tx /\
    gasPrice tx' = gasPrice tx.
Proof.
  intros Hr Hmax Hfail. unfold processTransaction, executeTransaction. rewrite Hr.
  assert (Hno : (retryCount tx <? retryAttempts cfg) = false) by (apply Z.ltb_ge; lia).
  destruct (wallet tx).
  2:{ cbn [exec_success exec_failure].
      assert (Hf : heap (assign r (set_status FAILED) s) !! r = Some (set_status FAILED tx))
        by (heap_at r Hr; done).
      rewrite Hf. cbn [retryCount set_status]. rewrite Hno. by exists (set_status FAILED tx). }
  destruct (sendTransaction env (length (sent s))) as [|h|h rc]; cbn [succeeds] in Hfail.
  - cbn [exec_success exec_failure].
    match goal with |- context [heap (assign r (set_status FAILED) ?s1) !! r] =>
      assert (Hf : heap (assign r (set_status FAILED) s1) !! r = Some (set_status FAILED tx))
        by (heap_at r Hr; done) end.
    rewrite Hf. cbn [retryCount set_status]. rewrite Hno. by exists (set_status FAILED tx).
  - cbn [exec_success exec_failure].
    match goal with |- context [heap (assign r (set_status FAILED) ?s1) !! r] =>
      assert (Hf : heap (assign r (set_status FAILED) s1) !! r
                   = Some (set_status FAILED (set_txHash (Some h) (set_status SENT tx))))
        by (heap_at r Hr; done) end.
    rewrite Hf. cbn [retryCount set_status set_txHash]. rewrite Hno. by eexists.
  - rewrite Hfail. cbn [exec_success exec_failure].
    match goal with |- context [heap (assign r (set_status FAILED) ?s1) !! r] =>
      assert (Hf : heap (assign r (set_status FAILED) s1) !! r
                   = Some (set_status FAILED (set_txHash (Some h) (set_status SENT tx))))
        by (heap_at r Hr; done) end.
    rewrite Hf. cbn [retryCount set_status set_txHash]. rewrite Hno. by eexists.
Qed.

(** C6 as stated fails: a gas price of 5 wei retried with an increment of
    1.5 becomes 7 wei, which is not the product 7.5. *)
Lemma retry_price_not_exact_product :
  exists tx', heap (processTransaction increment15 flakyEnv 0 noCounts smallFee).2 !! 0%nat
              = Some tx' /\
    retryCount tx' = 1 /\ gasPrice tx' = 7 /\
    ~ exact_product (gasPrice tx') 5 (gasPriceIncrement increment15).
Proof.
  eexists. split; [vm_compute; reflexivity|]. cbn [retryCount gasPrice].
  split; [done|]. split; [done|]. intros H. vm_compute in H. discriminate.
Qed.

(** C6, amended: the task of a transaction whose [retryCount] is at most
    [retryAttempts] leaves it in a terminal status with [retryCount] still at
    most [retryAttempts]. Either it was not retried, and its gas price is
    unchanged; or it was retried once, [retryCount] went up by one and the
    gas price is the floor of the product of the former price and
    [gasPriceIncrement] computed in double precision (when that product is
    not finite the retry ends FAILED with the former price). With an
    increment of at least one and a price below 2^53 the price does not go
    down. With [retryCount] equal to [retryAttempts] there is no retry, and
    the status is FAILED unless the submission is mined with success. *)
Theorem processTransaction_retry_escalation cfg env r acc s tx :
  heap s !! r = Some tx ->
  retryCount tx <= retryAttempts cfg ->
  exists tx', heap (processTransaction cfg env r acc s).2 !! r = Some tx' /\
    terminal (status tx') /\
    retryCount tx <= retryCount tx' <= retryAttempts cfg /\
    ((retryCount tx' = retryCount tx /\ gasPrice tx' = gasPrice tx) \/
     (retryCount tx' = retryCount tx + 1 /\
      (BigInt_floor (mul (ofBigInt (gasPrice tx)) (gasPriceIncrement cfg))
         = Some (gasPrice tx') \/
       (BigInt_floor (mul (ofBigInt (gasPrice tx)) (gasPriceIncrement cfg)) = None /\
        gasPrice tx' = gasPrice tx /\ status tx' = FAILED)))) /\
    (is_number (gasPriceIncrement cfg) = true ->
     le (ofBigInt 1) (gasPriceIncrement cfg) = true ->
     0 <= gasPrice tx < 2 ^ 53 ->
     gasPrice tx <= gasPrice tx') /\
    (retryCount tx = retryAttempts cfg ->
     retryCount tx' = retryCount tx /\ gasPrice tx' = gasPrice tx /\
     (succeeds (sendTransaction env (length (sent s))) = false -> status tx' = FAILED)).
Proof.
  intros Hr Hmax.
  destruct (processTransaction_self cfg env r acc s tx Hr)
    as (tx' & Hr' & _ & Hterm & Hcases).
  exists tx'. split; [done|]. split; [done|].
  destruct Hcases as [(Hrc & Hg & _)|(Hlt & Hrc & Hg)].
  - split; [lia|]. split; [by left|]. split; [lia|]. intros Hex.
    split; [done|]. split; [done|]. intros Hfail.
    destruct (processTransaction_exhausted cfg env r acc s tx Hr ltac:(lia) Hfail)
      as (tx'' & Hr'' & Hst & _). congruence.
  - split; [lia|]. split; [|split; [|lia]].
    + right. split; [done|].
      destruct (BigInt_floor _) as [g|]; [left; by f_equal|right; by destruct Hg].
    + intros Hnum Hone Hbound.
      destruct (BigInt_floor _) as [g|] eqn:Hfloor; [|lia].
      subst g. by eapply JSNumberProofs.BigInt_floor_mul_ge.
Qed.

(** Scenario C: a transaction fails once and succeeds on its retry. *)
Example processTransaction_scenario_C_run :
  (status <$> heap (processTransaction defaultBatchConfig flakyEnv 0 noCounts scenarioC).2
                !! 0%nat) = Some CONFIRMED /\
  (retryCount <$> heap (processTransaction defaultBatchConfig flakyEnv 0 noCounts scenarioC).2
                    !! 0%nat) = Some 1 /\
  (gasPrice <$> heap (processTransaction defaultBatchConfig flakyEnv 0 noCounts scenarioC).2
                  !! 0%nat) = Some 5500000000.
Proof. vm_compute. repeat split; reflexivity. Qed.

(** *** The claims on the scenarios *)



Lemma processBatch_scenario_B_terminal :
  match processBatch 4 defaultBatchConfig friendlyEnv [0; 1; 2]%nat scenarioB with
  | Some (Returned result, s') =>
      exists tx, heap s' !! 0%nat = Some tx /\ terminal (status tx)
  | _ => False
  end.
Proof.
  destruct (processBatch 4 defaultBatchConfig friendlyEnv [0; 1; 2]%nat scenarioB)
    as [[[result|message] s']|] eqn:H.
  - refine (proj2 (processBatch_statuses_terminal _ _ _ _ _ _ _ H 0%nat _ _)).
    + apply list_elem_of_here.
    + vm_compute. exact I.
  - vm_compute in H. discriminate H.
  - vm_compute in H. discriminate H.
Defined.

Lemma processTransaction_retry_run :
  exists tx',
    heap (processTransaction increment15 flakyEnv 0 noCounts smallFee).2 !! 0%nat = Some tx' /\
    terminal (status tx') /\ retryCount tx' <= 3.
Proof.
  destruct (processTransaction_retry_escalation increment15 flakyEnv 0%nat noCounts smallFee
              (pendingTx "tx-0" (Some "0xTOKEN") "0xA" 5)
              ltac:(vm_compute; reflexivity) ltac:(cbn; lia))
    as (tx' & Hheap & Hterm & Hcount & _).
  exists tx'. split; [exact Hheap|]. split; [exact Hterm|]. exact (proj2 Hcount).
Defined.

(** Scenario E: a batch enqueued with a deadline of one millisecond before
    its enqueueing is timed out by the first tick. *)
Lemma processBatchQueue_scenario_E :
  exists batch s',
    processBatchQueue 1 overdue friendlyEnv
      (queueBatch overdue friendlyEnv [0%nat] HIGH scenarioC).2 = Some (Some batch, s') /\
    queue_status batch = TIMEOUT /\ sent s' = [] /\
    (status <$> heap s' !! 0%nat) = Some PENDING.
Proof.
  destruct (processBatchQueue_overdue 1 overdue friendlyEnv scenarioC) as [_ Henqueued].
  destruct (Henqueued [0%nat] HIGH eq_refl ltac:(cbn; lia) ltac:(cbn; lia))
    as (batch & s' & Hrun & _ & _ & Hstatus & _ & Hsent & Hheap).
  exists batch, s'. split; [exact Hrun|]. split; [exact Hstatus|].
  split; [exact Hsent|]. rewrite Hheap. vm_compute. reflexivity.
Defined.

(** ** Further properties of the batch processor *)

(** *** The counters of a batch *)

Lemma processTransaction_counts cfg env r acc s :
  (c_successfulTxs (processTransaction cfg env r acc s).1
   + c_failedTxs (processTransaction cfg env r acc s).1
   = c_successfulTxs acc + c_failedTxs acc + 1)%nat.
Proof.
  unfold processTransaction.
  destruct (executeTransaction env r s) as [res s1].
  destruct (exec_success res); [cbn; lia|].
  destruct (heap (assign r (set_status FAILED) s1) !! r) as [tx|]; [|cbn; lia].
  destruct (retryCount tx <? retryAttempts cfg); cbn; lia.
Qed.

Lemma processTransactionBatch_counts cfg env l : forall acc s,
  (c_successfulTxs (processTransactionBatch cfg env l acc s).1
   + c_failedTxs (processTransactionBatch cfg env l acc s).1
   = c_successfulTxs acc + c_failedTxs acc + length l)%nat.
Proof.
  induction l as [|r l IH]; intros acc s; cbn [processTransactionBatch length]; [cbn; lia|].
  pose proof (processTransaction_counts cfg env r acc s) as Hone.
  destruct (processTransaction cfg env r acc s) as [acc1 s1]. cbn [fst] in Hone.
  rewrite IH. lia.
Qed.

Lemma runBatches_counts cfg env batches : forall acc s results s',
  runBatches (runProcessTransactionBatch cfg env) batches s = (results, s') ->
  let total := fold_left (addResult (maxBatchSize cfg)) results acc in
  (c_successfulTxs total + c_failedTxs total
   = c_successfulTxs acc + c_failedTxs acc + length (concat batches))%nat.
Proof.
  induction batches as [|batch batches IH]; intros acc s results s' Hrun; cbn zeta;
    cbn [runBatches concat] in *.
  { injection Hrun as <- _. cbn. lia. }
  unfold runProcessTransactionBatch at 1 in Hrun.
  pose proof (processTransactionBatch_counts cfg env batch noCounts s) as Hone.
  destruct (processTransactionBatch cfg env batch noCounts s) as [c s1]. cbn [fst] in Hone.
  destruct (runBatches _ batches s1) as [results1 s2] eqn:Hrest.
  injection Hrun as <- _. cbn [fold_left].
  specialize (IH (addResult (maxBatchSize cfg) acc (fulfilled c)) _ _ _ Hrest).
  cbn zeta in IH. rewrite IH, length_app. cbn in *. lia.
Qed.

Lemma groupsFrom_counts cfg env fuel : forall (l : list ref) i acc s c s',
  groupsFrom fuel cfg (runProcessTransactionBatch cfg env) l i acc s = Some (c, s') ->
  (c_successfulTxs c + c_failedTxs c
   = c_successfulTxs acc + c_failedTxs acc + length (drop i l))%nat.
Proof.
  induction fuel as [|fuel IH]; intros l i acc s c s' Hrun; [done|].
  cbn [groupsFrom] in Hrun.
  destruct (i <? length l)%nat eqn:Hi.
  - destruct (runBatches _ _ s) as [results s1] eqn:Hrest.
    pose proof (runBatches_counts cfg env _ acc _ _ _ Hrest) as Hb. cbn zeta in Hb.
    apply IH in Hrun. rewrite Hrun, Hb, batchesOf_group, slice_take_drop.
    rewrite <- (take_drop (maxBatchSize cfg * parallelBatches cfg) (drop i l)) at 2.
    rewrite length_app, drop_drop. lia.
  - apply Nat.ltb_ge in Hi. injection Hrun as <- _. rewrite drop_ge by lia. cbn. lia.
Qed.

(** What [processBatch] returns is what it stores, under the identifier
    drawn at its start. *)
Lemma processBatch_result fuel cfg env l s result s' :
  processBatch fuel cfg env l s = Some (Returned result, s') ->
  batchId result = (generateBatchId env s).1 /\
  activeBatches s' = <[batchId result := result]> (activeBatches s) /\
  success result = (0 <? successfulTxs result)%nat /\
  (successfulTxs result + failedTxs result = length (transactions result))%nat.
Proof.
  unfold processBatch, processBatchWith.
  destruct (generateBatchId env s) as [id s1] eqn:Hid.
  assert (Ha1 : activeBatches s1 = activeBatches s).
  { unfold generateBatchId, now in Hid. by injection Hid as _ <-. }
  destruct (now env s1) as [startTime s2] eqn:Hnow.
  assert (Ha2 : activeBatches s2 = activeBatches s1).
  { unfold now in Hnow. by injection Hnow as _ <-. }
  destruct (validateTransactions_spec env l s2) as (_ & ((_ & Ha3 & _) & _) & _).
  destruct (validateTransactions env l s2) as [vs s3]. cbn [snd] in Ha3.
  destruct (length vs =? 0)%nat; [done|].
  destruct (processTransactionsInBatches fuel cfg _ vs s3) as [[c s4]|] eqn:Hrun; [|done].
  pose proof (groupsFrom_counts _ _ _ _ _ _ _ _ _ Hrun) as Hcount.
  apply groupsFrom_processor in Hrun as (_ & Ha4 & _).
  unfold now. intros [= <- <-]. cbn. rewrite drop_0 in Hcount. cbn in Hcount.
  split; [done|]. split; [congruence|]. split; [done|]. lia.
Qed.

(** *** A group whose processing throws *)





(** X6: the counters of a batch add up: every transaction that passed
    validation is counted once, as successful or as failed; the batch is a
    success as soon as one transaction is counted successful, and the
    result is stored under its identifier. *)
Theorem processBatch_counts_every_transaction fuel cfg env l s result s' :
  processBatch fuel cfg env l s = Some (Returned result, s') ->
  (successfulTxs result + failedTxs result = length (transactions result))%nat /\
  transactions result = filter (fun r => valid env s r) l /\
  (success result = true <-> (0 < successfulTxs result)%nat) /\
  activeBatches s' !! batchId result = Some result.
Proof.
  intros Hrun.
  destruct (processBatch_result _ _ _ _ _ _ _ Hrun) as (_ & Hstore & Hsucc & Hcount).
  split; [done|]. split.
  - pose proof (processBatch_unfold fuel cfg env l s) as (Hh & _ & Hcases).
    rewrite Hrun in Hcases. destruct Hcases as (_ & -> & _).
    by apply validateTransactions_filter.
  - split; [rewrite Hsucc; apply Nat.ltb_lt|]. by rewrite Hstore, lookup_insert_eq.
Qed.

Lemma processBatch_scenario_B_counts :
  match processBatch 4 defaultBatchConfig friendlyEnv [0; 1; 2]%nat scenarioB with
  | Some (Returned result, s') =>
      (successfulTxs result + failedTxs result = length (transactions result))%nat /\
      transactions result = [0; 2]%nat /\ successfulTxs result = 2%nat
  | _ => False
  end.
Proof.
  destruct (processBatch 4 defaultBatchConfig friendlyEnv [0; 1; 2]%nat scenarioB)
    as [[[result|message] s']|] eqn:Hrun;
    [|vm_compute in Hrun; discriminate..].
  split.
  - by eapply (processBatch_counts_every_transaction 4 defaultBatchConfig friendlyEnv
                 [0; 1; 2]%nat scenarioB).
  - vm_compute in Hrun. by injection Hrun as <- _.
Defined.

(** *** A transaction confirmed by its retry *)

(** The first attempt of an allocated transaction with a signer. *)
Lemma executeTransaction_attempt env r s tx w :
  heap s !! r = Some tx -> wallet tx = Some w ->
  succeeds (sendTransaction env (length (sent s))) = false ->
  exists tx1,
    exec_success (executeTransaction env r s).1 = false /\
    heap (executeTransaction env r s).2 !! r = Some tx1 /\
    length (sent (executeTransaction env r s).2) = S (length (sent s)) /\
    wallet tx1 = Some w /\ retryCount tx1 = retryCount tx /\
    gasPrice tx1 = gasPrice tx /\ priorityFee tx1 = priorityFee tx.
Proof.
  intros Hr Hw Hfail. unfold executeTransaction. rewrite Hr, Hw.
  destruct (sendTransaction env (length (sent s))) as [|h|h rc]; cbn [succeeds] in Hfail.
  - exists tx. cbn [fst snd sent set_sent heap]. rewrite length_app. cbn [length].
    split_and!; try done. lia.
  - eexists. cbn [fst snd]. split; [done|]. split; [by heap_at r Hr|].
    split; [cbn [sent assign set_heap set_sent]; rewrite length_app; cbn [length]; lia|].
    done.
  - rewrite Hfail. eexists. cbn [fst snd]. split; [done|]. split; [by heap_at r Hr|].
    split; [cbn [sent assign set_heap set_sent]; rewrite length_app; cbn [length]; lia|].
    done.
Qed.

(** The attempt of a retry that is mined with a receipt of status 1. *)
Lemma executeTransaction_mined env r s tx w hash receipt :
  heap s !! r = Some tx -> wallet tx = Some w ->
  sendTransaction env (length (sent s)) = Mined hash receipt ->
  receipt_status receipt = 1 ->
  exec_success (executeTransaction env r s).1 = true /\
  heap (executeTransaction env r s).2 !! r
    = Some (set_txHash (Some hash) (set_status SENT tx)).
Proof.
  intros Hr Hw Hsend Hst. unfold executeTransaction. rewrite Hr, Hw, Hsend, Hst.
  cbn [Z.eqb Pos.eqb fst snd exec_success]. split; [done|]. by heap_at r Hr.
Qed.

(** X7: a transaction whose first attempt fails and whose retry is mined ends
    CONFIRMED with the escalated gas price, and is nevertheless counted as
    failed: the task adds one to [failedTxs] and nothing to
    [successfulTxs], [totalGasUsed] and [totalGasPrice]. *)
Theorem processTransaction_confirmed_by_retry_counts_failed
    cfg env r acc s tx w g p hash receipt :
  heap s !! r = Some tx -> wallet tx = Some w ->
  retryCount tx < retryAttempts cfg ->
  BigInt_floor (mul (ofBigInt (gasPrice tx)) (gasPriceIncrement cfg)) = Some g ->
  BigInt_floor (mul (ofBigInt (priorityFee tx)) (priorityFeeIncrement cfg)) = Some p ->
  succeeds (sendTransaction env (length (sent s))) = false ->
  sendTransaction env (S (length (sent s))) = Mined hash receipt ->
  receipt_status receipt = 1 ->
  let acc' := (processTransaction cfg env r acc s).1 in
  let s' := (processTransaction cfg env r acc s).2 in
  (exists tx', heap s' !! r = Some tx' /\ status tx' = CONFIRMED /\
     gasPrice tx' = g /\ retryCount tx' = retryCount tx + 1) /\
  c_failedTxs acc' = S (c_failedTxs acc) /\
  c_successfulTxs acc' = c_successfulTxs acc /\
  c_totalGasUsed acc' = c_totalGasUsed acc /\
  c_totalGasPrice acc' = c_totalGasPrice acc.
Proof.
  intros Hr Hw Hretry Hg Hp Hfail Hsend Hst. cbn zeta. unfold processTransaction.
  destruct (executeTransaction_attempt env r s tx w Hr Hw Hfail)
    as (tx1 & Hres & H1 & Hsent1 & Hw1 & Hrc1 & Hg1 & Hp1).
  destruct (executeTransaction env r s) as [res s1]. cbn [fst snd] in *. rewrite Hres.
  assert (Hf : heap (assign r (set_status FAILED) s1) !! r = Some (set_status FAILED tx1))
    by (heap_at r H1; done).
  rewrite Hf. cbn [retryCount set_status]. rewrite Hrc1.
  rewrite (proj2 (Z.ltb_lt _ _) Hretry). cbn [fst snd].
  split; [|split_and!; cbn; lia].
  assert (HsentF : sent (assign r (set_status FAILED) s1) = sent s1) by done.
  generalize dependent (assign r (set_status FAILED) s1). intros sF Hf HsentF.
  unfold retryTransaction. rewrite Hf. cbn [gasPrice priorityFee retryCount set_status].
  rewrite Hg1, Hp1, Hg, Hp.
  match goal with |- context [executeTransaction env r ?s2] =>
    set (s2' := s2);
    assert (H2 : heap s2' !! r = Some (set_priorityFee p (set_gasPrice g
                   (set_status RETRY (set_retryCount (retryCount tx1 + 1)
                      (set_status FAILED tx1))))))
      by (subst s2'; heap_at r Hf; done);
    assert (Hsent2 : sent s2' = sent sF) by done
  end.
  destruct (executeTransaction_mined env r s2' _ w hash receipt H2) as [Hok H3];
    [done|by rewrite Hsent2, HsentF, Hsent1|done|].
  destruct (executeTransaction env r s2') as [res2 s3]. cbn [fst snd] in *.
  rewrite Hok. eexists. heap_at r H3. split; [done|]. cbn. split_and!; [done|done|lia].
Qed.

Lemma processTransaction_flaky_counts_failed :
  let acc' := (processTransaction defaultBatchConfig flakyEnv 0%nat noCounts scenarioC).1 in
  let s' := (processTransaction defaultBatchConfig flakyEnv 0%nat noCounts scenarioC).2 in
  (exists tx', heap s' !! 0%nat = Some tx' /\ status tx' = CONFIRMED /\
     gasPrice tx' = 5500000000 /\ retryCount tx' = 0 + 1) /\
  c_failedTxs acc' = 1%nat /\ c_successfulTxs acc' = 0%nat /\
  c_totalGasUsed acc' = 0 /\ c_totalGasPrice acc' = 0.
Proof.
  apply (processTransaction_confirmed_by_retry_counts_failed defaultBatchConfig flakyEnv
           0%nat noCounts scenarioC (pendingTx "tx-0" (Some "0xTOKEN") "0xA" 5000000000)
           {| address := "0xA" |} 5500000000 1100000000 "0xHASH" minedReceipt);
    try reflexivity.
Defined.

(** *** The number of submissions *)

Lemma processTransaction_submits cfg env r acc s :
  exists subs, sent (processTransaction cfg env r acc s).2 = sent s ++ subs /\
    (length subs <= 2)%nat /\ (signed s r -> 1 <= length subs)%nat.
Proof.
  unfold processTransaction.
  pose proof (executeTransaction_sent env r s) as Ho.
  destruct (executeTransaction env r s) as [res s1]. cbn [snd] in Ho.
  set (first := match heap s !! r with Some tx => _ | None => _ end) in Ho.
  assert (Hfirst : (length first <= 1)%nat /\ (signed s r -> 1 <= length first)%nat).
  { subst first. unfold signed. destruct (heap s !! r) as [tx|].
    - destruct (wallet tx) eqn:Hw; cbn [length]; (split; [lia|]).
      + done.
      + intros (tx' & [= <-] & Hsome). congruence.
    - cbn [length]. split; [lia|]. by intros (tx' & [=] & _). }
  destruct Hfirst as [Hmax Hmin].
  assert (Hplain : exists subs, sent s1 = sent s ++ subs /\
            (length subs <= 2)%nat /\ (signed s r -> 1 <= length subs)%nat).
  { exists first. split; [done|]. split; [lia|done]. }
  destruct (exec_success res); [exact Hplain|].
  destruct (heap (assign r (set_status FAILED) s1) !! r) as [tx|]; [|exact Hplain].
  destruct (retryCount tx <? retryAttempts cfg); [|exact Hplain]. cbn [snd].
  destruct (retryTransaction_sent cfg env r (assign r (set_status FAILED) s1))
    as (more & Hmore & Hone & _).
  exists (first ++ more). rewrite Hmore. cbn [sent assign set_heap]. rewrite Ho.
  split; [by rewrite app_assoc|]. rewrite length_app. split; [lia|].
  intros Hs. specialize (Hmin Hs). lia.
Qed.

Lemma signed_kept s s' r : requests_kept s s' -> signed s r -> signed s' r.
Proof.
  intros Hkept (tx & Htx & Hw). specialize (Hkept r). rewrite Htx in Hkept.
  inversion Hkept as [? tx' Hreq|]; subst. exists tx'. split; [done|].
  destruct Hreq as (_ & _ & -> & _). done.
Qed.

Lemma processTransactionBatch_submits cfg env l : forall acc s,
  Forall (signed s) l ->
  exists subs, sent (processTransactionBatch cfg env l acc s).2 = sent s ++ subs /\
    (length l <= length subs <= 2 * length l)%nat.
Proof.
  induction l as [|r l IH]; intros acc s Hsigned; cbn [processTransactionBatch].
  { exists []. rewrite app_nil_r. cbn. split; [done|lia]. }
  apply Forall_cons in Hsigned as [Hr Hl].
  destruct (processTransaction_submits cfg env r acc s) as (subs1 & Hs1 & Hmax & Hmin).
  pose proof (processTransaction_requests cfg env r acc s) as Hkept.
  destruct (processTransaction cfg env r acc s) as [acc1 s1]. cbn [snd] in *.
  destruct (IH acc1 s1) as (subs2 & Hs2 & Hcount).
  { eapply Forall_impl; [exact Hl|]. intros r'. by apply signed_kept. }
  exists (subs1 ++ subs2). rewrite Hs2, Hs1, app_assoc. split; [done|].
  rewrite length_app. cbn [length]. specialize (Hmin Hr). lia.
Qed.

(** X8: a batch submits each transaction that passed validation once, and a
    second time when its first attempt failed and a retry was left: the
    number of calls of [sendTransaction] lies between the number of
    validated transactions and twice that number. *)
Theorem processBatch_submits_once_or_twice fuel cfg env l s result s' :
  processBatch fuel cfg env l s = Some (Returned result, s') ->
  exists subs, sent s' = sent s ++ subs /\
    (length (transactions result) <= length subs
       <= 2 * length (transactions result))%nat.
Proof.
  intros Hrun.
  pose proof (processBatch_unfold fuel cfg env l s) as (Hh & Hsent & Hcases).
  set (s2 := (now env (generateBatchId env s).2).2) in *.
  destruct (validateTransactions_spec env l s2) as (Hvs & (_ & Hsent3 & _) & Hvalid).
  set (s3 := (validateTransactions env l s2).2) in *.
  rewrite Hrun in Hcases. destruct Hcases as (_ & Hres & _ & Hs').
  destruct (processTransactionBatch_submits cfg env (transactions result) noCounts s3)
    as (subs & Hsubs & Hcount).
  { rewrite Hres, Hvs. apply Forall_forall. intros r [Hv _]%list_elem_of_filter.
    apply (valid_allocated env). by rewrite Hvalid. }
  exists subs. split; [|done]. rewrite <- Hres in Hs'. congruence.
Qed.

Lemma processBatch_scenario_B_submissions :
  match processBatch 4 defaultBatchConfig friendlyEnv [0; 1; 2]%nat scenarioB with
  | Some (Returned result, s') =>
      exists subs, sent s' = sent scenarioB ++ subs /\
        (length (transactions result) <= length subs
           <= 2 * length (transactions result))%nat
  | _ => False
  end.
Proof.
  destruct (processBatch 4 defaultBatchConfig friendlyEnv [0; 1; 2]%nat scenarioB)
    as [[[result|message] s']|] eqn:Hrun;
    [|vm_compute in Hrun; discriminate..].
  by eapply (processBatch_submits_once_or_twice 4 defaultBatchConfig friendlyEnv
               [0; 1; 2]%nat scenarioB).
Defined.

(** *** A group size of zero *)

(** X9: with a [maxBatchSize] or a [parallelBatches] of 0 the loop of
    [processTransactionsInBatches] does not advance: as soon as one
    transaction passes validation, [processBatch] never returns, whatever
    the number of iterations it is given. *)
Theorem processBatch_never_returns_without_step cfg env l s fuel :
  (maxBatchSize cfg * parallelBatches cfg = 0)%nat ->
  filter (fun r => valid env s r) l <> [] ->
  processBatch fuel cfg env l s = None.
Proof.
  intros Hstep Hvalid.
  pose proof (validateTransactions_filter env l s
                (now env (generateBatchId env s).2).2) as Hvs.
  unfold processBatch, processBatchWith.
  destruct (generateBatchId env s) as [id s1] eqn:Hid.
  assert (Hh1 : heap s1 = heap s).
  { unfold generateBatchId, now in Hid. by injection Hid as _ <-. }
  cbn [snd] in Hvs. destruct (now env s1) as [startTime s2] eqn:Hnow.
  assert (Hh2 : heap s2 = heap s1).
  { unfold now in Hnow. by injection Hnow as _ <-. }
  cbn [snd] in Hvs. specialize (Hvs ltac:(congruence)).
  destruct (validateTransactions env l s2) as [vs s3]. cbn [fst] in Hvs. subst vs.
  destruct (length _ =? 0)%nat eqn:Hlen.
  { apply Nat.eqb_eq in Hlen. by destruct (filter _ l). }
  unfold processTransactionsInBatches.
  rewrite groupsFrom_diverges; [done|done|].
  apply Nat.eqb_neq in Hlen. lia.
Qed.

Lemma processBatch_hangs_on_noBatchSize :
  processBatch 1000 noBatchSize friendlyEnv [0%nat] scenarioC = None.
Proof.
  apply (processBatch_never_returns_without_step noBatchSize friendlyEnv [0%nat] scenarioC).
  - reflexivity.
  - vm_compute. discriminate.
Defined.

(** *** The order of service *)

(** X10: on a sorted queue, as [queueBatch] leaves it, a tick serves the batch
    that is first in the order of the queue: no batch left in the queue has
    a higher priority, or the same priority and an earlier creation time;
    the rest of the queue is sorted again and shorter by one. *)
Theorem processBatchQueue_serves_foremost fuel cfg env s batch s' :
  StronglySorted queueOrdered (batchQueue s) ->
  processBatchQueue fuel cfg env s = Some (Some batch, s') ->
  Forall (queueOrdered batch) (batchQueue s') /\
  StronglySorted queueOrdered (batchQueue s') /\
  length (batchQueue s) = S (length (batchQueue s')).
Proof.
  intros Hsorted Hrun. apply processBatchQueue_head in Hrun as [st Hq].
  rewrite Hq in Hsorted |- *. apply StronglySorted_inv in Hsorted as [Hrest Hhead].
  split; [|by split]. eapply Forall_impl; [exact Hhead|].
  intros b. unfold queueOrdered. by destruct batch.
Qed.

Lemma processBatchQueue_serves_HIGH_first :
  match processBatchQueue 4 defaultBatchConfig friendlyEnv
          (queueBatch defaultBatchConfig friendlyEnv [1%nat] HIGH
             (queueBatch defaultBatchConfig friendlyEnv [0%nat] LOW scenarioB).2).2 with
  | Some (Some batch, s') =>
      priority batch = HIGH /\ Forall (queueOrdered batch) (batchQueue s') /\
      length (batchQueue s') = 1%nat
  | _ => False
  end.
Proof.
  pose proof (proj1 (queueBatch_sorted defaultBatchConfig friendlyEnv [1%nat] HIGH
            (queueBatch defaultBatchConfig friendlyEnv [0%nat] LOW scenarioB).2)) as Hsorted.
  destruct (processBatchQueue 4 defaultBatchConfig friendlyEnv _)
    as [[[batch|] s']|] eqn:Hrun; [|vm_compute in Hrun; discriminate..].
  destruct (processBatchQueue_serves_foremost _ _ _ _ _ _ Hsorted Hrun) as (Hfirst & _ & Hlen).
  split; [|split; [done|]].
  - vm_compute in Hrun. by injection Hrun as <- _.
  - vm_compute in Hrun. by injection Hrun as _ <-.
Defined.

(** *** Batch identifiers *)

Lemma pretty_N_char_lacks d : pretty_N_char d <> "_"%char.
Proof. unfold pretty_N_char. by repeat case_match. Qed.

Lemma pretty_N_go_lacks x : forall s, lacks "_" s -> lacks "_" (pretty_N_go x s).
Proof.
  induction (N.lt_wf_0 x) as [x _ IH]; intros s Hs.
  assert (x = 0 \/ 0 < x)%N as [->|Hpos] by lia; [by rewrite pretty_N_go_0|].
  rewrite pretty_N_go_step by done. apply IH; [by apply N.div_lt|].
  split; [apply pretty_N_char_lacks|done].
Qed.

Lemma pretty_N_lacks (x : N) : lacks "_" (pretty x).
Proof.
  unfold pretty, pretty_N. destruct (decide (x = 0%N)); [by cbn|].
  by apply pretty_N_go_lacks.
Qed.

Lemma pretty_Z_lacks (z : Z) : lacks "_" (pretty z).
Proof.
  destruct z as [|p|p]; unfold pretty, pretty_Z; [by cbn|apply pretty_N_lacks|].
  split; [done|apply pretty_N_lacks].
Qed.

(** A string is cut in one way at the first occurrence of a character. *)
Lemma append_cut c : forall s1 s2 r1 r2,
  lacks c s1 -> lacks c s2 ->
  String.append s1 (String c r1) = String.append s2 (String c r2) ->
  s1 = s2 /\ r1 = r2.
Proof.
  induction s1 as [|a s1 IH]; intros [|b s2] r1 r2 H1 H2 Heq; cbn in *.
  - by injection Heq as ->.
  - injection Heq as <- _. by destruct H2.
  - injection Heq as -> _. by destruct H1.
  - injection Heq as -> Heq. destruct H1 as [_ H1], H2 as [_ H2].
    destruct (IH s2 r1 r2 H1 H2 Heq) as [-> ->]. done.
Qed.

(** The format [batch_<time>_<counter>] determines its two numbers. *)
Lemma batchId_inj (t t' c c' : Z) :
  String.append "batch_" (String.append (pretty t) (String.append "_" (pretty c)))
  = String.append "batch_" (String.append (pretty t') (String.append "_" (pretty c'))) ->
  t = t' /\ c = c'.
Proof.
  intros Heq. cbn [String.append] in Heq. injection Heq as Heq.
  apply append_cut in Heq as [Ht Hc]; [|apply pretty_Z_lacks..].
  split; by apply (inj pretty).
Qed.

Lemma generateBatchId_counter env s :
  batchCounter (generateBatchId env s).2 = batchCounter s + 1 /\
  clock (generateBatchId env s).2 = S (clock s) /\
  activeBatches (generateBatchId env s).2 = activeBatches s.
Proof. done. Qed.

(** X11: a batch identifier determines the value of the counter and the clock
    reading it was made from. So two identifiers that are drawn one after
    the other differ, whatever the clock says in between: every draw raises
    the counter. *)
Theorem generateBatchId_determines_counter env env' s s' :
  ((generateBatchId env s).1 = (generateBatchId env' s').1 ->
   batchCounter s = batchCounter s' /\
   Date_now env (clock s) = Date_now env' (clock s')) /\
  (generateBatchId env s).1 <> (generateBatchId env' (generateBatchId env s).2).1.
Proof.
  split.
  - unfold generateBatchId, now. cbn [fst batchCounter set_batchCounter set_clock].
    intros [Ht Hc]%batchId_inj. split; [lia|done].
  - unfold generateBatchId, now.
    cbn [fst snd batchCounter set_batchCounter set_clock clock].
    intros [_ Hc]%batchId_inj. lia.
Qed.

Lemma generateBatchId_twice :
  (generateBatchId friendlyEnv scenarioB).1 = "batch_1700000000000_1" /\
  (generateBatchId friendlyEnv (generateBatchId friendlyEnv scenarioB).2).1
    = "batch_1700000000000_2" /\
  (generateBatchId friendlyEnv scenarioB).1
  <> (generateBatchId friendlyEnv (generateBatchId friendlyEnv scenarioB).2).1.
Proof.
  split; [vm_compute; reflexivity|]. split; [vm_compute; reflexivity|].
  apply (generateBatchId_determines_counter friendlyEnv friendlyEnv scenarioB scenarioB).
Defined.

(** *** The result of a queued batch *)

Lemma queueBatch_fields cfg env txs prio s :
  batchCounter (queueBatch cfg env txs prio s).2 = batchCounter s + 1 /\
  activeBatches (queueBatch cfg env txs prio s).2 = activeBatches s /\
  (queueBatch cfg env txs prio s).1 = (generateBatchId env s).1.
Proof.
  unfold queueBatch, generateBatchId, now, startBatchProcessing. cbn.
  by destruct (isProcessing s).
Qed.

(** What a tick stores: nothing, or the result of [processBatch] under the
    identifier that [processBatch] draws. *)
Lemma processBatchQueue_stores fuel cfg env s batch s' :
  processBatchQueue fuel cfg env s = Some (Some batch, s') ->
  (activeBatches s' = activeBatches s /\ queue_status batch <> COMPLETED) \/
  exists result env' s1,
    batchCounter s1 = batchCounter s /\
    batchId result = (generateBatchId env' s1).1 /\
    activeBatches s' = <[batchId result := result]> (activeBatches s) /\
    (queue_status batch = COMPLETED -> success result = true).
Proof.
  unfold processBatchQueue. destruct (batchQueue s) as [|head rest]; [done|].
  unfold now. cbn [fst snd clock set_batchQueue].
  destruct (_ >? timeout head); [intros [= <- <-]; by left|].
  cbn [queue_transactions set_queue_status].
  destruct (processBatch _ _ _ _ _) as [[[result|msg] s1]|] eqn:Hrun; [| |done].
  - apply processBatch_result in Hrun as (Hid & Hstore & _).
    intros [= <- <-]. right. eexists result, env, _.
    split; [|split; [exact Hid|split; [exact Hstore|]]]; [done|].
    cbn. by destruct (success result).
  - intros [= <- <-]. left. split; [|done].
    unfold processBatch, processBatchWith, generateBatchId, now in Hrun.
    cbn [fst snd] in Hrun.
    match type of Hrun with context [validateTransactions env ?l ?s2] =>
      destruct (validateTransactions_spec env l s2) as (_ & ((_ & Ha & _) & _) & _);
      destruct (validateTransactions env l s2) as [vs s3] end.
    cbn [snd] in Ha. destruct (length vs =? 0)%nat.
    + injection Hrun as _ <-. by rewrite Ha.
    + by destruct (processTransactionsInBatches _ _ _ _ _) as [[? ?]|].
Qed.

(** X12: the identifier that [queueBatch] hands to its caller is not the one
    under which the result is kept. For a batch queued on an empty queue,
    the tick that serves it stores nothing under the identifier of the
    queue; when the batch completes, [processBatch] has drawn a second
    identifier, and the result is stored under that one. *)
Theorem queued_batch_result_under_another_id fuel cfg env txs prio s batch s' :
  batchQueue s = [] ->
  processBatchQueue fuel cfg env (queueBatch cfg env txs prio s).2
    = Some (Some batch, s') ->
  queue_id batch = (queueBatch cfg env txs prio s).1 /\
  activeBatches s' !! queue_id batch = activeBatches s !! queue_id batch /\
  (queue_status batch = COMPLETED ->
   exists result, batchId result <> queue_id batch /\ success result = true /\
     activeBatches s' = <[batchId result := result]> (activeBatches s)).
Proof.
  intros Hempty Hrun.
  destruct (queueBatch_queue cfg env txs prio s) as (queued & Hq & _ & _ & _ & Hid & _).
  destruct (queueBatch_fields cfg env txs prio s) as (Hcounter & Hactive & Hdrawn).
  rewrite Hempty in Hq. unfold Array_sort in Hq. cbn [app fold_left sort_insert] in Hq.
  pose proof (processBatchQueue_head _ _ _ _ _ _ Hrun) as [st Hhead].
  rewrite Hq in Hhead. injection Hhead as Hbatch _.
  assert (Hqid : queue_id batch = (queueBatch cfg env txs prio s).1)
    by (rewrite <- Hid, Hbatch; by destruct batch).
  split; [done|].
  apply processBatchQueue_stores in Hrun
    as [[Hsame Hnot]|(result & env' & s1 & Hc1 & Hrid & Hstore & Hdone)].
  { rewrite Hsame, Hactive. by split. }
  assert (Hne : batchId result <> queue_id batch).
  { rewrite Hqid, Hdrawn, Hrid. unfold generateBatchId, now.
    cbn [fst batchCounter set_batchCounter set_clock].
    intros [_ Hc]%batchId_inj. lia. }
  rewrite Hstore, lookup_insert_ne, Hactive by done. split; [done|].
  intros Hst. exists result. rewrite <- Hactive. by split_and!; [|apply Hdone|].
Qed.

Lemma queued_batch_scenario_B :
  match processBatchQueue 4 defaultBatchConfig friendlyEnv
          (queueBatch defaultBatchConfig friendlyEnv [0%nat] MEDIUM scenarioB).2 with
  | Some (Some batch, s') =>
      queue_status batch = COMPLETED /\
      activeBatches s' !! queue_id batch = None /\
      queue_id batch = "batch_1700000000000_1" /\
      exists result, activeBatches s' !! "batch_1700000000000_2" = Some result
  | _ => False
  end.
Proof.
  destruct (processBatchQueue 4 defaultBatchConfig friendlyEnv _)
    as [[[batch|] s']|] eqn:Hrun; [|vm_compute in Hrun; discriminate..].
  destruct (queued_batch_result_under_another_id 4 defaultBatchConfig friendlyEnv
              [0%nat] MEDIUM scenarioB batch s' eq_refl Hrun) as (Hid & Hlookup & _).
  vm_compute in Hrun. injection Hrun as <- <-.
  split; [done|]. split; [exact Hlookup|]. split; [done|]. by eexists.
Defined.

(** *** The flag [isProcessing] *)

Section Flag.
Variables (cfg : BatchProcessorConfig) (env : Environment) (flag : bool).

Lemma assign_flag r f s :
  assign r f (set_isProcessing flag s) = set_isProcessing flag (assign r f s).
Proof. done. Qed.

Lemma executeTransaction_flag r s :
  executeTransaction env r (set_isProcessing flag s) =
  ((executeTransaction env r s).1, set_isProcessing flag (executeTransaction env r s).2).
Proof.
  unfold executeTransaction. cbn [heap sent set_isProcessing].
  destruct (heap s !! r) as [tx|]; [|done].
  destruct (wallet tx); [|done].
  destruct (sendTransaction env _) as [|h|h rc]; [done|done|].
  by destruct (receipt_status rc =? 1).
Qed.

Lemma retryTransaction_flag r s :
  retryTransaction cfg env r (set_isProcessing flag s) =
  set_isProcessing flag (retryTransaction cfg env r s).
Proof.
  unfold retryTransaction. cbn [heap set_isProcessing].
  destruct (heap s !! r) as [tx|]; [|done].
  destruct (BigInt_floor (mul (ofBigInt (gasPrice tx)) _)) as [g|]; [|done].
  destruct (BigInt_floor (mul (ofBigInt (priorityFee tx)) _)) as [p|]; [|done].
  rewrite !assign_flag, executeTransaction_flag.
  destruct (executeTransaction env r _) as [res s3]. cbn [fst snd].
  by destruct (exec_success res).
Qed.

Lemma processTransaction_flag r acc s :
  processTransaction cfg env r acc (set_isProcessing flag s) =
  ((processTransaction cfg env r acc s).1,
   set_isProcessing flag (processTransaction cfg env r acc s).2).
Proof.
  unfold processTransaction. rewrite executeTransaction_flag.
  destruct (executeTransaction env r s) as [res s1]. cbn [fst snd].
  destruct (exec_success res); [done|].
  rewrite assign_flag. cbn [heap set_isProcessing].
  destruct (heap (assign r (set_status FAILED) s1) !! r) as [tx|]; [|done].
  destruct (retryCount tx <? retryAttempts cfg); [|done].
  by rewrite retryTransaction_flag.
Qed.

Lemma processTransactionBatch_flag l : forall acc s,
  processTransactionBatch cfg env l acc (set_isProcessing flag s) =
  ((processTransactionBatch cfg env l acc s).1,
   set_isProcessing flag (processTransactionBatch cfg env l acc s).2).
Proof.
  induction l as [|r l IH]; intros acc s; cbn [processTransactionBatch]; [done|].
  rewrite processTransaction_flag.
  destruct (processTransaction cfg env r acc s) as [acc1 s1]. cbn [fst snd]. apply IH.
Qed.

Lemma runBatches_flag batches : forall s,
  runBatches (runProcessTransactionBatch cfg env) batches (set_isProcessing flag s) =
  ((runBatches (runProcessTransactionBatch cfg env) batches s).1,
   set_isProcessing flag (runBatches (runProcessTransactionBatch cfg env) batches s).2).
Proof.
  induction batches as [|batch batches IH]; intros s; cbn [runBatches]; [done|].
  unfold runProcessTransactionBatch at 1 3 5. rewrite processTransactionBatch_flag.
  destruct (processTransactionBatch cfg env batch noCounts s) as [c s1]. cbn [fst snd].
  rewrite IH. by destruct (runBatches _ batches s1) as [results s2].
Qed.

Lemma groupsFrom_flag fuel : forall (l : list ref) i acc s,
  groupsFrom fuel cfg (runProcessTransactionBatch cfg env) l i acc (set_isProcessing flag s) =
  fmap (M := option) (onState (set_isProcessing flag))
    (groupsFrom fuel cfg (runProcessTransactionBatch cfg env) l i acc s).
Proof.
  induction fuel as [|fuel IH]; intros l i acc s; cbn [groupsFrom]; [done|].
  destruct (i <? length l)%nat; [|done].
  rewrite runBatches_flag. destruct (runBatches _ _ s) as [results s1]. cbn [fst snd].
  apply IH.
Qed.

Lemma validateTransaction_flag r s :
  validateTransaction env r (set_isProcessing flag s) =
  ((validateTransaction env r s).1, set_isProcessing flag (validateTransaction env r s).2).
Proof.
  unfold validateTransaction. cbn [heap set_isProcessing].
  destruct (heap s !! r) as [tx|]; [|done].
  destruct (wallet tx) as [w|]; [|done].
  destruct (falsy _); [done|].
  destruct (getBalance env _) as [balance|]; [|done].
  destruct (balance <? _); [done|].
  destruct (nonce tx =? 0); [|done].
  by destruct (getTransactionCount env _).
Qed.

Lemma validateTransactions_flag l : forall s,
  validateTransactions env l (set_isProcessing flag s) =
  ((validateTransactions env l s).1,
   set_isProcessing flag (validateTransactions env l s).2).
Proof.
  induction l as [|r l IH]; intros s; cbn [validateTransactions]; [done|].
  rewrite validateTransaction_flag.
  destruct (validateTransaction env r s) as [ok s1]. cbn [fst snd].
  rewrite IH. by destruct (validateTransactions env l s1) as [vs s2].
Qed.

Lemma processBatch_flag fuel l s :
  processBatch fuel cfg env l (set_isProcessing flag s) =
  fmap (M := option) (onState (set_isProcessing flag))
    (processBatch fuel cfg env l s).
Proof.
  unfold processBatch, processBatchWith, generateBatchId, now.
  cbn [fst snd clock batchCounter set_isProcessing set_clock set_batchCounter].
  match goal with |- context [validateTransactions env l ?s2] =>
    change s2 with (set_isProcessing flag
                      (set_clock (S (S (clock s)))
                         (set_batchCounter (batchCounter s + 1)
                            (set_clock (S (clock s)) s)))) end.
  rewrite validateTransactions_flag.
  destruct (validateTransactions env l _) as [vs s3]. cbn [fst snd].
  destruct (length vs =? 0)%nat; [done|].
  unfold processTransactionsInBatches. rewrite groupsFrom_flag.
  by destruct (groupsFrom _ _ _ _ _ _ s3) as [[c s4]|].
Qed.

End Flag.

(** X13: a tick never consults the flag [isProcessing]: after [stopProcessing]
    it serves the queue exactly as before, taking the same batch, making the
    same submissions and storing the same result; only the flag differs. So
    lowering the flag does not stop the processing of the queue. *)
Theorem processBatchQueue_after_stopProcessing fuel cfg env s :
  processBatchQueue fuel cfg env (stopProcessing s) =
  fmap (M := option) (onState stopProcessing) (processBatchQueue fuel cfg env s).
Proof.
  unfold stopProcessing, processBatchQueue. cbn [batchQueue set_isProcessing].
  destruct (batchQueue s) as [|batch rest]; [done|].
  unfold now. cbn [fst snd clock set_batchQueue set_isProcessing].
  destruct (_ >? timeout batch); [done|].
  match goal with |- context [processBatch fuel cfg env ?l ?s2] =>
    change s2 with (set_isProcessing false
                      (set_clock (S (clock s)) (set_batchQueue rest s))) end.
  rewrite processBatch_flag.
  destruct (processBatch fuel cfg env _ _) as [[[result|msg] s1]|]; done.
Qed.

(** *** The nonces of the submissions *)

Lemma nonceOf_unset env tx k : nonce tx = 0 -> nonceOf env tx k ->
  exists w, wallet tx = Some w /\ getTransactionCount env (address w) = Some k.
Proof. unfold nonceOf. by intros ->. Qed.

Lemma nonceOf_set env tx k : nonce tx <> 0 -> nonceOf env tx k <-> k = nonce tx.
Proof. unfold nonceOf. intros Hne. by rewrite (proj2 (Z.eqb_neq _ _) Hne). Qed.

(** One step of validation keeps the nonces settled, and settles the nonce
    of the transaction it accepts. *)
Lemma validateTransaction_nonce env r s0 s :
  (forall r' tx, heap s0 !! r' = Some tx ->
     exists tx', heap s !! r' = Some tx' /\ nonce_settled env tx tx') ->
  let s' := (validateTransaction env r s).2 in
  (forall r' tx, heap s0 !! r' = Some tx ->
     exists tx', heap s' !! r' = Some tx' /\ nonce_settled env tx tx') /\
  (forall r' tx tx', heap s0 !! r' = Some tx -> heap s !! r' = Some tx' ->
     nonceOf env tx (nonce tx') ->
     exists tx'', heap s' !! r' = Some tx'' /\ nonceOf env tx (nonce tx'')) /\
  ((validateTransaction env r s).1 = true ->
   forall tx, heap s0 !! r = Some tx ->
     exists tx', heap s' !! r = Some tx' /\ nonceOf env tx (nonce tx')).
Proof.
  intros Hinv. cbn zeta.
  assert (Hkeep : forall r' tx tx', heap s0 !! r' = Some tx -> heap s !! r' = Some tx' ->
            nonceOf env tx (nonce tx') ->
            exists tx'', heap s !! r' = Some tx'' /\ nonceOf env tx (nonce tx''))
    by (intros r' tx tx' _ H' Hn; by exists tx').
  (* what an accepted transaction whose nonce is left alone carries *)
  assert (Hready : forall tx, heap s0 !! r = Some tx ->
            forall tx', heap s !! r = Some tx' -> nonce tx' <> 0 ->
            exists tx'', heap s !! r = Some tx'' /\ nonceOf env tx (nonce tx'')).
  { intros tx Htx tx' Htx' Hne. exists tx'. split; [done|].
    destruct (Hinv r tx Htx) as (tx1 & H1 & _ & [Hsame|Hof]);
      rewrite Htx' in H1; injection H1 as <-; [|done].
    apply nonceOf_set; congruence. }
  unfold validateTransaction.
  destruct (heap s !! r) as [txr|] eqn:Hr.
  2:{ split_and!; [done|done|done]. }
  destruct (wallet txr) as [w|] eqn:Hw; [|by split_and!].
  destruct (falsy _); [by split_and!|].
  destruct (getBalance env _) as [balance|]; [|by split_and!].
  destruct (balance <? _); [by split_and!|].
  destruct (nonce txr =? 0) eqn:Hzero.
  2:{ apply Z.eqb_neq in Hzero. cbn [fst snd]. split_and!; [done|done|].
      intros _ tx Htx. rewrite Hr. by eapply Hready. }
  apply Z.eqb_eq in Hzero.
  destruct (getTransactionCount env (address w)) as [n|] eqn:Hcount; [|by split_and!].
  cbn [fst snd].
  (* the nonce of [r] is read from the provider *)
  assert (Hread : forall tx, heap s0 !! r = Some tx ->
            set_nonce n txr = set_nonce n tx /\ nonceOf env tx n).
  { intros tx Htx. destruct (Hinv r tx Htx) as (tx1 & H1 & Heq & Hcase).
    rewrite Hr in H1. injection H1 as <-.
    assert (Hw0 : wallet tx = Some w) by (rewrite Heq in Hw; exact Hw).
    split; [rewrite Heq; done|].
    destruct Hcase as [Hsame|Hof].
    - unfold nonceOf. rewrite <- Hsame, Hzero. cbn. by exists w.
    - rewrite Hzero in Hof. unfold nonceOf in *.
      destruct (nonce tx =? 0) eqn:Hz.
      + by exists w.
      + apply Z.eqb_neq in Hz. congruence. }
  split_and!.
  - intros r' tx Htx. cbn [heap assign set_heap].
    destruct (decide (r' = r)) as [->|Hne].
    + rewrite lookup_alter_eq, Hr. cbn [fmap option_fmap option_map].
      destruct (Hread tx Htx) as [Heq Hof]. exists (set_nonce n txr).
      split; [done|]. split; [exact Heq|]. right. exact Hof.
    + rewrite lookup_alter_ne by done. by apply Hinv.
  - intros r' tx tx' Htx Htx' Hof. cbn [heap assign set_heap].
    destruct (decide (r' = r)) as [->|Hne].
    + rewrite lookup_alter_eq, Hr. cbn [fmap option_fmap option_map].
      exists (set_nonce n txr). split; [done|]. by apply Hread.
    + rewrite lookup_alter_ne by done. by exists tx'.
  - intros _ tx Htx. cbn [heap assign set_heap].
    rewrite lookup_alter_eq, Hr. cbn [fmap option_fmap option_map].
    exists (set_nonce n txr). split; [done|]. by apply Hread.
Qed.

Lemma validateTransactions_nonce env l : forall s0 s,
  (forall r' tx, heap s0 !! r' = Some tx ->
     exists tx', heap s !! r' = Some tx' /\ nonce_settled env tx tx') ->
  let s' := (validateTransactions env l s).2 in
  (forall r' tx, heap s0 !! r' = Some tx ->
     exists tx', heap s' !! r' = Some tx' /\ nonce_settled env tx tx') /\
  (forall r' tx tx', heap s0 !! r' = Some tx -> heap s !! r' = Some tx' ->
     nonceOf env tx (nonce tx') ->
     exists tx'', heap s' !! r' = Some tx'' /\ nonceOf env tx (nonce tx'')) /\
  (forall r tx, r ∈ (validateTransactions env l s).1 -> heap s0 !! r = Some tx ->
     exists tx', heap s' !! r = Some tx' /\ nonceOf env tx (nonce tx')).
Proof.
  induction l as [|r l IH]; intros s0 s Hinv; cbn zeta; cbn [validateTransactions].
  { split_and!; [done| |by intros ? ? ?%elem_of_nil].
    intros r' tx tx' _ H' Hof. by exists tx'. }
  destruct (validateTransaction_nonce env r s0 s Hinv) as (Hinv1 & Hkeep1 & Hnew1).
  destruct (validateTransaction env r s) as [ok s1]. cbn [fst snd] in *.
  destruct (IH s0 s1 Hinv1) as (Hinv2 & Hkeep2 & Hnew2).
  destruct (validateTransactions env l s1) as [vs s2]. cbn [fst snd] in *.
  split_and!; [done| |].
  - intros r' tx tx' Htx Htx' Hof.
    destruct (Hkeep1 r' tx tx' Htx Htx' Hof) as (tx1 & H1 & Hof1).
    by eapply Hkeep2.
  - intros r0 tx Hin Htx. destruct ok.
    + apply elem_of_cons in Hin as [->|Hin]; [|by eapply Hnew2].
      destruct (Hnew1 eq_refl tx Htx) as (tx1 & H1 & Hof1). by eapply Hkeep2.
    + by eapply Hnew2.
Qed.

(** The submissions of one attempt carry the nonce and the fee cap of the
    transaction. *)
Lemma executeTransaction_sent_fields env r s :
  exists subs, sent (executeTransaction env r s).2 = sent s ++ subs /\
    Forall (fun x => sub_tx x = r /\ exists tx, heap s !! r = Some tx /\
                     sub_nonce x = nonce tx /\ sub_maxFeePerGas x = maxFeePerGas tx) subs.
Proof.
  rewrite executeTransaction_sent. eexists. split; [done|].
  destruct (heap s !! r) as [tx|]; [|constructor].
  destruct (wallet tx); constructor; [|constructor]. cbn. split; [done|]. by exists tx.
Qed.

Lemma processTransaction_sent_fields cfg env r acc s :
  exists subs, sent (processTransaction cfg env r acc s).2 = sent s ++ subs /\
    Forall (fun x => sub_tx x = r /\ exists tx, heap s !! r = Some tx /\
                     sub_nonce x = nonce tx /\ sub_maxFeePerGas x = maxFeePerGas tx) subs.
Proof.
  unfold processTransaction.
  destruct (executeTransaction_sent_fields env r s) as (first & Hfirst & Hall).
  destruct (heap s !! r) as [tx|] eqn:Hr.
  2:{ unfold executeTransaction. rewrite Hr. cbn [exec_success exec_failure].
      assert (Hf : heap (assign r (set_status FAILED) s) !! r = None)
        by (heap_at r Hr; done).
      rewrite Hf. exists []. by rewrite app_nil_r. }
  destruct (executeTransaction_self env r s tx Hr) as (tx1 & H1 & Hreq1 & _).
  destruct (executeTransaction env r s) as [res s1]. cbn [snd] in *.
  assert (Hplain : exists subs, sent s1 = sent s ++ subs /\
            Forall (fun x => sub_tx x = r /\ exists tx0, Some tx = Some tx0 /\
                      sub_nonce x = nonce tx0 /\ sub_maxFeePerGas x = maxFeePerGas tx0) subs)
    by (by exists first).
  destruct (exec_success res); [exact Hplain|].
  assert (Hf : heap (assign r (set_status FAILED) s1) !! r = Some (set_status FAILED tx1))
    by (heap_at r H1; done).
  rewrite Hf. cbn [retryCount set_status].
  destruct (retryCount tx1 <? retryAttempts cfg); [|exact Hplain]. cbn [snd].
  assert (HsentF : sent (assign r (set_status FAILED) s1) = sent s1) by done.
  generalize dependent (assign r (set_status FAILED) s1). intros sF Hf HsentF.
  unfold retryTransaction. rewrite Hf.
  destruct (BigInt_floor (mul (ofBigInt (gasPrice _)) _)) as [g|].
  2:{ cbn [sent assign set_heap]. rewrite HsentF. exact Hplain. }
  destruct (BigInt_floor (mul (ofBigInt (priorityFee _)) _)) as [p|].
  2:{ cbn [sent assign set_heap]. rewrite HsentF. exact Hplain. }
  match goal with |- context [executeTransaction env r ?s2] =>
    set (s2' := s2);
    assert (H2 : heap s2' !! r = Some (set_priorityFee p (set_gasPrice g
                   (set_status RETRY (set_retryCount (retryCount (set_status FAILED tx1) + 1)
                      (set_status FAILED tx1))))))
      by (subst s2'; heap_at r Hf; done);
    assert (Hsent2 : sent s2' = sent sF) by done
  end.
  destruct (executeTransaction_sent_fields env r s2') as (more & Hmore & Hallmore).
  destruct (executeTransaction env r s2') as [res2 s3]. cbn [snd] in Hmore.
  exists (first ++ more). split.
  - destruct (exec_success res2); cbn [confirm sent assign set_heap];
      rewrite Hmore, Hsent2, HsentF, Hfirst; by rewrite app_assoc.
  - apply Forall_app. split; [done|].
    eapply Forall_impl; [exact Hallmore|]. intros x [Hx (tx2 & Htx2 & Hn & Hm)].
    split; [done|]. exists tx. split; [done|].
    rewrite H2 in Htx2. injection Htx2 as <-.
    destruct Hreq1 as (_ & _ & _ & Hnonce & Hcap). cbn in Hn, Hm. split; congruence.
Qed.

Lemma processTransactionBatch_sent_fields cfg env l : forall acc s,
  exists subs, sent (processTransactionBatch cfg env l acc s).2 = sent s ++ subs /\
    Forall (fun x => sub_tx x ∈ l /\ exists tx, heap s !! sub_tx x = Some tx /\
                     sub_nonce x = nonce tx /\ sub_maxFeePerGas x = maxFeePerGas tx) subs.
Proof.
  induction l as [|r l IH]; intros acc s; cbn [processTransactionBatch].
  { exists []. by rewrite app_nil_r. }
  destruct (processTransaction_sent_fields cfg env r acc s) as (subs1 & Hs1 & Hall1).
  pose proof (processTransaction_requests cfg env r acc s) as Hkept.
  destruct (processTransaction cfg env r acc s) as [acc1 s1]. cbn [snd] in *.
  destruct (IH acc1 s1) as (subs2 & Hs2 & Hall2).
  exists (subs1 ++ subs2). rewrite Hs2, Hs1, app_assoc. split; [done|].
  apply Forall_app. split.
  - eapply Forall_impl; [exact Hall1|]. intros x [-> Hx]. split; [by left|done].
  - eapply Forall_impl; [exact Hall2|]. intros x [Hin (tx1 & Htx1 & Hn & Hm)].
    split; [by right|]. specialize (Hkept (sub_tx x)). rewrite Htx1 in Hkept.
    inversion Hkept as [tx0 ? Hreq Htx0|]; subst. exists tx0. split; [done|].
    destruct Hreq as (_ & _ & _ & Hnonce & Hcap). split; congruence.
Qed.

(** X14: every submission of a batch carries the fee cap of its transaction and
    the nonce that the caller set or, when the caller left the nonce at 0,
    the pending transaction count that the provider reports for the signer.
    So the transactions of one signer that leave their nonce at 0 are all
    submitted with one and the same nonce. *)
Theorem processBatch_submitted_nonces fuel cfg env l s result s' :
  processBatch fuel cfg env l s = Some (Returned result, s') ->
  exists subs, sent s' = sent s ++ subs /\
    Forall (fun x => exists tx, heap s !! sub_tx x = Some tx /\
                     nonceOf env tx (sub_nonce x) /\
                     sub_maxFeePerGas x = maxFeePerGas tx) subs /\
    (forall x y tx ty, x ∈ subs -> y ∈ subs ->
       heap s !! sub_tx x = Some tx -> heap s !! sub_tx y = Some ty ->
       nonce tx = 0 -> nonce ty = 0 -> wallet tx = wallet ty ->
       sub_nonce x = sub_nonce y).
Proof.
  intros Hrun.
  pose proof (processBatch_unfold fuel cfg env l s) as (Hh & Hsent & Hcases).
  set (s2 := (now env (generateBatchId env s).2).2) in *.
  destruct (validateTransactions_spec env l s2) as (_ & (_ & Hsent3 & _) & _).
  destruct (validateTransactions_nonce env l s s2) as (Hinv & _ & Hsettled).
  { intros r tx Htx. exists tx. rewrite Hh. split; [done|]. split; [|by left].
    by rewrite set_nonce_same. }
  cbn zeta in *. set (s3 := (validateTransactions env l s2).2) in *.
  rewrite Hrun in Hcases. destruct Hcases as (_ & Hres & _ & Hs'). rewrite <- Hres in *.
  destruct (processTransactionBatch_sent_fields cfg env (transactions result) noCounts s3)
    as (subs & Hsubs & Hall).
  assert (Hnonces : Forall (fun x => exists tx, heap s !! sub_tx x = Some tx /\
                     nonceOf env tx (sub_nonce x) /\
                     sub_maxFeePerGas x = maxFeePerGas tx) subs).
  { eapply Forall_impl; [exact Hall|]. intros x [Hin (tx3 & Htx3 & Hn & Hm)].
    destruct (heap s !! sub_tx x) as [tx|] eqn:Htx.
    - destruct (Hsettled _ tx Hin Htx) as (tx3' & Htx3' & Hof).
      destruct (Hinv _ tx Htx) as (tx3'' & Htx3'' & Heq & _).
      rewrite Htx3 in Htx3', Htx3''. injection Htx3' as <-. injection Htx3'' as <-.
      exists tx. split; [done|]. split; [by rewrite Hn|]. rewrite Hm, Heq. done.
    - (* a validated transaction is allocated *)
      exfalso. rewrite Hres in Hin.
      rewrite (validateTransactions_filter env l s s2 Hh) in Hin.
      apply list_elem_of_filter in Hin as [Hv _]. unfold valid in Hv.
      by rewrite Htx in Hv. }
  exists subs. split; [congruence|]. split; [exact Hnonces|].
  intros x y tx ty Hx Hy Htx Hty Hzx Hzy Hw.
  rewrite Forall_forall in Hnonces.
  destruct (Hnonces x Hx) as (tx0 & Htx0 & Hofx & _).
  destruct (Hnonces y Hy) as (ty0 & Hty0 & Hofy & _).
  rewrite Htx in Htx0. injection Htx0 as <-. rewrite Hty in Hty0. injection Hty0 as <-.
  apply nonceOf_unset in Hofx as (wx & Hwx & Hcx); [|done].
  apply nonceOf_unset in Hofy as (wy & Hwy & Hcy); [|done].
  congruence.
Qed.

Lemma processBatch_same_signer_same_nonce :
  match processBatch 4 defaultBatchConfig friendlyEnv [0; 1]%nat sameSigner with
  | Some (Returned result, s') =>
      sub_tx <$> sent s' = [0; 1]%nat /\ sub_nonce <$> sent s' = [7; 7] /\
      exists subs, sent s' = sent sameSigner ++ subs /\
        Forall (fun x => exists tx, heap sameSigner !! sub_tx x = Some tx /\
                         nonceOf friendlyEnv tx (sub_nonce x) /\
                         sub_maxFeePerGas x = maxFeePerGas tx) subs
  | _ => False
  end.
Proof.
  destruct (processBatch 4 defaultBatchConfig friendlyEnv [0; 1]%nat sameSigner)
    as [[[result|message] s']|] eqn:Hrun;
    [|vm_compute in Hrun; discriminate..].
  destruct (processBatch_submitted_nonces 4 defaultBatchConfig friendlyEnv [0; 1]%nat
              sameSigner result s' Hrun) as (subs & Hsent & Hall & _).
  split_and!; [| |by exists subs];
    vm_compute in Hrun; by injection Hrun as _ <-.
Defined.

(** *** What the status reports *)

(** [processBatch] draws one identifier, whatever becomes of the batch. *)
Lemma processBatch_batchCounter fuel cfg env l s c s' :
  processBatch fuel cfg env l s = Some (c, s') -> batchCounter s' = batchCounter s + 1.
Proof.
  unfold processBatch, processBatchWith, generateBatchId, now.
  cbn [fst snd].
  match goal with |- context [validateTransactions env l ?s2] =>
    destruct (validateTransactions_spec env l s2) as (_ & ((_ & _ & _ & Hc & _) & _) & _);
    destruct (validateTransactions env l s2) as [vs s3] end.
  cbn [snd batchCounter set_clock set_batchCounter] in Hc.
  destruct (length vs =? 0)%nat; [intros [= _ <-]; done|].
  destruct (processTransactionsInBatches fuel cfg _ vs s3) as [[res s4]|] eqn:Hrun; [|done].
  apply groupsFrom_processor in Hrun as (_ & _ & _ & Hc4 & _).
  intros [= _ <-]. cbn. congruence.
Qed.

(** X25: the field [totalBatches] of the status counts the identifiers that
    were drawn, not the batches: a batch that goes through the queue is
    counted when it is queued and once more when a tick hands a batch to
    [processBatch], so queueing a batch and serving one raises
    [totalBatches] by two (by one when the batch that is served has timed
    out), while [queueLength] is back at its value. *)
Theorem getStatus_counts_a_queued_batch_twice fuel cfg env txs prio s batch s' :
  processBatchQueue fuel cfg env (queueBatch cfg env txs prio s).2
    = Some (Some batch, s') ->
  queueLength (getStatus s') = queueLength (getStatus s) /\
  totalBatches (getStatus s') =
    totalBatches (getStatus s)
    + match queue_status batch with TIMEOUT => 1 | _ => 2 end.
Proof.
  intros Hrun. unfold getStatus. cbn [queueLength totalBatches].
  destruct (queueBatch_queue cfg env txs prio s) as (queued & Hq & _).
  destruct (queueBatch_fields cfg env txs prio s) as (Hc & _).
  set (s1 := (queueBatch cfg env txs prio s).2) in *.
  assert (Hlen : length (batchQueue s1) = S (length (batchQueue s))).
  { rewrite Hq, Array_sort_Permutation, length_app. cbn. lia. }
  clearbody s1. split.
  - destruct (processBatchQueue_head _ _ _ _ _ _ Hrun) as (st & Hhead).
    rewrite Hhead in Hlen. cbn [length] in Hlen. lia.
  - revert Hrun. unfold processBatchQueue.
    destruct (batchQueue s1) as [|head rest]; [done|].
    unfold now. cbn [fst snd clock set_batchQueue].
    destruct (_ >? timeout head).
    { intros [= <- <-]. cbn. lia. }
    cbn [queue_transactions set_queue_status].
    destruct (processBatch _ _ _ _ _) as [[[result|msg] s2]|] eqn:Hrun; [| |done];
      apply processBatch_batchCounter in Hrun; cbn in Hrun;
      intros [= <- <-]; cbn; [destruct (success result)|]; lia.
Qed.

Lemma getStatus_after_scenario_B :
  match processBatchQueue 4 defaultBatchConfig friendlyEnv
          (queueBatch defaultBatchConfig friendlyEnv [0%nat] MEDIUM scenarioB).2 with
  | Some (Some batch, s') =>
      queue_status batch = COMPLETED /\
      totalBatches (getStatus s') = totalBatches (getStatus scenarioB) + 2 /\
      queueLength (getStatus s') = 0%nat
  | _ => False
  end.
Proof.
  destruct (processBatchQueue 4 defaultBatchConfig friendlyEnv
              (queueBatch defaultBatchConfig friendlyEnv [0%nat] MEDIUM scenarioB).2)
    as [[[batch|] s']|] eqn:Hrun; [|vm_compute in Hrun; discriminate..].
  destruct (getStatus_counts_a_queued_batch_twice 4 defaultBatchConfig friendlyEnv
              [0%nat] MEDIUM scenarioB batch s' Hrun) as [Hlen Htotal].
  vm_compute in Hrun. injection Hrun as <- <-.
  split; [done|]. split; [exact Htotal|exact Hlen].
Defined.

End BatchProcessorProofs.

(** ** FourMemeBundler *)

Module FourMemeBundlerProofs.
Import JSNumber FourMemeBundler FourMemeBundlerSpec.

Lemma executeLaunchTransaction_spec env bundle s :
  launch_success (executeLaunchTransaction env bundle s).1 = launchConfirmed env bundle /\
  activeBundles (executeLaunchTransaction env bundle s).2 = activeBundles s /\
  bundleResults (executeLaunchTransaction env bundle s).2 = bundleResults s /\
  exists evs, trace (executeLaunchTransaction env bundle s).2 = trace s ++ evs /\
    Forall isLaunch evs /\
    (launchConfirmed env bundle = true -> LaunchReceipt 1 ∈ evs).
Proof.
  unfold executeLaunchTransaction, launchConfirmed.
  destruct (protectTransaction env (launchTx bundle)) as [ptx|].
  2:{ split_and!; try done. exists []. rewrite app_nil_r. by split_and!. }
  destruct (launchOutcome env) as [|h|h rc].
  - split_and!; try done. exists [LaunchSubmitted ptx]. split_and!; [done| |done].
    by repeat constructor.
  - split_and!; try done. exists [LaunchSubmitted ptx]. split_and!; [done| |done].
    by repeat constructor.
  - destruct (receipt_status rc =? 1) eqn:Hst; (split_and!; try done);
      exists [LaunchSubmitted ptx; LaunchReceipt (receipt_status rc)]; cbn [trace emit snd];
      (split_and!; [by rewrite <- app_assoc|by repeat constructor|]); [|done].
    intros _. apply Z.eqb_eq in Hst as ->. set_solver.
Qed.

Lemma executeBuyTransaction_spec env bundle index buyTx acc s :
  activeBundles (executeBuyTransaction env bundle index buyTx acc s).2 = activeBundles s /\
  bundleResults (executeBuyTransaction env bundle index buyTx acc s).2 = bundleResults s /\
  exists evs, trace (executeBuyTransaction env bundle index buyTx acc s).2 = trace s ++ evs /\
    Forall isBuy evs.
Proof.
  unfold executeBuyTransaction.
  assert (Hnone : activeBundles s = activeBundles s /\ bundleResults s = bundleResults s /\
            exists evs, trace s = trace s ++ evs /\ Forall isBuy evs)
    by (split_and!; try done; exists []; by rewrite app_nil_r).
  destruct (wallets bundle !! index) as [wallet|]; [|exact Hnone].
  destruct (validKey env (privateKey wallet)); cbn [negb]; [|exact Hnone].
  destruct (protectTransaction env buyTx) as [ptx|]; [|exact Hnone].
  assert (Hone : forall a : BuyResult,
            activeBundles (a, emit (BuySubmitted index ptx) s).2 = activeBundles s /\
            bundleResults (a, emit (BuySubmitted index ptx) s).2 = bundleResults s /\
            exists evs, trace (a, emit (BuySubmitted index ptx) s).2 = trace s ++ evs /\
              Forall isBuy evs).
  { intros a. split_and!; try done. exists [BuySubmitted index ptx]. split; [done|].
    by repeat constructor. }
  destruct (buyOutcome env index) as [|h|h rc]; [apply Hone|apply Hone|].
  destruct (receipt_status rc =? 1); [|apply Hone].
  destruct (Ethers.Number_formatUnits (buyAmount wallet) (10 ^ 18)); apply Hone.
Qed.

Lemma executeBuysFrom_spec env bundle txs : forall index acc s,
  activeBundles (executeBuysFrom env bundle index txs acc s).2 = activeBundles s /\
  bundleResults (executeBuysFrom env bundle index txs acc s).2 = bundleResults s /\
  exists evs, trace (executeBuysFrom env bundle index txs acc s).2 = trace s ++ evs /\
    Forall isBuy evs.
Proof.
  induction txs as [|tx txs IH]; intros index acc s; cbn [executeBuysFrom].
  { split_and!; try done. exists []. by rewrite app_nil_r. }
  destruct (executeBuyTransaction_spec env bundle index tx acc s) as (Ha & Hr & evs1 & Ht & Hb).
  destruct (executeBuyTransaction env bundle index tx acc s) as [acc1 s1]. cbn [snd] in *.
  destruct (IH (S index) acc1 s1) as (Ha' & Hr' & evs2 & Ht' & Hb').
  split_and!; [congruence|congruence|]. exists (evs1 ++ evs2).
  split; [rewrite Ht', Ht; by rewrite app_assoc|by apply Forall_app].
Qed.

(** An event that occurs in neither part of a list stands at their joint. *)
Lemma split_at_unique {A} (front back pre post : list A) (x y : A) :
  front ++ x :: back = pre ++ y :: post -> y ∉ front -> y ∉ back -> pre = front.
Proof.
  revert pre. induction front as [|a front IH]; intros [|p pre] Heq Hf Hb; cbn in Heq.
  - done.
  - injection Heq as -> ->. exfalso. apply Hb, elem_of_app. right. by left.
  - injection Heq as -> _. exfalso. apply Hf. by left.
  - injection Heq as -> Heq. f_equal. apply IH; [done| |done].
    intros Hin. apply Hf. by right.
Qed.

Lemma omap_statusOf_launch evs : Forall isLaunch evs -> omap statusOf evs = [].
Proof. induction 1 as [|e evs He _ IH]; [done|]. by destruct e. Qed.

Lemma launch_not_status evs b st : Forall isLaunch evs -> StatusSet b st ∉ evs.
Proof. intros Hall Hin. rewrite Forall_forall in Hall. by apply Hall in Hin. Qed.

Lemma buy_not_status evs b st : Forall isBuy evs -> StatusSet b st ∉ evs.
Proof. intros Hall Hin. rewrite Forall_forall in Hall. by apply Hall in Hin. Qed.

(** C2: in every execution of a bundle, the events of the execution put a
    status BUYING only after a receipt of status 1 for the launch
    transaction; and when the launch transaction is not confirmed, the
    statuses set are LAUNCHING then FAILED, no buy transaction is submitted
    and the bundle is left FAILED. *)
Theorem executeLaunchBundle_buying_after_confirmation env bundleId s :
  exists evs, trace (executeLaunchBundle env bundleId s).2 = trace s ++ evs /\
    (forall b pre post,
        evs = pre ++ StatusSet b BUYING :: post -> LaunchReceipt 1 ∈ pre) /\
    (forall bundle,
        activeBundles s !! bundleId = Some bundle ->
        launchConfirmed env bundle = false ->
        omap statusOf evs = [LAUNCHING; FAILED] /\
        Forall (fun e => ~ isBuy e) evs /\
        status <$> activeBundles (executeLaunchBundle env bundleId s).2 !! bundleId
          = Some FAILED).
Proof.
  unfold executeLaunchBundle.
  destruct (activeBundles s !! bundleId) as [bundle|] eqn:Hb.
  2:{ exists []. cbn. rewrite app_nil_r. split; [done|]. split; [|done].
      intros b [|] post; done. }
  unfold now. cbn [fst snd].
  set (s1 := {| activeBundles := activeBundles s; bundleResults := bundleResults s;
                trace := trace s; clock := S (clock s) |}).
  destruct (executeLaunchTransaction_spec env bundle (assignStatus bundleId LAUNCHING s1))
    as (Hsucc & Hact & Hres & levs & Htr & Hlaunch & Hreceipt).
  destruct (executeLaunchTransaction env bundle (assignStatus bundleId LAUNCHING s1))
    as [launchResult s3]. cbn [fst snd] in *.
  destruct (launch_success launchResult); cbn [negb].
  - (* the launch is confirmed *)
    destruct (executeBuysFrom_spec env bundle (buyTxs bundle) 0 noBuys
                (assignLaunched bundleId (launch_txHash launchResult)
                   (launch_blockNumber launchResult) (assignStatus bundleId BUYING s3)))
      as (_ & _ & bevs & Htb & Hbuys).
    unfold executeBuyTransactions.
    destruct (executeBuysFrom env bundle 0 (buyTxs bundle) noBuys _) as [acc s5].
    cbn [fst snd] in *. unfold now. cbn [fst snd trace emit assignStatus storeResult].
    match goal with |- context [StatusSet bundleId (if ?c then COMPLETED else FAILED)] =>
      set (final := if c then COMPLETED else FAILED) end.
    match goal with |- context [BundleExecuted ?r] => set (result := r) end.
    exists (([StatusSet bundleId LAUNCHING] ++ levs) ++
            StatusSet bundleId BUYING :: (bevs ++ [StatusSet bundleId final; BundleExecuted result])).
    split.
    { rewrite Htb. cbn [trace assignLaunched assignStatus emit]. rewrite Htr.
      cbn [trace assignStatus emit]. rewrite <- !app_assoc. done. }
    split.
    + intros b pre post Heq. apply split_at_unique in Heq as ->.
      * apply elem_of_app. right. by apply Hreceipt.
      * intros Hin. apply elem_of_app in Hin as [Hin|Hin].
        -- by apply list_elem_of_singleton in Hin.
        -- by eapply launch_not_status.
      * intros Hin. apply elem_of_app in Hin as [Hin|Hin]; [by eapply buy_not_status|].
        apply elem_of_cons in Hin as [Hin|Hin]; [|by apply list_elem_of_singleton in Hin].
        subst final. by destruct (_ && _).
    + intros bundle' [= <-] Hfail. congruence.
  - (* the launch failed *)
    unfold now. cbn [fst snd trace emit assignStatus].
    exists ([StatusSet bundleId LAUNCHING] ++ levs ++ [StatusSet bundleId FAILED]).
    split; [rewrite Htr; cbn [trace assignStatus emit]; by rewrite <- !app_assoc|].
    split.
    + intros b pre post Heq.
      assert (Hin : StatusSet b BUYING ∈ [StatusSet bundleId LAUNCHING] ++ levs ++
                                          [StatusSet bundleId FAILED]).
      { rewrite Heq. apply elem_of_app. right. by left. }
      apply elem_of_app in Hin as [Hin|Hin]; [by apply list_elem_of_singleton in Hin|].
      apply elem_of_app in Hin as [Hin|Hin]; [|by apply list_elem_of_singleton in Hin].
      by eapply launch_not_status in Hin.
    + intros bundle' [= <-] _. split; [|split].
      * rewrite !omap_app, (omap_statusOf_launch levs) by done. reflexivity.
      * apply Forall_app. split; [apply Forall_singleton; by intros []|].
        apply Forall_app. split.
        -- eapply Forall_impl; [exact Hlaunch|]. intros e Hl He. by destruct e.
        -- apply Forall_singleton. by intros [].
      * cbn [activeBundles assignStatus emit]. rewrite Hact.
        cbn [activeBundles assignStatus emit]. rewrite !lookup_alter_eq.
        subst s1. cbn [activeBundles]. rewrite Hb. done.
Qed.

(** A bundle whose launch transaction is reverted. *)
Lemma executeLaunchBundle_reverted_launch :
  exists evs,
    trace (executeLaunchBundle revertedLaunch "bundle_1" oneBundle).2 = evs /\
    omap statusOf evs = [LAUNCHING; FAILED] /\
    Forall (fun e => ~ isBuy e) evs /\
    status <$> activeBundles (executeLaunchBundle revertedLaunch "bundle_1" oneBundle).2
                 !! "bundle_1" = Some FAILED.
Proof.
  destruct (executeLaunchBundle_buying_after_confirmation revertedLaunch "bundle_1" oneBundle)
    as (evs & Htrace & _ & Hfailed).
  destruct (Hfailed pendingBundle ltac:(vm_compute; reflexivity) eq_refl)
    as (Hstatuses & Hbuys & Hstatus).
  exists evs. split; [exact Htrace|]. split; [exact Hstatuses|]. split; [exact Hbuys|].
  exact Hstatus.
Defined.

(** ** Further properties of the bundle orchestrator *)

(** *** The buys of a bundle *)

(** The task of one buy: the buy is counted, once when its amount can be
    formatted, at most one more hash is kept, and a submission is made only
    for a position that has a wallet with an accepted key. *)
Lemma executeBuyTransaction_counts env bundle index buyTx acc s :
  buyTxs bundle !! index = Some buyTx ->
  let acc' := (executeBuyTransaction env bundle index buyTx acc s).1 in
  let s' := (executeBuyTransaction env bundle index buyTx acc s).2 in
  (buy_successfulBuys acc + buy_failedBuys acc + 1
   <= buy_successfulBuys acc' + buy_failedBuys acc')%nat /\
  ((forall wallet, wallets bundle !! index = Some wallet -> formattable wallet) ->
   (buy_successfulBuys acc' + buy_failedBuys acc'
    = buy_successfulBuys acc + buy_failedBuys acc + 1)%nat) /\
  (buy_successfulBuys acc <= buy_successfulBuys acc' /\
   buy_failedBuys acc <= buy_failedBuys acc')%nat /\
  (length (buy_txHashes acc') <= S (length (buy_txHashes acc)))%nat /\
  (wallets bundle !! index = None -> buy_failedBuys acc' = S (buy_failedBuys acc)) /\
  exists evs, trace s' = trace s ++ evs /\ Forall (buySubmission env bundle) evs.
Proof.
  intros Htx. cbn zeta. unfold executeBuyTransaction.
  assert (Hnone : forall hashes,
            (length hashes <= S (length (buy_txHashes acc)))%nat ->
            let acc' := (buyFailed acc hashes, s).1 in
            let s' := (buyFailed acc hashes, s).2 in
            (buy_successfulBuys acc + buy_failedBuys acc + 1
             <= buy_successfulBuys acc' + buy_failedBuys acc')%nat /\
            ((forall wallet, wallets bundle !! index = Some wallet -> formattable wallet) ->
             (buy_successfulBuys acc' + buy_failedBuys acc'
              = buy_successfulBuys acc + buy_failedBuys acc + 1)%nat) /\
            (buy_successfulBuys acc <= buy_successfulBuys acc' /\
             buy_failedBuys acc <= buy_failedBuys acc')%nat /\
            (length (buy_txHashes acc') <= S (length (buy_txHashes acc)))%nat /\
            (wallets bundle !! index = None -> buy_failedBuys acc' = S (buy_failedBuys acc)) /\
            exists evs, trace s' = trace s ++ evs /\ Forall (buySubmission env bundle) evs).
  { intros hashes Hlen. cbn. split_and!; try lia. exists []. by rewrite app_nil_r. }
  destruct (wallets bundle !! index) as [wallet|] eqn:Hw; [|apply Hnone; lia].
  destruct (validKey env (privateKey wallet)) eqn:Hkey; cbn [negb]; [|apply Hnone; lia].
  destruct (protectTransaction env buyTx) as [ptx|] eqn:Hprotect; [|apply Hnone; lia].
  assert (Hev : Forall (buySubmission env bundle) [BuySubmitted index ptx]).
  { apply Forall_singleton. by exists wallet, buyTx. }
  destruct (buyOutcome env index) as [|h|h rc].
  - cbn. split_and!; try lia; try done. by eexists.
  - cbn. rewrite length_app. cbn. split_and!; try lia; try done. by eexists.
  - destruct (receipt_status rc =? 1).
    + unfold Ethers.Number_formatUnits, Ethers.formatUnits_throws.
      destruct (2 ^ 511 <=? Z.abs (buyAmount wallet)) eqn:Hamount.
      * cbn. rewrite length_app. cbn. split_and!; try lia; try done; [|by eexists].
        intros Hfits. specialize (Hfits wallet eq_refl). unfold formattable in Hfits.
        apply Z.leb_le in Hamount. lia.
      * cbn. rewrite length_app. cbn. split_and!; try lia; try done. by eexists.
    + cbn. rewrite length_app. cbn. split_and!; try lia; try done. by eexists.
Qed.

Lemma executeBuysFrom_counts env bundle txs : forall index acc s,
  (forall k buyTx, txs !! k = Some buyTx -> buyTxs bundle !! (index + k)%nat = Some buyTx) ->
  let acc' := (executeBuysFrom env bundle index txs acc s).1 in
  let s' := (executeBuysFrom env bundle index txs acc s).2 in
  (buy_successfulBuys acc + buy_failedBuys acc + length txs
   <= buy_successfulBuys acc' + buy_failedBuys acc')%nat /\
  (Forall formattable (wallets bundle) ->
   (buy_successfulBuys acc' + buy_failedBuys acc'
    = buy_successfulBuys acc + buy_failedBuys acc + length txs)%nat) /\
  (buy_successfulBuys acc <= buy_successfulBuys acc' /\
   buy_failedBuys acc <= buy_failedBuys acc')%nat /\
  (length (buy_txHashes acc') <= length (buy_txHashes acc) + length txs)%nat /\
  (buy_failedBuys acc + (index + length txs - index `max` length (wallets bundle))
   <= buy_failedBuys acc')%nat /\
  exists evs, trace s' = trace s ++ evs /\ Forall (buySubmission env bundle) evs.
Proof.
  induction txs as [|buyTx txs IH]; intros index acc s Hat; cbn zeta;
    cbn [executeBuysFrom length].
  { cbn. split_and!; try lia. exists []. by rewrite app_nil_r. }
  destruct (executeBuyTransaction_counts env bundle index buyTx acc s)
    as (Hlow & Hsum & Hmono & Hhash & Hmiss & evs1 & Htr1 & Hev1).
  { specialize (Hat 0%nat buyTx eq_refl). by rewrite Nat.add_0_r in Hat. }
  destruct (executeBuyTransaction env bundle index buyTx acc s) as [acc1 s1].
  cbn [fst snd] in *.
  destruct (IH (S index) acc1 s1)
    as (Hlow' & Hsum' & Hmono' & Hhash' & Hmiss' & evs2 & Htr2 & Hev2).
  { intros k tx Hk. specialize (Hat (S k) tx Hk).
    by replace (S index + k)%nat with (index + S k)%nat by lia. }
  split_and!; try lia.
  - intros Hfits. rewrite Hsum' by done. rewrite Hsum; [lia|].
    intros wallet Hw. rewrite Forall_forall in Hfits. apply Hfits.
    by eapply list_elem_of_lookup_2.
  - destruct (decide (length (wallets bundle) <= index)%nat) as [Hout|Hin].
    + rewrite Hmiss in Hmiss' by (by apply lookup_ge_None). lia.
    + lia.
  - exists (evs1 ++ evs2). rewrite Htr2, Htr1, app_assoc. split; [done|].
    by apply Forall_app.
Qed.

(** The execution of a bundle whose launch is not confirmed. *)
Lemma executeLaunchBundle_unconfirmed env bundleId s bundle :
  activeBundles s !! bundleId = Some bundle ->
  launchConfirmed env bundle = false ->
  exists levs,
    let result := (executeLaunchBundle env bundleId s).1 in
    let s' := (executeLaunchBundle env bundleId s).2 in
    Forall isLaunch levs /\
    trace s' = trace s ++ StatusSet bundleId LAUNCHING :: levs ++ [StatusSet bundleId FAILED] /\
    bundleResults s' = bundleResults s /\
    clock s' = S (S (clock s)) /\
    result = createFailedResult bundleId "Launch transaction failed"
               (Date_now env (S (clock s)) - Date_now env (clock s)).
Proof.
  intros Hb Hfailed. unfold executeLaunchBundle. rewrite Hb.
  unfold now. cbn [fst snd].
  set (s1 := {| activeBundles := activeBundles s; bundleResults := bundleResults s;
                trace := trace s; clock := S (clock s) |}).
  destruct (executeLaunchTransaction_spec env bundle (assignStatus bundleId LAUNCHING s1))
    as (Hsucc & Hact & Hres & levs & Htr & Hlaunch & _).
  assert (Hclock : clock (executeLaunchTransaction env bundle
                            (assignStatus bundleId LAUNCHING s1)).2 = S (clock s)).
  { unfold executeLaunchTransaction.
    destruct (protectTransaction env _); [|done].
    destruct (launchOutcome env) as [|h|h rc]; [done|done|].
    by destruct (receipt_status rc =? 1). }
  destruct (executeLaunchTransaction env bundle (assignStatus bundleId LAUNCHING s1))
    as [launchResult s3]. cbn [fst snd] in *.
  rewrite Hfailed in Hsucc. rewrite Hsucc. cbn [negb].
  unfold now. cbn [fst snd trace emit assignStatus bundleResults clock].
  exists levs. split; [done|]. rewrite Htr, Hres, Hclock.
  cbn [trace assignStatus emit bundleResults]. rewrite <- !app_assoc. done.
Qed.

(** The execution of a bundle whose launch is confirmed. *)
Lemma executeLaunchBundle_confirmed env bundleId s bundle :
  activeBundles s !! bundleId = Some bundle ->
  launchConfirmed env bundle = true ->
  exists s4 evs0,
    let acc := (executeBuysFrom env bundle 0 (buyTxs bundle) noBuys s4).1 in
    let s5 := (executeBuysFrom env bundle 0 (buyTxs bundle) noBuys s4).2 in
    let result := (executeLaunchBundle env bundleId s).1 in
    let s' := (executeLaunchBundle env bundleId s).2 in
    trace s4 = trace s ++ evs0 /\
    Forall (fun e => ~ isBuy e /\ ~ isBundleExecuted e) evs0 /\
    FourMemeBundler.bundleId result = bundleId /\
    launchSuccess result = true /\
    buySuccess result = (0 <? buy_successfulBuys acc)%nat /\
    success result = (0 <? buy_successfulBuys acc)%nat /\
    totalBuys result = length (buyTxs bundle) /\
    successfulBuys result = buy_successfulBuys acc /\
    failedBuys result = buy_failedBuys acc /\
    result_buyTxHashes result = buy_txHashes acc /\
    error result = None /\
    bundleResults s' = <[bundleId := result]> (bundleResults s) /\
    status <$> activeBundles s' !! bundleId
      = Some (if success result then COMPLETED else FAILED) /\
    trace s' = trace s5 ++ [StatusSet bundleId (if success result then COMPLETED else FAILED);
                            BundleExecuted result].
Proof.
  intros Hb Hconfirmed. unfold executeLaunchBundle. rewrite Hb.
  unfold now. cbn [fst snd].
  set (s1 := {| activeBundles := activeBundles s; bundleResults := bundleResults s;
                trace := trace s; clock := S (clock s) |}).
  destruct (executeLaunchTransaction_spec env bundle (assignStatus bundleId LAUNCHING s1))
    as (Hsucc & Hact & Hres & levs & Htr & Hlaunch & _).
  destruct (executeLaunchTransaction env bundle (assignStatus bundleId LAUNCHING s1))
    as [launchResult s3]. cbn [fst snd] in *.
  rewrite Hconfirmed in Hsucc. rewrite Hsucc. cbn [negb].
  set (s4 := assignLaunched bundleId (launch_txHash launchResult)
               (launch_blockNumber launchResult) (assignStatus bundleId BUYING s3)).
  exists s4, ([StatusSet bundleId LAUNCHING] ++ levs ++ [StatusSet bundleId BUYING]).
  pose proof (executeBuysFrom_spec env bundle (buyTxs bundle) 0 noBuys s4)
    as (Hact5 & Hres5 & _).
  unfold executeBuyTransactions.
  destruct (executeBuysFrom env bundle 0 (buyTxs bundle) noBuys s4) as [acc s5].
  cbn [fst snd] in *. unfold now.
  cbn [fst snd trace emit assignStatus storeResult success launchSuccess buySuccess
       totalBuys successfulBuys failedBuys result_buyTxHashes error buy_success
       buy_successfulBuys buy_failedBuys buy_txHashes bundleResults activeBundles andb
       FourMemeBundler.bundleId].
  split_and!; try done.
  - subst s4. cbn [trace assignLaunched assignStatus emit]. rewrite Htr.
    cbn [trace assignStatus emit]. by rewrite <- !app_assoc.
  - cbn [app]. apply Forall_cons. split; [split; by intros []|].
    apply Forall_app. split; [|apply Forall_singleton; split; by intros []].
    eapply Forall_impl; [exact Hlaunch|]. intros e He.
    destruct e; try done; split; by intros [].
  - rewrite Hres5. subst s4. cbn [bundleResults assignLaunched assignStatus emit].
    by rewrite Hres.
  - rewrite lookup_alter_eq, Hact5. subst s4.
    cbn [activeBundles assignLaunched assignStatus emit]. rewrite Hact.
    cbn [activeBundles assignStatus emit]. rewrite !lookup_alter_eq.
    subst s1. cbn [activeBundles]. rewrite Hb. done.
  - by rewrite <- app_assoc.
Qed.

(** X15: every buy of a bundle is counted: after a confirmed launch,
    [totalBuys] is the number of buy transactions of the bundle and
    [successfulBuys] and [failedBuys] add up to at least that number; they
    add up to exactly that number, every buy being counted once, when the
    buy amounts of the wallets are below 2^511 in magnitude, so that
    [formatEther] accepts them. At most one hash is kept for each buy, and a
    buy transaction without a wallet at its position is counted as
    failed. *)
Theorem executeLaunchBundle_counts_every_buy env bundleId s bundle :
  activeBundles s !! bundleId = Some bundle ->
  launchConfirmed env bundle = true ->
  let result := (executeLaunchBundle env bundleId s).1 in
  totalBuys result = length (buyTxs bundle) /\
  (totalBuys result <= successfulBuys result + failedBuys result)%nat /\
  (Forall formattable (wallets bundle) ->
   (successfulBuys result + failedBuys result = totalBuys result)%nat) /\
  (length (result_buyTxHashes result) <= totalBuys result)%nat /\
  (length (buyTxs bundle) - length (wallets bundle) <= failedBuys result)%nat.
Proof.
  intros Hb Hconfirmed.
  destruct (executeLaunchBundle_confirmed env bundleId s bundle Hb Hconfirmed)
    as (s4 & evs0 & _ & _ & _ & _ & _ & _ & Htotal & Hsucc & Hfail & Hhashes & _).
  destruct (executeBuysFrom_counts env bundle (buyTxs bundle) 0 noBuys s4)
    as (Hlow & Hsum & _ & Hlen & Hmiss & _); [done|].
  cbn zeta in *. rewrite Htotal, Hsucc, Hfail, Hhashes. cbn in *.
  split_and!; try lia. intros Hfits. specialize (Hsum Hfits). lia.
Qed.

Lemma executeLaunchBundle_short_of_wallets :
  let result := (executeLaunchBundle friendlyChain "bundle_2" twoBundles).1 in
  let doubled := (executeLaunchBundle friendlyChain "bundle_3" hugeBundle).1 in
  (totalBuys result = 3%nat /\ successfulBuys result = 2%nat /\ failedBuys result = 1%nat) /\
  (totalBuys doubled = 1%nat /\ successfulBuys doubled = 1%nat /\
   failedBuys doubled = 1%nat).
Proof.
  assert (Hfits : Forall formattable (wallets shortOfWallets)).
  { repeat constructor; unfold formattable; by vm_compute. }
  destruct (executeLaunchBundle_counts_every_buy friendlyChain "bundle_2" twoBundles
              shortOfWallets ltac:(vm_compute; reflexivity) eq_refl)
    as (Htotal & _ & Hsum & _ & Hmiss).
  specialize (Hsum Hfits). cbn zeta. split; vm_compute; done.
Defined.

(** *** How a bundle ends *)

(** X16: after a confirmed launch, a bundle succeeds as soon as one buy is
    confirmed, whatever became of the other buys: the result is a success
    exactly when [successfulBuys] is positive; it is stored under the
    identifier of the bundle, the bundle is left COMPLETED or FAILED
    accordingly, and the last event is [bundleExecuted] with that
    result. *)
Theorem executeLaunchBundle_succeeds_on_one_buy env bundleId s bundle :
  activeBundles s !! bundleId = Some bundle ->
  launchConfirmed env bundle = true ->
  let result := (executeLaunchBundle env bundleId s).1 in
  let s' := (executeLaunchBundle env bundleId s).2 in
  (success result = true <-> (0 < successfulBuys result)%nat) /\
  error result = None /\
  bundleResults s' !! bundleId = Some result /\
  status <$> activeBundles s' !! bundleId
    = Some (if success result then COMPLETED else FAILED) /\
  last (trace s') = Some (BundleExecuted result).
Proof.
  intros Hb Hconfirmed.
  destruct (executeLaunchBundle_confirmed env bundleId s bundle Hb Hconfirmed)
    as (s4 & evs0 & _ & _ & _ & _ & _ & Hsuccess & _ & Hsucc & _ & _ & Herr & Hstore
        & Hstatus & Htrace).
  cbn zeta in *. split_and!; try done.
  - rewrite Hsuccess, Hsucc. apply Nat.ltb_lt.
  - by rewrite Hstore, lookup_insert_eq.
  - by rewrite Htrace, last_app.
Qed.

Lemma executeLaunchBundle_one_of_three :
  let result := (executeLaunchBundle friendlyChain "bundle_2" twoBundles).1 in
  let s' := (executeLaunchBundle friendlyChain "bundle_2" twoBundles).2 in
  success result = true /\ failedBuys result = 1%nat /\
  status <$> activeBundles s' !! "bundle_2" = Some COMPLETED.
Proof.
  destruct (executeLaunchBundle_succeeds_on_one_buy friendlyChain "bundle_2" twoBundles
              shortOfWallets ltac:(vm_compute; reflexivity) eq_refl)
    as (_ & _ & _ & Hstatus & _).
  cbn zeta in *. split; [vm_compute; reflexivity|]. split; [vm_compute; reflexivity|].
  rewrite Hstatus. vm_compute. reflexivity.
Defined.

(** X17: during the execution of a bundle, a buy is submitted only for a
    position of the bundle that holds both a buy transaction and a wallet
    whose key is accepted, and in the protected form of that buy
    transaction. *)
Theorem executeLaunchBundle_buys_need_wallets env bundleId s bundle :
  activeBundles s !! bundleId = Some bundle ->
  exists evs, trace (executeLaunchBundle env bundleId s).2 = trace s ++ evs /\
    Forall (fun e => isBuy e -> buySubmission env bundle e) evs.
Proof.
  intros Hb. destruct (launchConfirmed env bundle) eqn:Hconfirmed.
  - destruct (executeLaunchBundle_confirmed env bundleId s bundle Hb Hconfirmed)
      as (s4 & evs0 & Htr4 & Hevs0 & Hrest).
    destruct (executeBuysFrom_counts env bundle (buyTxs bundle) 0 noBuys s4)
      as (_ & _ & _ & _ & _ & evs & Htr5 & Hevs); [done|].
    cbn zeta in *.
    destruct Hrest as (_ & _ & _ & _ & _ & _ & _ & _ & _ & _ & _ & Htrace).
    eexists. rewrite Htrace, Htr5, Htr4, <- !app_assoc. split; [done|].
    apply Forall_app. split.
    { eapply Forall_impl; [exact Hevs0|]. by intros e [Hnot _] He. }
    apply Forall_app. split.
    { eapply Forall_impl; [exact Hevs|]. by intros e He _. }
    repeat constructor; by intros [].
  - destruct (executeLaunchBundle_unconfirmed env bundleId s bundle Hb Hconfirmed)
      as (levs & Hlaunch & Htrace & _).
    cbn zeta in *. eexists. split; [exact Htrace|].
    apply Forall_cons. split; [by intros []|]. apply Forall_app. split.
    + eapply Forall_impl; [exact Hlaunch|]. intros e Hl He. by destruct e.
    + apply Forall_singleton. by intros [].
Qed.

Lemma executeLaunchBundle_third_buy_not_submitted :
  exists evs,
    trace (executeLaunchBundle friendlyChain "bundle_2" twoBundles).2 = evs /\
    Forall (fun e => isBuy e -> buySubmission friendlyChain shortOfWallets e) evs /\
    omap buyIndex evs = [0; 1]%nat.
Proof.
  destruct (executeLaunchBundle_buys_need_wallets friendlyChain "bundle_2" twoBundles
              shortOfWallets ltac:(vm_compute; reflexivity)) as (evs & Htrace & Hall).
  exists evs. split; [exact Htrace|]. split; [exact Hall|].
  cbn [trace twoBundles app] in Htrace. rewrite <- Htrace. vm_compute. reflexivity.
Defined.

(** *** Failures and their records *)

(** X18: the two failures of an execution are recorded differently. A bundle
    whose launch is not confirmed leaves no record: the failure is returned
    to the caller, with no buys counted although the bundle has some, but
    it is not stored in [bundleResults] and no [bundleExecuted] event is
    emitted. An identifier that names no bundle does leave one: the
    failure "Bundle <id> not found" is stored under that identifier,
    replacing what was stored there, while nothing else happens: no status
    is set, no event is emitted and the clock is not read. *)
Theorem executeLaunchBundle_failure_records env bundleId s :
  let result := (executeLaunchBundle env bundleId s).1 in
  let s' := (executeLaunchBundle env bundleId s).2 in
  (forall bundle,
      activeBundles s !! bundleId = Some bundle ->
      launchConfirmed env bundle = false ->
      bundleResults s' = bundleResults s /\
      (exists evs, trace s' = trace s ++ evs /\
                   Forall (fun e => ~ isBundleExecuted e) evs) /\
      success result = false /\ error result = Some "Launch transaction failed" /\
      totalBuys result = 0%nat /\ failedBuys result = 0%nat /\
      executionTime result = Date_now env (S (clock s)) - Date_now env (clock s)) /\
  (activeBundles s !! bundleId = None ->
   error result = Some (String.append "Bundle " (String.append bundleId " not found")) /\
   success result = false /\ executionTime result = 0 /\
   bundleResults s' = <[bundleId := result]> (bundleResults s) /\
   activeBundles s' = activeBundles s /\ trace s' = trace s /\ clock s' = clock s).
Proof.
  cbn zeta. split.
  - intros bundle Hb Hfailed.
    destruct (executeLaunchBundle_unconfirmed env bundleId s bundle Hb Hfailed)
      as (levs & Hlaunch & Htrace & Hres & _ & Hresult).
    cbn zeta in *. rewrite Hresult. split_and!; try done.
    eexists. split; [exact Htrace|].
    apply Forall_cons. split; [by intros []|]. apply Forall_app. split.
    + eapply Forall_impl; [exact Hlaunch|]. intros e Hl He. by destruct e.
    + apply Forall_singleton. by intros [].
  - intros Hnone. unfold executeLaunchBundle. rewrite Hnone. done.
Qed.

Lemma executeLaunchBundle_failures_of_oneBundle :
  bundleResults (executeLaunchBundle revertedLaunch "bundle_1" oneBundle).2 = ∅ /\
  success (executeLaunchBundle revertedLaunch "bundle_1" oneBundle).1 = false /\
  bundleResults (executeLaunchBundle revertedLaunch "bundle_7" oneBundle).2
    !! "bundle_7" = Some (executeLaunchBundle revertedLaunch "bundle_7" oneBundle).1 /\
  error (executeLaunchBundle revertedLaunch "bundle_7" oneBundle).1
    = Some "Bundle bundle_7 not found".
Proof.
  destruct (executeLaunchBundle_failure_records revertedLaunch "bundle_1" oneBundle)
    as [Hfailed _].
  destruct (Hfailed pendingBundle ltac:(vm_compute; reflexivity) eq_refl)
    as (Hres & _ & Hsucc & _).
  destruct (executeLaunchBundle_failure_records revertedLaunch "bundle_7" oneBundle)
    as [_ Hunknown].
  destruct (Hunknown ltac:(vm_compute; reflexivity)) as (Herr & _ & _ & Hstore & _).
  split_and!; [exact Hres|exact Hsucc|by rewrite Hstore, lookup_insert_eq|exact Herr].
Defined.

End FourMemeBundlerProofs.

(** ** MEVProtection *)

Module MEVProtectionProofs.
Import JSNumber JSNumberSpec JSNumberProofs MEVProtection MEVProtectionSpec.

(** *** The levels of risk *)

(** The sums of the risk weights, in double precision: a contract that is
    taken for an exchange makes the level CRITICAL, a high value together
    with a low gas price makes it MEDIUM (0.2 + 0.3 is 0.5, which is not
    above 0.5), and anything else leaves it LOW. *)
Lemma levelOf_assessRisks dex highValue lowGasPrice :
  levelOf (add (add (assessRisks dex highValue lowGasPrice).1.1.1
                    (assessRisks dex highValue lowGasPrice).1.1.2)
               (assessRisks dex highValue lowGasPrice).1.2)
  = if dex then CRITICAL else if highValue && lowGasPrice then MEDIUM else LOW.
Proof. destruct dex, highValue, lowGasPrice; vm_compute; reflexivity. Qed.

Lemma analyzeMEVRisk_try_level env transaction analysis :
  analyzeMEVRisk_try env transaction = Some analysis ->
  exists (dex : bool) fee,
    (dex = true <->
     exists address contractCode,
       truthy (to transaction) = Some address /\
       getCode env address = Some contractCode /\
       isDEXInteraction contractCode = true) /\
    getFeeData env 0 = Some fee /\
    riskLevel analysis =
      (if dex then CRITICAL
       else if above (value transaction) (10 ^ 18)
               && below (gasPrice transaction)
                        (GasOptimizer.orZero (GasOptimizer.fee_gasPrice fee))
            then MEDIUM else LOW) /\
    recommendedGasPrice analysis = getRecommendedGasPrice env (riskLevel analysis) /\
    recommendedPriorityFee analysis = getRecommendedPriorityFee env (riskLevel analysis).
Proof.
  unfold analyzeMEVRisk_try.
  set (lookup := match truthy (to transaction) with Some _ => _ | None => _ end).
  assert (Hlookup : forall dex : bool, lookup = Some dex ->
            (dex = true <->
             exists address contractCode,
               truthy (to transaction) = Some address /\
               getCode env address = Some contractCode /\
               isDEXInteraction contractCode = true)).
  { subst lookup. intros dex. destruct (truthy (to transaction)) as [address|].
    - destruct (getCode env address) as [code|] eqn:Hcode; [|done].
      cbn [mbind option_bind]. intros [= <-]. split.
      + intros Hyes. by exists address, code.
      + intros (address' & code' & [= <-] & Hcode' & Hyes). congruence.
    - intros [= <-]. split; [done|]. by intros (? & ? & ? & _). }
  destruct lookup as [dex|]; [|done]. cbn [mbind option_bind].
  destruct (getFeeData env 0) as [fee|]; [|done]. cbn [mbind option_bind].
  pose proof (levelOf_assessRisks dex (above (value transaction) (10 ^ 18))
                (below (gasPrice transaction)
                   (GasOptimizer.orZero (GasOptimizer.fee_gasPrice fee)))) as Hlevel.
  destruct (assessRisks dex _ _) as [[[f sw] a] m]. cbn [fst snd] in Hlevel.
  intros [= <-]. exists dex, fee. cbn [riskLevel recommendedGasPrice recommendedPriorityFee].
  rewrite Hlevel. split; [by apply Hlookup|done].
Qed.

Lemma analyzeMEVRisk_levels env transaction :
  riskLevel (analyzeMEVRisk env transaction) = LOW \/
  riskLevel (analyzeMEVRisk env transaction) = MEDIUM \/
  riskLevel (analyzeMEVRisk env transaction) = CRITICAL.
Proof.
  unfold analyzeMEVRisk.
  destruct (analyzeMEVRisk_try env transaction) as [analysis|] eqn:Htry; [|by left].
  apply analyzeMEVRisk_try_level in Htry as (dex & fee & _ & _ & -> & _).
  destruct dex; [by right; right|]. destruct (_ && _); [by right; left|by left].
Qed.

(** X19: the analysis never finds a HIGH risk: the weights that the checks add
    up only reach the CRITICAL, the MEDIUM and the LOW band. The risk is
    CRITICAL exactly when the code at the destination is taken for an
    exchange and the fee data could be read. *)
Theorem analyzeMEVRisk_never_HIGH env transaction :
  riskLevel (analyzeMEVRisk env transaction) <> HIGH /\
  (riskLevel (analyzeMEVRisk env transaction) = CRITICAL <->
   exists address contractCode fee,
     truthy (to transaction) = Some address /\
     getCode env address = Some contractCode /\
     isDEXInteraction contractCode = true /\
     getFeeData env 0 = Some fee).
Proof.
  unfold analyzeMEVRisk.
  destruct (analyzeMEVRisk_try env transaction) as [analysis|] eqn:Htry.
  - apply analyzeMEVRisk_try_level in Htry as (dex & fee & Hdex & Hfee & -> & _).
    split; [destruct dex; [done|]; by destruct (_ && _)|].
    split.
    + intros Hcritical. destruct dex; [|by destruct (_ && _)].
      destruct (proj1 Hdex eq_refl) as (address & code & Hto & Hcode & Hyes).
      by exists address, code, fee.
    + intros (address & code & fee' & Hto & Hcode & Hyes & _).
      rewrite (proj2 Hdex); [done|]. by exists address, code.
  - split; [done|]. split; [done|].
    intros (address & code & fee & Hto & Hcode & Hyes & Hfee). exfalso.
    unfold analyzeMEVRisk_try in Htry. rewrite Hto, Hcode in Htry.
    cbn [mbind option_bind] in Htry. rewrite Hfee in Htry. cbn [mbind option_bind] in Htry.
    by destruct (assessRisks _ _ _) as [[[? ?] ?] ?].
Qed.

(** *** What the protection changes *)

(** X20: the protection of a transaction rewrites nothing but fee fields, and
    these only at the highest level: the destination, the sender, the
    value, the gas limit and the data are those of the request; the level
    is never HIGH; below MAXIMUM the request is returned unchanged, and at
    MAXIMUM its gas price and fee cap are the recommended gas price and
    its priority fee the recommended one. *)
Theorem protectTransaction_rewrites_fees_only cfg env transaction :
  let protected := protectTransaction cfg env transaction in
  to (MEVProtection.transaction protected) = to transaction /\
  from (MEVProtection.transaction protected) = from transaction /\
  value (MEVProtection.transaction protected) = value transaction /\
  gasLimit (MEVProtection.transaction protected) = gasLimit transaction /\
  data (MEVProtection.transaction protected) = data transaction /\
  protectionLevel protected <> PROTECTION_HIGH /\
  (protectionLevel protected <> MAXIMUM ->
   MEVProtection.transaction protected = transaction) /\
  (protectionLevel protected = MAXIMUM ->
   gasPrice (MEVProtection.transaction protected) = Some (estimatedGasPrice protected) /\
   maxFeePerGas (MEVProtection.transaction protected) = Some (estimatedGasPrice protected) /\
   maxPriorityFeePerGas (MEVProtection.transaction protected) = Some (priorityFee protected)).
Proof.
  cbn zeta. unfold protectTransaction.
  destruct (enabled cfg); cbn [negb]; [|by split_and!].
  pose proof (analyzeMEVRisk_levels env transaction) as Hlevels.
  unfold applyProtection. set (analysis := analyzeMEVRisk env transaction) in *.
  destruct (riskLevel analysis); cbn [orb];
    (destruct (getTransactionCount env _) as [count|]; [|by split_and!]);
    cbn; [by split_and!..| |by split_and!].
  by destruct Hlevels as [?|[?|?]].
Qed.

Lemma protectTransaction_swap_on_source_code :
  let protected := protectTransaction defaultMEVConfig sourceCodeProvider swapRequest in
  protectionLevel protected = MAXIMUM /\
  gasPrice (MEVProtection.transaction protected) = Some 7500000000 /\
  maxFeePerGas (MEVProtection.transaction protected) = Some 7500000000 /\
  maxPriorityFeePerGas (MEVProtection.transaction protected) = Some 2000000000 /\
  data (MEVProtection.transaction protected) = Some "0x".
Proof.
  pose proof (protectTransaction_rewrites_fees_only defaultMEVConfig sourceCodeProvider
                swapRequest) as (_ & _ & _ & _ & Hdata & _ & _ & Hmax).
  cbn zeta in *.
  assert (Hlevel : protectionLevel (protectTransaction defaultMEVConfig sourceCodeProvider
                                      swapRequest) = MAXIMUM) by (vm_compute; reflexivity).
  destruct (Hmax Hlevel) as (Hgas & Hcap & Hfee).
  split; [exact Hlevel|]. rewrite Hgas, Hcap, Hfee, Hdata.
  split_and!; vm_compute; reflexivity.
Defined.

(** *** Byte code is never taken for an exchange *)

Lemma prefix_occurs c : forall pattern s,
  String.prefix pattern s = true -> occurs c pattern = true -> occurs c s = true.
Proof.
  induction pattern as [|a pattern IH]; intros [|b s] Hprefix Hc; cbn in *; try done.
  destruct (ascii_dec a b) as [->|]; [|done].
  apply orb_true_iff in Hc as [Hc|Hc]; apply orb_true_iff; [by left|].
  right. by apply IH.
Qed.

Lemma includes_occurs c pattern : forall s,
  includes s pattern = true -> occurs c pattern = true -> occurs c s = true.
Proof.
  induction s as [|a s IH]; intros Hin Hc; cbn [includes] in Hin.
  - rewrite orb_false_r in Hin. by eapply prefix_occurs.
  - apply orb_true_iff in Hin as [Hin|Hin]; [by eapply prefix_occurs|].
    cbn [occurs]. apply orb_true_iff. right. by apply IH.
Qed.

Lemma hexString_occurs c : forall s,
  hexString s = true -> occurs c s = true -> hexChar c = true.
Proof.
  induction s as [|a s IH]; intros Hhex Hc; cbn in *; [done|].
  apply andb_true_iff in Hhex as [Ha Hs].
  apply orb_true_iff in Hc as [Hc|Hc]; [|by apply IH].
  apply Ascii.eqb_eq in Hc as <-. exact Ha.
Qed.

(** A pattern with a character that is no hexadecimal digit does not occur
    in a hexadecimal string. *)
Lemma includes_hexString c s pattern :
  hexString s = true -> occurs c pattern = true -> hexChar c = false ->
  includes s pattern = false.
Proof.
  intros Hhex Hc Hnot. destruct (includes s pattern) eqn:Hin; [|done].
  pose proof (includes_occurs c pattern s Hin Hc) as Hcs.
  pose proof (hexString_occurs c s Hhex Hcs). congruence.
Qed.

Lemma isDEXInteraction_hexString contractCode :
  hexString contractCode = true -> isDEXInteraction contractCode = false.
Proof.
  intros Hhex. unfold isDEXInteraction, dexPatterns. cbn [existsb].
  rewrite (includes_hexString "w" contractCode "swapExactTokensForTokens") by done.
  rewrite (includes_hexString "w" contractCode "swapExactETHForTokens") by done.
  rewrite (includes_hexString "L" contractCode "addLiquidity") by done.
  rewrite (includes_hexString "L" contractCode "removeLiquidity") by done.
  by rewrite (includes_hexString "w" contractCode "swap").
Qed.

Lemma analyzeMEVRisk_CRITICAL env transaction :
  riskLevel (analyzeMEVRisk env transaction) = CRITICAL ->
  exists address contractCode,
    truthy (to transaction) = Some address /\
    getCode env address = Some contractCode /\
    isDEXInteraction contractCode = true.
Proof.
  unfold analyzeMEVRisk.
  destruct (analyzeMEVRisk_try env transaction) as [analysis|] eqn:Htry; [|done].
  apply analyzeMEVRisk_try_level in Htry as (dex & fee & Hdex & _ & -> & _).
  destruct dex; [|by destruct (_ && _)]. intros _. by apply Hdex.
Qed.

(** X21: against a provider that answers [getCode] with byte code, as a node
    does, no transaction is found at CRITICAL risk: the patterns that
    [isDEXInteraction] looks for are names of functions, and none of them
    can occur in a hexadecimal string. So the protection never rewrites a
    fee field: every transaction is returned as it came. *)
Theorem protectTransaction_keeps_request_on_byte_code cfg env transaction :
  (forall address contractCode,
      getCode env address = Some contractCode -> hexString contractCode = true) ->
  riskLevel (analyzeMEVRisk env transaction) <> CRITICAL /\
  protectionLevel (protectTransaction cfg env transaction) <> MAXIMUM /\
  MEVProtection.transaction (protectTransaction cfg env transaction) = transaction.
Proof.
  intros Hhex.
  assert (Hnot : riskLevel (analyzeMEVRisk env transaction) <> CRITICAL).
  { intros (address & code & _ & Hcode & Hyes)%analyzeMEVRisk_CRITICAL.
    rewrite (isDEXInteraction_hexString code) in Hyes; [done|]. by eapply Hhex. }
  split; [done|].
  pose proof (analyzeMEVRisk_levels env transaction) as Hlevels.
  unfold protectTransaction. destruct (enabled cfg); cbn [negb]; [|done].
  unfold applyProtection. set (analysis := analyzeMEVRisk env transaction) in *.
  destruct (riskLevel analysis); cbn [orb];
    (destruct (getTransactionCount env _) as [count|]; [|done]); cbn; try done.
  by destruct Hlevels as [?|[?|?]].
Qed.

Lemma protectTransaction_swap_on_byte_code :
  riskLevel (analyzeMEVRisk byteCodeProvider swapRequest) = MEDIUM /\
  MEVProtection.transaction (protectTransaction defaultMEVConfig byteCodeProvider swapRequest)
    = swapRequest.
Proof.
  split; [vm_compute; reflexivity|].
  apply (protectTransaction_keeps_request_on_byte_code defaultMEVConfig byteCodeProvider
           swapRequest).
  intros address code [= <-]. vm_compute. reflexivity.
Defined.

(** *** The recommended fees *)

Lemma escalated_not_below base multiplier fallback :
  0 <= base < 2 ^ 53 -> is_number multiplier = true ->
  le (ofBigInt 1) multiplier = true -> le multiplier (ofBigInt 2) = true ->
  base <=
    match BigInt_floor (mul (ofBigInt base) multiplier) with
    | Some price => price
    | None => fallback
    end.
Proof.
  intros Hbase Hnum Hone Htwo.
  by destruct (BigInt_floor_mul_total base multiplier Hbase Hnum Hone Htwo) as (price & -> & ?).
Qed.

(** X22: the recommended fees do not undercut the network: whenever the provider
    answers with a fee reading below 2^53 wei, the recommended gas price is
    at least the gas price of the reading, and the recommended priority fee
    at least its priority fee, at every level of risk. The fallbacks of
    5 gwei and of 1 gwei are what is recommended when the provider
    rejects. *)
Theorem getRecommendedGasPrice_not_below_network env riskLevel :
  (forall feeData, getFeeData env 1 = Some feeData ->
     let baseGasPrice := GasOptimizer.orZero (GasOptimizer.fee_gasPrice feeData) in
     0 <= baseGasPrice < 2 ^ 53 ->
     baseGasPrice <= getRecommendedGasPrice env riskLevel) /\
  (forall feeData, getFeeData env 2 = Some feeData ->
     let basePriorityFee :=
       GasOptimizer.orZero (GasOptimizer.fee_maxPriorityFeePerGas feeData) in
     0 <= basePriorityFee < 2 ^ 53 ->
     basePriorityFee <= getRecommendedPriorityFee env riskLevel) /\
  (getFeeData env 1 = None -> getRecommendedGasPrice env riskLevel = 5 * 1000000000) /\
  (getFeeData env 2 = None -> getRecommendedPriorityFee env riskLevel = 1 * 1000000000).
Proof.
  split_and!.
  - intros feeData Hfee base Hbase. unfold getRecommendedGasPrice. rewrite Hfee. cbv zeta.
    apply escalated_not_below; [done|by destruct riskLevel..].
  - intros feeData Hfee base Hbase. unfold getRecommendedPriorityFee. rewrite Hfee.
    cbv zeta. apply escalated_not_below; [done|by destruct riskLevel..].
  - intros Hfee. unfold getRecommendedGasPrice. by rewrite Hfee.
  - intros Hfee. unfold getRecommendedPriorityFee. by rewrite Hfee.
Qed.

Lemma getRecommendedGasPrice_of_networkFee :
  5000000000 <= getRecommendedGasPrice byteCodeProvider CRITICAL /\
  1000000000 <= getRecommendedPriorityFee byteCodeProvider CRITICAL.
Proof.
  pose proof (getRecommendedGasPrice_not_below_network byteCodeProvider CRITICAL)
    as (Hgas & Hfee & _).
  split; [apply (Hgas networkFee)|apply (Hfee networkFee)]; done.
Defined.

(** *** The protection of a bundle *)

Lemma applyProtection_unread cfg env transaction analysis :
  getTransactionCount env (orEmpty (from transaction)) = None ->
  applyProtection cfg env transaction analysis = createBasicProtection env transaction.
Proof.
  intros Hcount. unfold applyProtection.
  destruct (riskLevel analysis); cbn [orb]; by rewrite Hcount.
Qed.

Lemma protectTransaction_object_spec cfg env r σ t :
  wellFormed σ -> objects σ !! r = Some t ->
  exists p σ1,
    protectTransaction_object cfg env r σ = Some (p, σ1) /\
    wellFormed σ1 /\ (fresh σ <= fresh σ1)%nat /\
    (forall r', (r' < fresh σ)%nat -> objects σ1 !! r' = objects σ !! r') /\
    objects σ1 !! p = Some (MEVProtection.transaction (protectTransaction cfg env t)) /\
    (p < fresh σ1)%nat /\
    ((p = r /\ σ1 = σ /\
      (enabled cfg = false \/ getTransactionCount env (orEmpty (from t)) = None)) \/
     (p = fresh σ /\ enabled cfg = true /\
      is_Some (getTransactionCount env (orEmpty (from t))))).
Proof.
  intros Hwf Hr. unfold protectTransaction_object, protectTransaction.
  rewrite Hr. cbn [mbind option_bind].
  assert (Hlt : (r < fresh σ)%nat) by (apply Hwf; by eexists).
  destruct (enabled cfg) eqn:Hen; cbn [negb].
  - destruct (getTransactionCount env (orEmpty (from t))) as [count|] eqn:Hcount.
    + eexists _, _. split; [done|]. cbn [new fst snd objects fresh].
      split_and!.
      * intros r' [t' Hr']. cbn [objects fresh] in *.
        destruct (decide (r' = fresh σ)) as [->|Hne]; [lia|].
        rewrite lookup_insert_ne in Hr' by done.
        assert (r' < fresh σ)%nat by (apply Hwf; by eexists). lia.
      * lia.
      * intros r' Hr'. apply lookup_insert_ne. lia.
      * by rewrite lookup_insert_eq.
      * lia.
      * right. split_and!; [done|done|by eexists].
    + exists r, σ. split_and!; try done.
      * by rewrite applyProtection_unread.
      * left. split_and!; [done|done|by right].
  - exists r, σ. split_and!; try done. left. split_and!; [done|done|by left].
Qed.

Lemma protectEach_spec cfg env : forall transactions requests i σ,
  wellFormed σ -> NoDup transactions -> stands σ transactions requests ->
  exists ps σ1,
    protectEach cfg env i transactions σ = Some (ps, σ1) /\
    wellFormed σ1 /\ (fresh σ <= fresh σ1)%nat /\
    (forall r, (r < fresh σ)%nat -> objects σ1 !! r = objects σ !! r) /\
    stands σ1 ps
      (imap (fun k t => MEVProtection.transaction (protectTransaction cfg (env (i + k)%nat) t))
            requests) /\
    NoDup ps /\
    Forall (fun p => (p < fresh σ1)%nat /\ (p ∈ transactions \/ (fresh σ <= p)%nat)) ps /\
    (enabled cfg = false -> ps = transactions /\ σ1 = σ) /\
    (enabled cfg = true ->
     (forall k t, requests !! k = Some t ->
        is_Some (getTransactionCount (env (i + k)%nat) (orEmpty (from t)))) ->
     Forall (fun p => (fresh σ <= p)%nat) ps).
Proof.
  induction transactions as [|r rest IH]; intros requests i σ Hwf Hnd Hst.
  - apply Forall2_nil_inv_l in Hst as ->. exists [], σ.
    split_and!; try done; constructor.
  - apply Forall2_cons_inv_l in Hst as (t & ts & Hr & Hrest & ->).
    apply NoDup_cons in Hnd as [Hnotin Hnd].
    destruct (protectTransaction_object_spec cfg (env i) r σ t Hwf Hr)
      as (p & σ1 & Hp & Hwf1 & Hfresh1 & Hframe1 & Hval & Hplt & Hcase).
    assert (Hrest1 : stands σ1 rest ts).
    { eapply Forall2_impl; [exact Hrest|]. intros r' t' Hr'. cbn beta in *.
      rewrite Hframe1; [done|]. apply Hwf. by eexists. }
    destruct (IH ts (S i) σ1 Hwf1 Hnd Hrest1)
      as (ps & σ2 & Hps & Hwf2 & Hfresh2 & Hframe2 & Hst2 & Hnd2 & Hall & Hoff & Hon).
    exists (p :: ps), σ2. cbn [protectEach]. rewrite Hp. cbn [mbind option_bind].
    rewrite Hps. cbn [mbind option_bind]. split; [done|].
    assert (Hrestlt : forall r', r' ∈ rest -> (r' < fresh σ)%nat).
    { intros r' Hin. apply (list_elem_of_lookup_1 rest) in Hin as [k Hk].
      destruct (Forall2_lookup_l _ _ _ _ _ Hrest Hk) as (t' & _ & Hr').
      apply Hwf. by eexists. }
    split_and!; try done.
    + lia.
    + intros r' Hr'. rewrite Hframe2 by lia. by apply Hframe1.
    + rewrite imap_cons. constructor.
      * rewrite Nat.add_0_r. rewrite Hframe2 by done. exact Hval.
      * replace (imap ((fun k t' => MEVProtection.transaction
                          (protectTransaction cfg (env (i + k)%nat) t')) ∘ S) ts)
          with (imap (fun k t' => MEVProtection.transaction
                          (protectTransaction cfg (env (S i + k)%nat) t')) ts); [done|].
        apply imap_ext. intros k t' _. cbn. do 3 f_equal. lia.
    + apply NoDup_cons. split; [|done]. intros Hin.
      rewrite Forall_forall in Hall. destruct (Hall p Hin) as [_ [Hin'|Hge]].
      * destruct Hcase as [(-> & _)|(-> & _)]; [done|].
        specialize (Hrestlt _ Hin'). lia.
      * destruct Hcase as [(-> & -> & _)|(-> & _ & _)].
        -- assert (r < fresh σ)%nat by (apply Hwf; by eexists). lia.
        -- assert (is_Some (objects σ1 !! fresh σ)) as Hsome by (by eexists).
           lia.
    + constructor.
      * split; [lia|]. destruct Hcase as [(-> & _)|(-> & _)]; [left; by left|by right].
      * eapply Forall_impl; [exact Hall|]. intros p' [Hlt' [Hin'|Hge']]; cbn beta.
        -- split; [done|]. left. by right.
        -- split; [done|]. right. lia.
    + intros Hen. destruct (Hoff Hen) as [-> ->].
      destruct Hcase as [(-> & -> & _)|(_ & Hen' & _)]; [done|congruence].
    + intros Hen Hcount. constructor.
      * destruct Hcase as [(_ & _ & [Hen'|Hnone])|(-> & _)]; [congruence| |done].
        specialize (Hcount 0%nat t eq_refl). rewrite Nat.add_0_r, Hnone in Hcount.
        by destruct Hcount.
      * eapply Forall_impl; [apply (Hon Hen)|].
        -- intros k t' Hk. replace (S i + k)%nat with (i + S k)%nat by lia.
           by apply (Hcount (S k)).
        -- intros p' Hp'. cbn beta in *. lia.
Qed.

Lemma compareGasPrice_requests σ a b ta tb :
  objects σ !! a = Some ta -> objects σ !! b = Some tb ->
  compareGasPrice σ a b = compareRequests ta tb.
Proof. intros Ha Hb. unfold compareGasPrice. by rewrite Ha, Hb. Qed.

Lemma compareRequests_sgn a b :
  compareRequests a b = Z.sgn (gasPriceOf b - gasPriceOf a).
Proof. apply sort_sign_ofBigInt. Qed.

Lemma sort_insert_stands σ r t acc vacc :
  objects σ !! r = Some t -> stands σ acc vacc ->
  stands σ (BatchProcessor.sort_insert (compareGasPrice σ) r acc)
           (BatchProcessor.sort_insert compareRequests t vacc).
Proof.
  intros Hr Hst.
  induction Hst as [|a ta acc vacc Ha Hst IH]; cbn [BatchProcessor.sort_insert].
  - by constructor.
  - rewrite (compareGasPrice_requests σ r a t ta) by done.
    destruct (compareRequests t ta <? 0); constructor; try done. by constructor.
Qed.

Lemma Array_sort_stands σ refs requests :
  stands σ refs requests ->
  stands σ (BatchProcessor.Array_sort (compareGasPrice σ) refs)
           (BatchProcessor.Array_sort compareRequests requests).
Proof.
  unfold BatchProcessor.Array_sort.
  assert (Hacc : stands σ [] []) by constructor. revert Hacc.
  generalize (@nil ref) (@nil TransactionRequest). intros acc vacc Hacc Hst.
  revert acc vacc Hacc.
  induction Hst as [|r t refs requests Hr Hst IH]; intros acc vacc Hacc;
    cbn [fold_left]; [done|].
  apply IH. by apply sort_insert_stands.
Qed.

(** The bundle is put in the order of decreasing gas prices. *)
Lemma Array_sort_compareRequests requests :
  BatchProcessor.Array_sort compareRequests requests ≡ₚ requests /\
  StronglySorted (fun a b => gasPriceOf b <= gasPriceOf a)
                 (BatchProcessor.Array_sort compareRequests requests).
Proof.
  split; [apply BatchProcessorProofs.Array_sort_Permutation|].
  eapply BatchProcessorProofs.StronglySorted_weaken;
    [|apply BatchProcessorProofs.Array_sort_sorted].
  - intros a b. unfold BatchProcessorSpec.precedes. rewrite compareRequests_sgn.
    rewrite Z.sgn_nonpos. lia.
  - intros a b. rewrite !compareRequests_sgn, Z.sgn_nonneg, Z.sgn_nonpos. lia.
  - intros a b c. rewrite !compareRequests_sgn, !Z.sgn_nonpos. lia.
Qed.

Lemma delayFrom_spec : forall refs requests i σ,
  NoDup refs -> stands σ refs requests ->
  exists σ',
    delayFrom (S i) refs σ = Some σ' /\
    stands σ' refs (padded <$> requests) /\
    (forall r, r ∉ refs -> objects σ' !! r = objects σ !! r).
Proof.
  induction refs as [|r rest IH]; intros requests i σ Hnd Hst.
  - apply Forall2_nil_inv_l in Hst as ->. exists σ. by split_and!; [|constructor|].
  - apply Forall2_cons_inv_l in Hst as (t & ts & Hr & Hrest & ->).
    apply NoDup_cons in Hnd as [Hnotin Hnd].
    cbn [delayFrom Nat.ltb Nat.leb]. unfold delay. rewrite Hr. cbn [mbind option_bind].
    set (σ1 := {| objects := _; fresh := fresh σ |}).
    assert (Hrest1 : stands σ1 rest ts).
    { apply Forall2_same_length_lookup_2; [by eapply Forall2_length|].
      intros k r' t' Hk Hk'. cbn.
      rewrite lookup_insert_ne; [by apply (Forall2_lookup_lr _ _ _ _ _ _ Hrest Hk Hk')|].
      intros <-. apply Hnotin. by eapply list_elem_of_lookup_2. }
    destruct (IH ts (S i) σ1 Hnd Hrest1) as (σ' & Hrun & Hst' & Hframe).
    exists σ'. split; [done|]. split.
    + cbn [fmap list_fmap]. constructor; [|done].
      rewrite Hframe by done. cbn. by rewrite lookup_insert_eq.
    + intros r' Hr'. apply not_elem_of_cons in Hr' as [Hne Hr'].
      rewrite Hframe by done. cbn. by rewrite lookup_insert_ne.
Qed.

(** What [protectBundle] does, step by step. *)
Lemma protectBundle_spec cfg env transactions σ requests :
  wellFormed σ -> NoDup transactions -> stands σ transactions requests ->
  exists ps σ1 σ',
    let out := BatchProcessor.Array_sort (compareGasPrice σ1) ps in
    let sorted := BatchProcessor.Array_sort compareRequests (protections cfg env requests) in
    protectBundle cfg env transactions σ = Some (out, σ') /\
    stands σ1 out sorted /\
    stands σ' out (delayed sorted) /\
    out ≡ₚ ps /\
    (forall r, (r < fresh σ)%nat -> objects σ1 !! r = objects σ !! r) /\
    (forall r, r ∉ tail out -> objects σ' !! r = objects σ1 !! r) /\
    (enabled cfg = false -> ps = transactions /\ σ1 = σ) /\
    (enabled cfg = true ->
     (forall k t, requests !! k = Some t ->
        is_Some (getTransactionCount (env k) (orEmpty (from t)))) ->
     Forall (fun p => (fresh σ <= p)%nat) ps).
Proof.
  intros Hwf Hnd Hst.
  destruct (protectEach_spec cfg env transactions requests 0 σ Hwf Hnd Hst)
    as (ps & σ1 & Hps & Hwf1 & Hfresh & Hframe & Hst1 & Hnd1 & _ & Hoff & Hon).
  change (imap _ requests) with (protections cfg env requests) in Hst1.
  pose proof (Array_sort_stands σ1 ps _ Hst1) as Hsorted.
  pose proof (BatchProcessorProofs.Array_sort_Permutation (compareGasPrice σ1) ps) as Hperm.
  assert (Hnd' : NoDup (BatchProcessor.Array_sort (compareGasPrice σ1) ps))
    by (by rewrite Hperm).
  unfold protectBundle, applyBundleProtection. rewrite Hps. cbn [mbind option_bind].
  set (out := BatchProcessor.Array_sort (compareGasPrice σ1) ps) in *.
  set (sorted := BatchProcessor.Array_sort compareRequests _) in *.
  assert (Hdelay : exists σ', delayFrom 0 out σ1 = Some σ' /\
            stands σ' out (delayed sorted) /\
            (forall r, r ∉ tail out -> objects σ' !! r = objects σ1 !! r)).
  { destruct Hsorted as [|r t rest ts Hr Hrest].
    - exists σ1. by split_and!; [|constructor|].
    - apply NoDup_cons in Hnd' as [Hnotin Hnd'].
      destruct (delayFrom_spec rest ts 0 σ1 Hnd' Hrest) as (σ' & Hrun & Hst' & Hfr).
      exists σ'. split; [done|]. split; [|done].
      constructor; [|done]. by rewrite Hfr. }
  destruct Hdelay as (σ' & Hrun & Hst' & Hfr).
  exists ps, σ1, σ'. cbn zeta. fold out. fold sorted. rewrite Hrun. cbn [mbind option_bind].
  split_and!; try done.
Qed.

(** X23: the bundle that [protectBundle] returns is made of the protections of
    its requests, in the order of decreasing gas prices (a missing price
    counting as 0), and the padding is appended to the call data of every
    request but the first: a request without call data is given the call
    data 0x00. *)
Theorem protectBundle_sorts_and_pads cfg env transactions σ requests :
  wellFormed σ -> NoDup transactions -> stands σ transactions requests ->
  exists out σ' sorted,
    protectBundle cfg env transactions σ = Some (out, σ') /\
    sorted ≡ₚ protections cfg env requests /\
    StronglySorted (fun a b => gasPriceOf b <= gasPriceOf a) sorted /\
    stands σ' out (delayed sorted).
Proof.
  intros Hwf Hnd Hst.
  destruct (protectBundle_spec cfg env transactions σ requests Hwf Hnd Hst)
    as (ps & σ1 & σ' & Hrun & _ & Hst' & _).
  eexists _, σ', _. split; [exact Hrun|].
  destruct (Array_sort_compareRequests (protections cfg env requests)) as [Hperm Hsorted].
  by split_and!.
Qed.

Lemma bundleStore_wellFormed : wellFormed bundleStore.
Proof.
  intros r [t Hr]. unfold bundleStore in *. cbn [objects fresh] in *.
  destruct (decide (r < 3)%nat) as [|Hge]; [done|].
  rewrite !lookup_insert_ne, lookup_empty in Hr by lia. done.
Qed.

Lemma bundleStore_stands :
  NoDup [0; 1; 2]%nat /\
  stands bundleStore [0; 1; 2]%nat
         [launchRequest; buyRequest "0xB" (Some "0xa6f2ae3a"); buyRequest "0xC" None].
Proof.
  split; [|by repeat constructor].
  apply (bool_decide_unpack _). by vm_compute.
Qed.

Lemma protectBundle_launch_goes_last :
  fst <$> protectBundle defaultMEVConfig (fun _ => byteCodeProvider) [0; 1; 2]%nat bundleStore
    = Some [4; 5; 3]%nat /\
  exists out σ' sorted,
    protectBundle defaultMEVConfig (fun _ => byteCodeProvider) [0; 1; 2]%nat bundleStore
      = Some (out, σ') /\
    sorted ≡ₚ protections defaultMEVConfig (fun _ => byteCodeProvider)
                [launchRequest; buyRequest "0xB" (Some "0xa6f2ae3a");
                 buyRequest "0xC" None] /\
    StronglySorted (fun a b => gasPriceOf b <= gasPriceOf a) sorted /\
    stands σ' out (delayed sorted).
Proof.
  split; [vm_compute; reflexivity|].
  apply (protectBundle_sorts_and_pads defaultMEVConfig (fun _ => byteCodeProvider)
           [0; 1; 2]%nat bundleStore).
  - apply bundleStore_wellFormed.
  - apply bundleStore_stands.
  - apply bundleStore_stands.
Defined.

(** X24: whether the requests that were handed in are written to depends on the
    protection. With the protection disabled the bundle is made of the very
    objects that were handed in, and the padding is appended to the call
    data of all of them but the one that is sorted first. With the
    protection enabled and every nonce read, the bundle is made of copies,
    and the objects that were handed in are left as they were. *)
Theorem protectBundle_writes_to_the_requests cfg env transactions σ requests out σ' :
  wellFormed σ -> NoDup transactions -> stands σ transactions requests ->
  protectBundle cfg env transactions σ = Some (out, σ') ->
  (enabled cfg = false ->
   out ≡ₚ transactions /\
   forall r t, r ∈ tail out -> objects σ !! r = Some t ->
     objects σ' !! r = Some (padded t)) /\
  (enabled cfg = true ->
   (forall k t, requests !! k = Some t ->
      is_Some (getTransactionCount (env k) (orEmpty (from t)))) ->
   Forall (fun r => (fresh σ <= r)%nat) out /\
   forall r, (r < fresh σ)%nat -> objects σ' !! r = objects σ !! r).
Proof.
  intros Hwf Hnd Hst Hrun.
  destruct (protectBundle_spec cfg env transactions σ requests Hwf Hnd Hst)
    as (ps & σ1 & σ'' & Hrun' & Hsorted & Hdelayed & Hperm & Hframe & Hfr & Hoff & Hon).
  cbn zeta in *. rewrite Hrun in Hrun'. injection Hrun' as -> <-.
  set (out := BatchProcessor.Array_sort (compareGasPrice σ1) ps) in *.
  set (sorted := BatchProcessor.Array_sort compareRequests _) in *.
  split.
  - intros Hen. destruct (Hoff Hen) as [-> ->]. split; [done|].
    intros r t Hin Hr.
    destruct Hsorted as [|r0 t0 rest ts Hr0 Hrest]; [by apply elem_of_nil in Hin|].
    cbn [tail delayed] in *. apply Forall2_cons_1 in Hdelayed as [_ Hdelayed].
    apply (list_elem_of_lookup_1 rest) in Hin as [k Hk].
    destruct (Forall2_lookup_l _ _ _ _ _ Hrest Hk) as (t' & Hk' & Hr').
    assert (t' = t) as -> by congruence.
    destruct (Forall2_lookup_l _ _ _ _ _ Hdelayed Hk) as (t'' & Hk'' & Hr'').
    rewrite list_lookup_fmap, Hk' in Hk''. by injection Hk'' as <-.
  - intros Hen Hcount. specialize (Hon Hen Hcount).
    assert (Hout : Forall (fun r => (fresh σ <= r)%nat) out) by (by rewrite Hperm).
    split; [done|]. intros r Hr. rewrite Hfr; [by apply Hframe|].
    intros Hin. rewrite Forall_forall in Hout.
    assert (r ∈ out) as Hin' by (destruct out; [done|by right]).
    specialize (Hout r Hin'). lia.
Qed.

Lemma protectBundle_unprotected_bundle :
  match protectBundle unprotected (fun _ => byteCodeProvider) [0; 1; 2]%nat bundleStore with
  | Some (out, σ') =>
      out = [1; 2; 0]%nat /\
      data <$> objects σ' !! 2%nat = Some (Some "0x00") /\
      forall r t, r ∈ tail out -> objects bundleStore !! r = Some t ->
        objects σ' !! r = Some (padded t)
  | None => False
  end.
Proof.
  destruct (protectBundle unprotected (fun _ => byteCodeProvider) [0; 1; 2]%nat bundleStore)
    as [[out σ']|] eqn:Hrun; [|vm_compute in Hrun; discriminate].
  pose proof (protectBundle_writes_to_the_requests unprotected (fun _ => byteCodeProvider)
                [0; 1; 2]%nat bundleStore _ out σ' bundleStore_wellFormed
                (proj1 bundleStore_stands) (proj2 bundleStore_stands) Hrun) as [Hoff _].
  destruct (Hoff eq_refl) as [_ Hpad].
  assert (Hout : out = [1; 2; 0]%nat).
  { assert (H : fst <$> protectBundle unprotected (fun _ => byteCodeProvider)
                          [0; 1; 2]%nat bundleStore = Some [1; 2; 0]%nat)
      by (vm_compute; reflexivity).
    rewrite Hrun in H. by injection H. }
  split; [done|]. split; [|done].
  rewrite (Hpad 2%nat (buyRequest "0xC" None)); [done| |done].
  rewrite Hout. cbn [tail]. by left.
Defined.

End MEVProtectionProofs.
